(** * polysolve::nonlinear::Solver — the solve driver

    A shallow embedding of [Solver::Solver], [Solver::minimize],
    [Solver::reset], [Solver::reset_times] and [Solver::update_solver_info]
    (Solver.cpp), with the properties of the driver stated and proved over
    it.

    - [double] is IEEE 754 binary64, taken from the Standard Library's
      executable specification [SpecFloat] (one NaN, signed zeros and
      infinities, round to nearest even).
    - [size_t] is [N] with the wrap-around at 2^64 written out.
    - [json] objects are finite maps from strings.
    - The objective ([Problem]), the line search, the concrete solver
      (the virtual methods of the subclass), Eigen's vectors and cppoptlib's
      [checkConvergence] are interfaces: the driver is verified for every
      implementation of them. *)

From Stdlib Require Import ZArith NArith Bool List Lia.
From Stdlib Require Import Floats.SpecFloat.
From stdpp Require Import base option strings gmap.

Local Open Scope string_scope.

(** ** Doubles *)

Module Double.

Definition prec : Z := 53.
Definition emax : Z := 1024.

Definition double : Type := spec_float.

(** [std::numeric_limits<double>::quiet_NaN()] *)
Definition quiet_NaN : double := S754_nan.
Definition zero : double := S754_zero false.

(** [std::isnan], [std::isfinite], [std::abs] *)
Definition isnan (d : double) : bool :=
  match d with S754_nan => true | _ => false end.
Definition isfinite (d : double) : bool :=
  match d with S754_zero _ | S754_finite _ _ _ => true | _ => false end.
Definition abs (d : double) : double := SFabs d.

Definition add (a b : double) : double := SFadd prec emax a b.
Definition sub (a b : double) : double := SFsub prec emax a b.
Definition mul (a b : double) : double := SFmul prec emax a b.
Definition div (a b : double) : double := SFdiv prec emax a b.

(** [a != b] and [a >= b]; every ordered comparison with NaN is false,
    [!=] with NaN is true. *)
Definition neq (a b : double) : bool := negb (SFeqb a b).
Definition geq (a b : double) : bool := SFleb b a.

(** Conversion of a [size_t] to [double] (round to nearest even). *)
Definition of_N (n : N) : double :=
  binary_normalize prec emax (Z.of_N n) 0 false.

End Double.

Import Double.

(** ** cppoptlib: status, criteria *)

(** Modelled from the spec: the enum [cppoptlib::Status] (section 3). *)
Inductive Status : Type :=
| Continue
| IterationLimit
| GradNormTolerance
| XDeltaTolerance
| FDeltaTolerance
| UserDefined.

(** Modelled from the spec: the enum [ErrorCode] declared in Solver.hpp
    (section 3). *)
Inductive ErrorCode : Type :=
| SUCCESS
| NAN_ENCOUNTERED
| LINE_SEARCH_FAILED
| NOT_DESCENT_DIRECTION.

#[global] Instance Status_eq_dec : EqDecision Status.
Proof. solve_decision. Defined.
#[global] Instance ErrorCode_eq_dec : EqDecision ErrorCode.
Proof. solve_decision. Defined.

(** [size_t] arithmetic. *)
Definition size_max : N := 2 ^ 64.
Definition size_incr (n : N) : N := ((n + 1) mod size_max)%N.

(** Modelled from the spec: the record [cppoptlib::Criteria<double>]
    (section 3); [iterations] is a [size_t]. *)
Record Criteria : Type := {
  iterations : N;
  xDelta : double;
  fDelta : double;
  gradNorm : double;
  condition : double
}.

Definition set_iterations (v : N) (c : Criteria) : Criteria :=
  {| iterations := v; xDelta := xDelta c; fDelta := fDelta c;
     gradNorm := gradNorm c; condition := condition c |}.
Definition set_xDelta (v : double) (c : Criteria) : Criteria :=
  {| iterations := iterations c; xDelta := v; fDelta := fDelta c;
     gradNorm := gradNorm c; condition := condition c |}.
Definition set_fDelta (v : double) (c : Criteria) : Criteria :=
  {| iterations := iterations c; xDelta := xDelta c; fDelta := v;
     gradNorm := gradNorm c; condition := condition c |}.
Definition set_gradNorm (v : double) (c : Criteria) : Criteria :=
  {| iterations := iterations c; xDelta := xDelta c; fDelta := fDelta c;
     gradNorm := v; condition := condition c |}.

(** ** json values stored in [solver_info] *)

Inductive json : Type :=
| JNull
| JString (s : string)
| JDouble (d : double)
| JUnsigned (n : N)
| JInt (z : Z)
| JStatus (s : Status)
| JErrorCode (e : ErrorCode).

(** ** The line search object (namespace [line_search]) *)

Module LineSearch.

(** The public members of [line_search::LineSearch] that the driver reads
    and writes; [impl] is the rest of the object. *)
Record t {I : Type} : Type := {
  use_grad_norm_tol : double;
  iterations : Z;
  checking_for_nan_inf_time : double;
  broad_phase_ccd_time : double;
  ccd_time : double;
  constraint_set_update_time : double;
  classical_line_search_time : double;
  impl : I
}.
Arguments t : clear implicits.

Definition set_use_grad_norm_tol {I} (v : double) (l : t I) : t I :=
  {| use_grad_norm_tol := v; iterations := iterations l;
     checking_for_nan_inf_time := checking_for_nan_inf_time l;
     broad_phase_ccd_time := broad_phase_ccd_time l;
     ccd_time := ccd_time l;
     constraint_set_update_time := constraint_set_update_time l;
     classical_line_search_time := classical_line_search_time l;
     impl := impl l |}.

End LineSearch.

(** ** The solver object *)

(** The timers of [Solver]. *)
Record Times : Type := {
  total_time : double;
  grad_time : double;
  assembly_time : double;
  inverting_time : double;
  line_search_time : double;
  obj_fun_time : double;
  constraint_set_update_time : double
}.

(** [L] is the implementation state of the line search, [D] the state of
    the concrete solver (BFGS, Newton, ...). *)
Record Solver {L D : Type} : Type := {
  (* cppoptlib::ISolver *)
  m_stop : Criteria;
  m_current : Criteria;
  m_status : Status;
  (* polysolve::nonlinear::Solver *)
  m_error_code : ErrorCode;
  characteristic_length : double;
  use_grad_norm_tol : double;
  first_grad_norm_tol : double;
  allow_out_of_iterations : bool;
  descent_strategy : Z;
  m_line_search : option (LineSearch.t L);
  solver_info : gmap string json;
  times : Times;
  (* the subclass *)
  derived : D
}.
Arguments Solver : clear implicits.

(** Field updates ([s.f = v]). *)
Definition set_total_time (v : double) (r : Times) : Times :=
  {| total_time := v; grad_time := grad_time r;
     assembly_time := assembly_time r; inverting_time := inverting_time r;
     line_search_time := line_search_time r; obj_fun_time := obj_fun_time r;
     constraint_set_update_time := constraint_set_update_time r |}.
Definition set_grad_time (v : double) (r : Times) : Times :=
  {| total_time := total_time r; grad_time := v;
     assembly_time := assembly_time r; inverting_time := inverting_time r;
     line_search_time := line_search_time r; obj_fun_time := obj_fun_time r;
     constraint_set_update_time := constraint_set_update_time r |}.
Definition set_obj_fun_time (v : double) (r : Times) : Times :=
  {| total_time := total_time r; grad_time := grad_time r;
     assembly_time := assembly_time r; inverting_time := inverting_time r;
     line_search_time := line_search_time r; obj_fun_time := v;
     constraint_set_update_time := constraint_set_update_time r |}.
Definition set_constraint_set_update_time (v : double) (r : Times) : Times :=
  {| total_time := total_time r; grad_time := grad_time r;
     assembly_time := assembly_time r; inverting_time := inverting_time r;
     line_search_time := line_search_time r; obj_fun_time := obj_fun_time r;
     constraint_set_update_time := v |}.

Definition set_m_stop {L D} (v : Criteria) (r : Solver L D) : Solver L D :=
  {| m_stop := v; m_current := m_current r; m_status := m_status r;
     m_error_code := m_error_code r;
     characteristic_length := characteristic_length r;
     use_grad_norm_tol := use_grad_norm_tol r;
     first_grad_norm_tol := first_grad_norm_tol r;
     allow_out_of_iterations := allow_out_of_iterations r;
     descent_strategy := descent_strategy r;
     m_line_search := m_line_search r; solver_info := solver_info r;
     times := times r; derived := derived r |}.
Definition set_m_current {L D} (v : Criteria) (r : Solver L D) : Solver L D :=
  {| m_stop := m_stop r; m_current := v; m_status := m_status r;
     m_error_code := m_error_code r;
     characteristic_length := characteristic_length r;
     use_grad_norm_tol := use_grad_norm_tol r;
     first_grad_norm_tol := first_grad_norm_tol r;
     allow_out_of_iterations := allow_out_of_iterations r;
     descent_strategy := descent_strategy r;
     m_line_search := m_line_search r; solver_info := solver_info r;
     times := times r; derived := derived r |}.
Definition set_m_status {L D} (v : Status) (r : Solver L D) : Solver L D :=
  {| m_stop := m_stop r; m_current := m_current r; m_status := v;
     m_error_code := m_error_code r;
     characteristic_length := characteristic_length r;
     use_grad_norm_tol := use_grad_norm_tol r;
     first_grad_norm_tol := first_grad_norm_tol r;
     allow_out_of_iterations := allow_out_of_iterations r;
     descent_strategy := descent_strategy r;
     m_line_search := m_line_search r; solver_info := solver_info r;
     times := times r; derived := derived r |}.
Definition set_m_error_code {L D} (v : ErrorCode)
  (r : Solver L D) : Solver L D :=
  {| m_stop := m_stop r; m_current := m_current r; m_status := m_status r;
     m_error_code := v; characteristic_length := characteristic_length r;
     use_grad_norm_tol := use_grad_norm_tol r;
     first_grad_norm_tol := first_grad_norm_tol r;
     allow_out_of_iterations := allow_out_of_iterations r;
     descent_strategy := descent_strategy r;
     m_line_search := m_line_search r; solver_info := solver_info r;
     times := times r; derived := derived r |}.
Definition set_descent_strategy {L D} (v : Z) (r : Solver L D) : Solver L D :=
  {| m_stop := m_stop r; m_current := m_current r; m_status := m_status r;
     m_error_code := m_error_code r;
     characteristic_length := characteristic_length r;
     use_grad_norm_tol := use_grad_norm_tol r;
     first_grad_norm_tol := first_grad_norm_tol r;
     allow_out_of_iterations := allow_out_of_iterations r;
     descent_strategy := v; m_line_search := m_line_search r;
     solver_info := solver_info r; times := times r; derived := derived r |}.
Definition set_m_line_search {L D} (v : option (LineSearch.t L))
  (r : Solver L D) : Solver L D :=
  {| m_stop := m_stop r; m_current := m_current r; m_status := m_status r;
     m_error_code := m_error_code r;
     characteristic_length := characteristic_length r;
     use_grad_norm_tol := use_grad_norm_tol r;
     first_grad_norm_tol := first_grad_norm_tol r;
     allow_out_of_iterations := allow_out_of_iterations r;
     descent_strategy := descent_strategy r; m_line_search := v;
     solver_info := solver_info r; times := times r; derived := derived r |}.
Definition set_solver_info {L D} (v : gmap string json)
  (r : Solver L D) : Solver L D :=
  {| m_stop := m_stop r; m_current := m_current r; m_status := m_status r;
     m_error_code := m_error_code r;
     characteristic_length := characteristic_length r;
     use_grad_norm_tol := use_grad_norm_tol r;
     first_grad_norm_tol := first_grad_norm_tol r;
     allow_out_of_iterations := allow_out_of_iterations r;
     descent_strategy := descent_strategy r;
     m_line_search := m_line_search r; solver_info := v; times := times r;
     derived := derived r |}.
Definition set_times {L D} (v : Times) (r : Solver L D) : Solver L D :=
  {| m_stop := m_stop r; m_current := m_current r; m_status := m_status r;
     m_error_code := m_error_code r;
     characteristic_length := characteristic_length r;
     use_grad_norm_tol := use_grad_norm_tol r;
     first_grad_norm_tol := first_grad_norm_tol r;
     allow_out_of_iterations := allow_out_of_iterations r;
     descent_strategy := descent_strategy r;
     m_line_search := m_line_search r; solver_info := solver_info r;
     times := v; derived := derived r |}.
Definition set_derived {L D} (v : D) (r : Solver L D) : Solver L D :=
  {| m_stop := m_stop r; m_current := m_current r; m_status := m_status r;
     m_error_code := m_error_code r;
     characteristic_length := characteristic_length r;
     use_grad_norm_tol := use_grad_norm_tol r;
     first_grad_norm_tol := first_grad_norm_tol r;
     allow_out_of_iterations := allow_out_of_iterations r;
     descent_strategy := descent_strategy r;
     m_line_search := m_line_search r; solver_info := solver_info r;
     times := times r; derived := v |}.

(** ** The configuration document

    [Solver::create] validates the document against the schema and injects
    the defaults before the constructor runs, so every key the constructor
    reads is present with its type: the validated document is a record of
    those keys ([line_search_method] is ["line_search"]["method"],
    [line_search_use_grad_norm_tol] is ["line_search"]["use_grad_norm_tol"]). *)

Module Params.

Record t : Type := {
  x_delta : double;
  f_delta : double;
  grad_norm : double;
  max_iterations : N;
  first_grad_norm_tol : double;
  line_search_method : string;
  line_search_use_grad_norm_tol : double
}.

End Params.

(** ** Interfaces of the collaborators *)

(** Eigen's [VectorXd]: [plus_scaled x a d] is [x + a * d]. *)
Class VectorOps (Vec : Type) : Type := {
  Zero : nat -> Vec;
  rows : Vec -> nat;
  norm : Vec -> double;
  dot : Vec -> Vec -> double;
  plus_scaled : Vec -> double -> Vec -> Vec
}.

(** The objective ([Problem &objFunc]): every method may change the state
    [P] of the objective; [x] is passed by const reference everywhere. *)
Class Problem (P Vec : Type) : Type := {
  value : P -> Vec -> double * P;
  gradient : P -> Vec -> Vec -> Vec * P;
  solution_changed : P -> Vec -> P;
  stop : P -> Vec -> bool * P;
  post_step : P -> N -> Vec -> P;
  save_to_file : P -> Vec -> P;
  callback : P -> Criteria -> Vec -> bool * P
}.

(** [line_search::LineSearch]: the factory [create] (throws on a document it
    cannot serve: [None]), [line_search(x, delta_x, objFunc)] and
    [reset_times()]. *)
Class LineSearchOps (L P Vec : Type) : Type := {
  create : Params.t -> option (LineSearch.t L);
  line_search :
    LineSearch.t L -> Vec -> Vec -> P -> double * LineSearch.t L * P;
  line_search_reset_times : LineSearch.t L -> LineSearch.t L
}.

(** The virtual methods that the concrete solver implements (the
    subclasses are not part of the sources). They are given the fall-back
    level [descent_strategy] and the subclass's own state [D], and may
    change both; [compute_update_direction] also receives the objective
    and the previous [delta_x], which it overwrites. The members that
    [minimize] itself maintains (status, error code, criteria,
    [solver_info]) are out of their reach. *)
Class Strategy (D P Vec : Type) : Type := {
  derived_reset : nat -> Z * D -> Z * D;
  compute_update_direction :
    Z * D -> P -> Vec -> Vec -> Vec -> Vec * (Z * D) * P;
  is_direction_descent : Z * D -> bool;
  increase_descent_strategy : Z * D -> Z * D;
  set_default_descent_strategy : Z * D -> Z * D
}.

(** cppoptlib: [Criteria::defaults()], [Criteria::reset()] and
    [checkConvergence(stop, current)]. *)
Class CppOptLib : Type := {
  Criteria_defaults : Criteria;
  Criteria_reset : Criteria -> Criteria;
  checkConvergence : Criteria -> Criteria -> Status
}.

(** ** Solver::Solver, Solver::reset, Solver::update_solver_info *)

Section SolverObject.

Context {Vec P L D : Type}.
Context {vector_ops : VectorOps Vec} {problem : Problem P Vec}.
Context {line_search_ops : LineSearchOps L P Vec}.
Context {strategy : Strategy D P Vec} {cppoptlib : CppOptLib}.

Definition get_strategy (s : Solver L D) : Z * D :=
  (descent_strategy s, derived s).
Definition set_strategy (v : Z * D) (s : Solver L D) : Solver L D :=
  set_derived (snd v) (set_descent_strategy (fst v) s).

(** The constructor. [blank] holds the members as their default
    initialisers leave them; the constructor body assigns [m_stop], the
    two scaled tolerances, the line search and one key of [solver_info].
    [None]: the line search factory threw. *)
Definition Solver_new (blank : Solver L D) (solver_params : Params.t)
    (characteristic_length : double) : option (Solver L D) :=
  let criteria := Criteria_defaults in
  let criteria := set_xDelta (Params.x_delta solver_params) criteria in
  let criteria := set_fDelta (Params.f_delta solver_params) criteria in
  let criteria := set_gradNorm (Params.grad_norm solver_params) criteria in
  let criteria :=
    set_xDelta (mul (xDelta criteria) characteristic_length) criteria in
  let criteria :=
    set_fDelta (mul (fDelta criteria) characteristic_length) criteria in
  let criteria :=
    set_gradNorm (mul (gradNorm criteria) characteristic_length) criteria in
  let criteria :=
    set_iterations (Params.max_iterations solver_params) criteria in
  let use_grad_norm_tol :=
    Params.line_search_use_grad_norm_tol solver_params in
  let first_grad_norm_tol := Params.first_grad_norm_tol solver_params in
  let use_grad_norm_tol := mul use_grad_norm_tol characteristic_length in
  let first_grad_norm_tol := mul first_grad_norm_tol characteristic_length in
  (* set_line_search *)
  match create solver_params with
  | None => None
  | Some ls =>
      Some
        {| m_stop := criteria;
           m_current := m_current blank;
           m_status := m_status blank;
           m_error_code := m_error_code blank;
           characteristic_length := characteristic_length;
           use_grad_norm_tol := use_grad_norm_tol;
           first_grad_norm_tol := first_grad_norm_tol;
           allow_out_of_iterations := allow_out_of_iterations blank;
           descent_strategy := descent_strategy blank;
           m_line_search := Some ls;
           solver_info :=
             <["line_search" :=
                 JString (Params.line_search_method solver_params)]>
               (solver_info blank);
           times := times blank;
           derived := derived blank |}
  end.

Definition compute_grad_norm (x grad : Vec) : double := norm grad.

Definition zero_times : Times :=
  {| total_time := zero; grad_time := zero; assembly_time := zero;
     inverting_time := zero; line_search_time := zero;
     obj_fun_time := zero; constraint_set_update_time := zero |}.

Definition reset_times (s : Solver L D) : Solver L D :=
  let s := set_times zero_times s in
  match m_line_search s with
  | Some ls => set_m_line_search (Some (line_search_reset_times ls)) s
  | None => s
  end.

(** [Solver::reset]. Reading [solver_info["line_search"]] into a
    [std::string] throws json's type error when the key holds no string
    ([inr]; a missing key is first inserted as null). *)
Definition reset (ndof : nat) (s : Solver L D)
    : Solver L D + Solver L D :=
  let s := set_m_current (Criteria_reset (m_current s)) s in
  let s := set_strategy (set_default_descent_strategy (get_strategy s)) s in
  let s := set_m_error_code SUCCESS s in
  match solver_info s !! "line_search" with
  | Some (JString line_search_name) =>
      let s :=
        set_solver_info
          (<["iterations" := JInt 0]>
             (<["line_search" := JString line_search_name]> ∅)) s in
      inl (reset_times s)
  | Some _ => inr s
  | None =>
      inr (set_solver_info (<["line_search" := JNull]> (solver_info s)) s)
  end.

(** [Solver::update_solver_info]; [status()] and [criteria()] are
    cppoptlib's accessors of [m_status] and [m_current]. *)
Definition per_iteration (crit : Criteria) : double :=
  of_N (if (iterations crit =? 0)%N then 1%N else iterations crit).

Definition line_search_info (per_iteration : double)
    (ls : LineSearch.t L) (info : gmap string json) : gmap string json :=
  let info :=
    <["line_search_iterations" := JInt (LineSearch.iterations ls)]> info in
  let info :=
    <["time_checking_for_nan_inf" :=
        JDouble (div (LineSearch.checking_for_nan_inf_time ls)
                     per_iteration)]> info in
  let info :=
    <["time_broad_phase_ccd" :=
        JDouble (div (LineSearch.broad_phase_ccd_time ls)
                     per_iteration)]> info in
  let info :=
    <["time_ccd" :=
        JDouble (div (LineSearch.ccd_time ls) per_iteration)]> info in
  let info :=
    <["time_classical_line_search" :=
        JDouble (div (sub (LineSearch.classical_line_search_time ls)
                          (LineSearch.constraint_set_update_time ls))
                     per_iteration)]> info in
  <["time_line_search_constraint_set_update" :=
      JDouble (div (LineSearch.constraint_set_update_time ls)
                   per_iteration)]> info.

(** The document that [update_solver_info(energy)] leaves in
    [solver_info]: the assignments of lines 354-390, in their order. *)
Definition updated_info (energy : double) (s : Solver L D)
    : gmap string json :=
  let info := solver_info s in
  let info := <["status" := JStatus (m_status s)]> info in
  let info := <["error_code" := JErrorCode (m_error_code s)]> info in
  let info := <["energy" := JDouble energy]> info in
  let crit := m_current s in
  let info := <["iterations" := JUnsigned (iterations crit)]> info in
  let info := <["xDelta" := JDouble (xDelta crit)]> info in
  let info := <["fDelta" := JDouble (fDelta crit)]> info in
  let info := <["gradNorm" := JDouble (gradNorm crit)]> info in
  let info := <["condition" := JDouble (condition crit)]> info in
  let per_iteration := per_iteration crit in
  let t := times s in
  let info := <["total_time" := JDouble (total_time t)]> info in
  let info :=
    <["time_grad" := JDouble (div (grad_time t) per_iteration)]> info in
  let info :=
    <["time_assembly" :=
        JDouble (div (assembly_time t) per_iteration)]> info in
  let info :=
    <["time_inverting" :=
        JDouble (div (inverting_time t) per_iteration)]> info in
  let info :=
    <["time_line_search" :=
        JDouble (div (line_search_time t) per_iteration)]> info in
  let info :=
    <["time_constraint_set_update" :=
        JDouble (div (constraint_set_update_time t) per_iteration)]> info in
  let info :=
    <["time_obj_fun" :=
        JDouble (div (obj_fun_time t) per_iteration)]> info in
  match m_line_search s with
  | Some ls => line_search_info per_iteration ls info
  | None => info
  end.

Definition update_solver_info (energy : double) (s : Solver L D)
    : Solver L D :=
  set_solver_info (updated_info energy s) s.

End SolverObject.

(** ** Solver::minimize *)

(** The stop watches read the wall clock: [elapsed n] is what the [n]-th
    stop watch of a call measures. *)
Class StopWatch : Type := { elapsed : nat -> double }.

(** Where [minimize] can end abnormally: the five [log_and_throw_error]
    sites, json's type error in [reset], and the dereference of a null
    [m_line_search] (undefined behaviour; the model stops there). *)
Inductive Fatal : Type :=
| EnergyNotFinite        (* "f(x) is nan or inf; stopping" *)
| GradientIsNaN          (* "Gradient is nan; stopping" *)
| LineSearchFailedOnGD   (* "Line search failed on gradient descent; stopping" *)
| ReachedIterationLimit  (* "Reached iteration limit (limit={})" *)
| FailedToFindMinimizer  (* "Failed to find minimizer" *)
| JsonTypeError
| NullLineSearch.

Section Minimize.

Context {Vec P L D : Type}.
Context {vector_ops : VectorOps Vec} {problem : Problem P Vec}.
Context {line_search_ops : LineSearchOps L P Vec}.
Context {strategy : Strategy D P Vec} {cppoptlib : CppOptLib}.
Context {stop_watch : StopWatch}.

(** The variables of [minimize]: the solver object ([this]), the two
    arguments, the locals of the function, the locals [energy],
    [grad_norm] and [rate] of the loop body, and the number of stop
    watches read so far. *)
Record LoopState : Type := {
  solver : Solver L D;
  objFunc : P;
  x : Vec;
  grad : Vec;
  delta_x : Vec;
  old_energy : double;
  g_norm_tol : double;
  energy : double;
  grad_norm : double;
  rate : double;
  clock : nat
}.

Definition set_solver (v : Solver L D) (r : LoopState) : LoopState :=
  {| solver := v; objFunc := objFunc r; x := x r; grad := grad r;
     delta_x := delta_x r; old_energy := old_energy r;
     g_norm_tol := g_norm_tol r; energy := energy r;
     grad_norm := grad_norm r; rate := rate r; clock := clock r |}.
Definition set_objFunc (v : P) (r : LoopState) : LoopState :=
  {| solver := solver r; objFunc := v; x := x r; grad := grad r;
     delta_x := delta_x r; old_energy := old_energy r;
     g_norm_tol := g_norm_tol r; energy := energy r;
     grad_norm := grad_norm r; rate := rate r; clock := clock r |}.
Definition set_x (v : Vec) (r : LoopState) : LoopState :=
  {| solver := solver r; objFunc := objFunc r; x := v; grad := grad r;
     delta_x := delta_x r; old_energy := old_energy r;
     g_norm_tol := g_norm_tol r; energy := energy r;
     grad_norm := grad_norm r; rate := rate r; clock := clock r |}.
Definition set_grad (v : Vec) (r : LoopState) : LoopState :=
  {| solver := solver r; objFunc := objFunc r; x := x r; grad := v;
     delta_x := delta_x r; old_energy := old_energy r;
     g_norm_tol := g_norm_tol r; energy := energy r;
     grad_norm := grad_norm r; rate := rate r; clock := clock r |}.
Definition set_delta_x (v : Vec) (r : LoopState) : LoopState :=
  {| solver := solver r; objFunc := objFunc r; x := x r; grad := grad r;
     delta_x := v; old_energy := old_energy r; g_norm_tol := g_norm_tol r;
     energy := energy r; grad_norm := grad_norm r; rate := rate r;
     clock := clock r |}.
Definition set_old_energy (v : double) (r : LoopState) : LoopState :=
  {| solver := solver r; objFunc := objFunc r; x := x r; grad := grad r;
     delta_x := delta_x r; old_energy := v; g_norm_tol := g_norm_tol r;
     energy := energy r; grad_norm := grad_norm r; rate := rate r;
     clock := clock r |}.
Definition set_g_norm_tol (v : double) (r : LoopState) : LoopState :=
  {| solver := solver r; objFunc := objFunc r; x := x r; grad := grad r;
     delta_x := delta_x r; old_energy := old_energy r; g_norm_tol := v;
     energy := energy r; grad_norm := grad_norm r; rate := rate r;
     clock := clock r |}.
Definition set_energy (v : double) (r : LoopState) : LoopState :=
  {| solver := solver r; objFunc := objFunc r; x := x r; grad := grad r;
     delta_x := delta_x r; old_energy := old_energy r;
     g_norm_tol := g_norm_tol r; energy := v; grad_norm := grad_norm r;
     rate := rate r; clock := clock r |}.
Definition set_grad_norm (v : double) (r : LoopState) : LoopState :=
  {| solver := solver r; objFunc := objFunc r; x := x r; grad := grad r;
     delta_x := delta_x r; old_energy := old_energy r;
     g_norm_tol := g_norm_tol r; energy := energy r; grad_norm := v;
     rate := rate r; clock := clock r |}.
Definition set_rate (v : double) (r : LoopState) : LoopState :=
  {| solver := solver r; objFunc := objFunc r; x := x r; grad := grad r;
     delta_x := delta_x r; old_energy := old_energy r;
     g_norm_tol := g_norm_tol r; energy := energy r;
     grad_norm := grad_norm r; rate := v; clock := clock r |}.
Definition set_clock (v : nat) (r : LoopState) : LoopState :=
  {| solver := solver r; objFunc := objFunc r; x := x r; grad := grad r;
     delta_x := delta_x r; old_energy := old_energy r;
     g_norm_tol := g_norm_tol r; energy := energy r;
     grad_norm := grad_norm r; rate := rate r; clock := v |}.

Definition upd_solver (f : Solver L D -> Solver L D) (st : LoopState)
    : LoopState :=
  set_solver (f (solver st)) st.
Definition upd_current (f : Criteria -> Criteria) (st : LoopState)
    : LoopState :=
  upd_solver (fun s => set_m_current (f (m_current s)) s) st.
Definition upd_stop (f : Criteria -> Criteria) (st : LoopState)
    : LoopState :=
  upd_solver (fun s => set_m_stop (f (m_stop s)) s) st.

(** [POLYSOLVE_SCOPED_STOPWATCH(name, t, logger)] and [StopWatch::stop]:
    the measured time is added to the timer [t]. *)
Definition charge (get : Times -> double)
    (set : double -> Times -> Times) (st : LoopState) : LoopState :=
  let dt := elapsed (clock st) in
  let st :=
    upd_solver
      (fun s => set_times (set (add (get (times s)) dt) (times s)) s) st in
  set_clock (S (clock st)) st.

(** [this->m_status = checkConvergence(this->m_stop, this->m_current)] *)
Definition check_convergence (st : LoopState) : LoopState :=
  upd_solver
    (fun s => set_m_status (checkConvergence (m_stop s) (m_current s)) s)
    st.

Definition do_increase_descent_strategy (st : LoopState) : LoopState :=
  upd_solver
    (fun s => set_strategy (increase_descent_strategy (get_strategy s)) s)
    st.

(** How a part of the loop body ends: it falls through to the next
    statement, or executes [continue], [break] or a throw. *)
Inductive Flow : Type :=
| Next (st : LoopState)
| Continue_ (st : LoopState)
| Break_ (st : LoopState)
| Throw_ (e : Fatal) (st : LoopState).

Definition Flow_bind (m : Flow) (k : LoopState -> Flow) : Flow :=
  match m with
  | Next st => k st
  | other => other
  end.

Definition state_of (m : Flow) : LoopState :=
  match m with
  | Next st | Continue_ st | Break_ st | Throw_ _ st => st
  end.

End Minimize.

Arguments LoopState : clear implicits.
Arguments Flow : clear implicits.

Notation "'run' st <- m ; k" := (Flow_bind m (fun st => k))
  (at level 10, st name, m at level 100, k at level 200,
   format "'[v' 'run'  st  <-  m ; '/' k ']'").

Section Driver.

Context {Vec P L D : Type}.
Context {vector_ops : VectorOps Vec} {problem : Problem P Vec}.
Context {line_search_ops : LineSearchOps L P Vec}.
Context {strategy : Strategy D P Vec} {cppoptlib : CppOptLib}.
Context {stop_watch : StopWatch}.

Local Abbreviation State := (LoopState Vec P L D).
Local Abbreviation Flow := (Flow Vec P L D).

(** *** The loop body, in the source's own sections *)

(** "Energy": lines 164-187. *)
Definition compute_energy (st : State) : Flow :=
  let st :=
    upd_current
      (fun c =>
         set_gradNorm quiet_NaN
           (set_fDelta quiet_NaN (set_xDelta quiet_NaN c))) st in
  let '(e, o) := value (objFunc st) (x st) in
  let st := set_energy e (set_objFunc o st) in
  let st := charge obj_fun_time set_obj_fun_time st in
  if negb (isfinite (energy st)) then
    Throw_ EnergyNotFinite
      (upd_solver
         (fun s => set_m_error_code NAN_ENCOUNTERED
                     (set_m_status UserDefined s)) st)
  else
    let st :=
      upd_current
        (set_fDelta (abs (sub (old_energy st) (energy st)))) st in
    let st := set_old_energy (energy st) st in
    let st := check_convergence st in
    if decide (m_status (solver st) = Continue) then Next st
    else Break_ st.

(** "gradient": lines 189-206. *)
Definition compute_gradient (st : State) : Flow :=
  let '(g, o) := gradient (objFunc st) (x st) (grad st) in
  let st := set_grad g (set_objFunc o st) in
  let st := charge grad_time set_grad_time st in
  let st := set_grad_norm (compute_grad_norm (x st) (grad st)) st in
  if isnan (grad_norm st) then
    Throw_ GradientIsNaN
      (upd_solver
         (fun s => set_m_error_code NAN_ENCOUNTERED
                     (set_m_status UserDefined s)) st)
  else
    let st := upd_current (set_gradNorm (grad_norm st)) st in
    let st := check_convergence st in
    if decide (m_status (solver st) = Continue) then Next st
    else Break_ st.

(** "Compute update direction": lines 208-239. First the call of line
    213, *)
Definition propose_direction (st : State) : State :=
  let '(dx, sd, o) :=
    compute_update_direction (get_strategy (solver st)) (objFunc st)
      (x st) (grad st) (delta_x st) in
  set_delta_x dx (set_objFunc o (upd_solver (set_strategy sd) st)).

(** then the test of line 215, *)
Definition not_a_descent_direction (st : State) : bool :=
  is_direction_descent (get_strategy (solver st))
  && neq (grad_norm st) zero
  && geq (dot (delta_x st) (grad st)) zero.

(** and the whole section. *)
Definition compute_direction (st : State) : Flow :=
  let st := propose_direction st in
  if not_a_descent_direction st then
    let st := do_increase_descent_strategy st in
    Continue_ (upd_solver (set_m_status Continue) st)
  else
    let delta_x_norm := norm (delta_x st) in
    if isnan delta_x_norm then
      let st := do_increase_descent_strategy st in
      let st := upd_solver (set_m_status UserDefined) st in
      Continue_ (upd_solver (set_m_status Continue) st)
    else
      let st :=
        upd_current
          (set_xDelta
             (if (descent_strategy (solver st) =? 2)%Z then quiet_NaN
              else delta_x_norm)) st in
      let st := check_convergence st in
      if decide (m_status (solver st) = Continue) then Next st
      else Break_ st.

(** "Variable update": the call of the line search, line 246. *)
Definition run_line_search (st : State) : Flow :=
  match m_line_search (solver st) with
  | None => Throw_ NullLineSearch st
  | Some ls =>
      let '(r, ls, o) :=
        line_search ls (x st) (delta_x st) (objFunc st) in
      Next
        (set_rate r
           (set_objFunc o (upd_solver (set_m_line_search (Some ls)) st)))
  end.

(** Lines 247-266. The two [assert]s are no-ops (release build); when
    the first one is reached the status is [Continue]
    ([status_at_line_search] below). *)
Definition variable_update (st : State) : Flow :=
  if isnan (rate st) then
    if (descent_strategy (solver st) <? 2)%Z then
      Continue_ (do_increase_descent_strategy st)
    else
      Throw_ LineSearchFailedOnGD
        (upd_solver (set_m_status UserDefined) st)
  else
    Next (set_x (plus_scaled (x st) (rate st) (delta_x st)) st).

(** "Post update": lines 268-298. *)
Definition post_update (st : State) : State :=
  let st :=
    upd_solver
      (fun s => set_strategy
                  (set_default_descent_strategy (get_strategy s)) s) st in
  let '(stopped, o) := stop (objFunc st) (x st) in
  let st := set_objFunc o st in
  let st :=
    if stopped then
      upd_solver
        (fun s => set_m_error_code SUCCESS (set_m_status UserDefined s)) st
    else st in
  let st :=
    set_objFunc
      (post_step (objFunc st) (iterations (m_current (solver st))) (x st))
      st in
  let st :=
    upd_current (fun c => set_iterations (size_incr (iterations c)) c) st in
  let st :=
    if (iterations (m_stop (solver st))
        <=? iterations (m_current (solver st)))%N
    then upd_solver (set_m_status IterationLimit) st
    else st in
  let st := upd_solver (update_solver_info (energy st)) st in
  let st := set_objFunc (save_to_file (objFunc st) (x st)) st in
  upd_stop (set_gradNorm (g_norm_tol st)) st.

(** One execution of the body of the do-while loop. [Next]: the end of
    the body was reached (the step was committed). *)
Definition body (st : State) : Flow :=
  run st <- compute_energy st;
  run st <- compute_gradient st;
  run st <- compute_direction st;
  run st <- run_line_search st;
  run st <- variable_update st;
  Next (post_update st).

(** The loop condition
    [objFunc.callback(m_current, x) && m_status == Continue]. *)
Definition loop_condition (st : State) : bool * State :=
  let '(go_on, o) :=
    callback (objFunc st) (m_current (solver st)) (x st) in
  (go_on && bool_decide (m_status (solver st) = Continue),
   set_objFunc o st).

(** How a call of [minimize] ends. *)
Inductive Outcome : Type :=
| Returned (st : State)
| Threw (e : Fatal) (st : State).

Definition final (o : Outcome) : State :=
  match o with Returned st | Threw _ st => st end.

(** "Log results": lines 302-320. *)
Definition after_loop (st : State) : Outcome :=
  let st := charge total_time set_total_time st in
  if negb (allow_out_of_iterations (solver st))
     && bool_decide (m_status (solver st) = IterationLimit)
  then Threw ReachedIterationLimit st
  else if bool_decide (m_status (solver st) = UserDefined)
          && bool_decide (m_error_code (solver st) <> SUCCESS)
  then Threw FailedToFindMinimizer st
  else
    let '(e, o) := value (objFunc st) (x st) in
    let st := set_objFunc o st in
    Returned (upd_solver (update_solver_info e) st).

(** An exception of the body leaves [minimize]: the stop watch of line
    149, which is still running, is destroyed on the way out and charges
    [total_time]. *)
Definition unwind (e : Fatal) (st : State) : Outcome :=
  Threw e (charge total_time set_total_time st).

(** The do-while loop. A [continue] jumps to the loop condition, as the
    end of the body does; a [break] leaves the loop without evaluating
    it; an exception leaves [minimize]. [None]: the loop is still
    running after [fuel] executions of the body. *)
Fixpoint loop (fuel : nat) (st : State) : option Outcome :=
  match fuel with
  | O => None
  | S fuel =>
      match body st with
      | Throw_ e st => Some (unwind e st)
      | Break_ st => Some (after_loop st)
      | Next st | Continue_ st =>
          let '(go_on, st) := loop_condition st in
          if go_on then loop fuel st else Some (after_loop st)
      end
  end.

(** "Initialize the minimization": lines 127-160. The virtual [reset] is
    [Solver::reset] followed by what the subclass resets of its own. The
    arguments of the debug message are evaluated ([objFunc.value(x)]). *)
Definition initial_state (s : Solver L D) (o : P) (x0 : Vec) : State :=
  {| solver := s; objFunc := o; x := x0;
     grad := Zero (rows x0); delta_x := Zero (rows x0);
     old_energy := quiet_NaN; g_norm_tol := gradNorm (m_stop s);
     energy := quiet_NaN; grad_norm := quiet_NaN; rate := quiet_NaN;
     clock := 0 |}.

Definition initialize (s : Solver L D) (o : P) (x0 : Vec)
    : State + Outcome :=
  match reset (rows x0) s with
  | inr s => inr (Threw JsonTypeError (initial_state s o x0))
  | inl s =>
      let s :=
        set_strategy (derived_reset (rows x0) (get_strategy s)) s in
      match m_line_search s with
      | None => inr (Threw NullLineSearch (initial_state s o x0))
      | Some ls =>
          let s :=
            set_m_line_search
              (Some (LineSearch.set_use_grad_norm_tol
                       (use_grad_norm_tol s) ls)) s in
          let st := initial_state s o x0 in
          let st := set_objFunc (solution_changed (objFunc st) (x st)) st in
          let st :=
            charge constraint_set_update_time
              set_constraint_set_update_time st in
          let st := set_g_norm_tol (gradNorm (m_stop (solver st))) st in
          let st :=
            upd_stop (set_gradNorm (first_grad_norm_tol (solver st))) st in
          let st := set_objFunc (save_to_file (objFunc st) (x st)) st in
          let '(_, o) := value (objFunc st) (x st) in
          let st := set_objFunc o st in
          let '(e, o) := value (objFunc st) (x st) in
          let st := set_objFunc o st in
          inl (upd_solver (update_solver_info e) st)
      end
  end.

Definition minimize (fuel : nat) (s : Solver L D) (o : P) (x0 : Vec)
    : option Outcome :=
  match initialize s o x0 with
  | inl st => loop fuel st
  | inr out => Some out
  end.

(** *** Views of one call

    The body up to three of its program points: where the direction is
    about to be computed (line 213), where the line search is about to be
    called (line 246), and where it has returned (line 247). *)
Definition upto_direction (st : State) : Flow :=
  run st <- compute_energy st;
  compute_gradient st.

Definition upto_line_search (st : State) : Flow :=
  run st <- upto_direction st;
  compute_direction st.

Definition upto_update (st : State) : Flow :=
  run st <- upto_line_search st;
  run_line_search st.

(** One attempt of an iteration: the body and what follows it. The
    boolean tells whether the attempt committed its step; the loop either
    goes on with another attempt or the call ends. *)
Definition after_body (st : State) : State + Outcome :=
  let '(go_on, st) := loop_condition st in
  if go_on then inl st else inr (after_loop st).

Definition attempt (st : State) : bool * (State + Outcome) :=
  match body st with
  | Throw_ e st => (false, inr (unwind e st))
  | Break_ st => (false, inr (after_loop st))
  | Continue_ st => (false, after_body st)
  | Next st => (true, after_body st)
  end.

(** The state in which attempt number [n] starts (counted from 0), with
    the number of steps committed before it; [None] if the call has ended
    earlier. *)
Fixpoint attempts (n : nat) (st : State) : option (nat * State) :=
  match n with
  | O => Some (O, st)
  | S n =>
      match attempts n st with
      | Some (k, st) =>
          match attempt st with
          | (c, inl st) => Some ((if c then S k else k), st)
          | (_, inr _) => None
          end
      | None => None
      end
  end.

(** The values that the commits of the first [fuel] attempts give to [x],
    oldest first. *)
Fixpoint commits (fuel : nat) (st : State) : list Vec :=
  match fuel with
  | O => []
  | S fuel =>
      let '(c, r) := attempt st in
      (if c then [x (state_of (body st))] else [])
      ++ match r with
         | inl st => commits fuel st
         | inr _ => []
         end
  end.

(** [solver_info] holds what [update_solver_info(energy)] writes for the
    solver object as it is now. *)
Definition up_to_date (energy : double) (s : Solver L D) : Prop :=
  let info := solver_info s in
  let crit := m_current s in
  let t := times s in
  info !! "status" = Some (JStatus (m_status s))
  /\ info !! "error_code" = Some (JErrorCode (m_error_code s))
  /\ info !! "energy" = Some (JDouble energy)
  /\ info !! "iterations" = Some (JUnsigned (iterations crit))
  /\ info !! "xDelta" = Some (JDouble (xDelta crit))
  /\ info !! "fDelta" = Some (JDouble (fDelta crit))
  /\ info !! "gradNorm" = Some (JDouble (gradNorm crit))
  /\ info !! "condition" = Some (JDouble (condition crit))
  /\ info !! "total_time" = Some (JDouble (total_time t))
  /\ info !! "time_grad"
     = Some (JDouble (div (grad_time t) (per_iteration crit)))
  /\ info !! "time_assembly"
     = Some (JDouble (div (assembly_time t) (per_iteration crit)))
  /\ info !! "time_inverting"
     = Some (JDouble (div (inverting_time t) (per_iteration crit)))
  /\ info !! "time_line_search"
     = Some (JDouble (div (line_search_time t) (per_iteration crit)))
  /\ info !! "time_constraint_set_update"
     = Some (JDouble (div (constraint_set_update_time t)
                         (per_iteration crit)))
  /\ info !! "time_obj_fun"
     = Some (JDouble (div (obj_fun_time t) (per_iteration crit))).

(** What only a commit changes: [x], the iteration counter, the stop
    criteria, [solver_info], and what [minimize] never assigns. *)
Definition committed_part (st : State) :=
  (x st, iterations (m_current (solver st)), m_stop (solver st),
   g_norm_tol st, solver_info (solver st),
   (first_grad_norm_tol (solver st),
    allow_out_of_iterations (solver st))).

(** What a part of the body that ends before the commit leaves behind,
    started in [st]: nothing of [committed_part] has changed; [continue]
    and the fall-through leave the status [Continue] and the error code
    alone, [break] leaves a final status; the two throws on a non-finite
    number set [UserDefined] and [NAN_ENCOUNTERED], the throw on a failed
    line search sets [UserDefined] only. *)
Definition before_commit (st : State) (r : Flow) : Prop :=
  committed_part (state_of r) = committed_part st
  /\ match r with
     | Next st' | Continue_ st' =>
         m_status (solver st') = Continue
         /\ m_error_code (solver st') = m_error_code (solver st)
     | Break_ st' =>
         m_status (solver st') <> Continue
         /\ m_error_code (solver st') = m_error_code (solver st)
     | Throw_ EnergyNotFinite st' | Throw_ GradientIsNaN st' =>
         m_status (solver st') = UserDefined
         /\ m_error_code (solver st') = NAN_ENCOUNTERED
     | Throw_ LineSearchFailedOnGD st' =>
         m_status (solver st') = UserDefined
         /\ m_error_code (solver st') = m_error_code (solver st)
     | Throw_ NullLineSearch st' =>
         m_error_code (solver st') = m_error_code (solver st)
     | Throw_ _ _ => False
     end.

(** What the statements after the loop body leave alone. *)
Definition result_part (st : State) :=
  (x st, m_status (solver st), m_error_code (solver st),
   m_stop (solver st), m_current (solver st), g_norm_tol st,
   (first_grad_norm_tol (solver st), allow_out_of_iterations (solver st))).

(** The values that the commits of a call give to [x]. *)
Definition minimize_commits (fuel : nat) (s : Solver L D) (o : P)
    (x0 : Vec) : list Vec :=
  match initialize s o x0 with
  | inl st => commits fuel st
  | inr _ => []
  end.

(** *** Names for the states of a run

    Whether a call enters the loop and the state in which it does; whether
    a part of the body falls through to the next statement; the state in
    which attempt [n] starts and the number of commits before it; how a
    call ends and in which state. *)
Definition enters_loop (s : Solver L D) (o : P) (x0 : Vec) : bool :=
  match initialize s o x0 with inl _ => true | inr _ => false end.

Definition start (s : Solver L D) (o : P) (x0 : Vec) : State :=
  match initialize s o x0 with
  | inl st => st
  | inr out => final out
  end.

Definition falls_through (r : Flow) : bool :=
  match r with Next _ => true | _ => false end.

Definition attempt_state (n : nat) (st0 : State) : State :=
  match attempts n st0 with
  | Some (_, st) => st
  | None => st0
  end.

Definition commits_before (n : nat) (st0 : State) : option nat :=
  match attempts n st0 with
  | Some (k, _) => Some k
  | None => None
  end.

Definition exception_of (r : option Outcome) : option (option Fatal) :=
  match r with
  | Some (Returned _) => Some None
  | Some (Threw e _) => Some (Some e)
  | None => None
  end.

Definition end_state (fuel : nat) (s : Solver L D) (o : P) (x0 : Vec)
    : State :=
  match minimize fuel s o x0 with
  | Some out => final out
  | None => start s o x0
  end.

End Driver.

(** ** Solver::create and Solver::available_solvers *)

(** The classes that [create] can instantiate. *)
Inductive SolverKind : Type :=
| BFGS
| DenseNewton
| SparseNewton
| GradientDescent
| LBFGS.

(** The file POLYSOLVE_NON_LINEAR_SPEC as [create] finds it: it cannot be
    opened, it holds no json ([file >> rules] throws), or it holds the
    rules. *)
Inductive RulesFile {Rules : Type} : Type :=
| CannotOpen
| Malformed
| Holds (rules : Rules).
Arguments RulesFile : clear implicits.

(** The json libraries that [create] calls, over documents [Doc]:
    [jse.verify_json] (after [jse.strict = strict_validation]),
    [jse.log2str], [jse.inject_defaults], and the conversion of
    [solver_params["solver"]] to a [std::string] ([None]: json's type
    error). *)
Class JsonSpecEngine (Doc Rules : Type) : Type := {
  verify_json : bool -> Doc -> Rules -> bool;
  log2str : bool -> Doc -> Rules -> string;
  inject_defaults : Doc -> Rules -> Doc;
  get_solver : Doc -> option string
}.

Module Create.

(** The constructor call of [create]: the class it chose and what it
    passes to its constructor; the Newton variants and BFGS also receive
    [linear_solver_params]. *)
Record t {Doc : Type} : Type := {
  kind : SolverKind;
  solver_params : Doc;
  linear_solver_params : option Doc;
  characteristic_length : double
}.
Arguments t : clear implicits.

(** The exceptions of [create]; the last one is whatever the constructor
    of the chosen class threw. *)
Inductive Error : Type :=
| UnableToOpenRules               (* "unable to open {} rules" *)
| RulesParseError
| InvalidInputJson (log : string) (* "invalid input json:\n{}" *)
| SolverIsNoString
| RuntimeError (what : string)
| ConstructorThrew.

End Create.

(** The constructors of the five classes ([BFGS.hpp] and the like are not
    part of the sources): [construct call] is the object that the
    constructor of [Create.kind call] builds from the arguments of
    [call], or [None] if it throws, as [Solver::Solver] does when the
    line search factory throws. *)
Class SolverClasses (Doc Object : Type) : Type := {
  construct : Create.t Doc -> option Object
}.

Section SolverCreate.

Context {Doc Rules Object : Type}.
Context {jse : JsonSpecEngine Doc Rules}.
Context {solver_classes : SolverClasses Doc Object}.

(** [std::make_unique<K>(...)]: the object, or the exception of the
    constructor, which leaves [create] with it. *)
Definition make_unique (call : Create.t Doc) : Create.Error + Object :=
  match construct call with
  | Some solver => inr solver
  | None => inl Create.ConstructorThrew
  end.

(** [Solver::create], lines 24-75. *)
Definition Solver_create (file : RulesFile Rules)
    (solver_params_in linear_solver_params : Doc)
    (characteristic_length : double) (strict_validation : bool)
    : Create.Error + Object :=
  let solver_params := solver_params_in in
  match file with
  | CannotOpen => inl Create.UnableToOpenRules
  | Malformed => inl Create.RulesParseError
  | Holds rules =>
      let valid_input :=
        verify_json strict_validation solver_params rules in
      if negb valid_input then
        inl (Create.InvalidInputJson
               (log2str strict_validation solver_params rules))
      else
        let solver_params := inject_defaults solver_params rules in
        match get_solver solver_params with
        | None => inl Create.SolverIsNoString
        | Some solver =>
            let make k lin :=
              make_unique
                {| Create.kind := k;
                   Create.solver_params := solver_params;
                   Create.linear_solver_params := lin;
                   Create.characteristic_length :=
                     characteristic_length |} in
            if String.eqb solver "BFGS" then
              make BFGS (Some linear_solver_params)
            else if String.eqb solver "DenseNewton"
                    || String.eqb solver "dense_newton" then
              make DenseNewton (Some linear_solver_params)
            else if String.eqb solver "Newton"
                    || String.eqb solver "SparseNewton"
                    || String.eqb solver "sparse_newton" then
              make SparseNewton (Some linear_solver_params)
            else if String.eqb solver "GradientDescent"
                    || String.eqb solver "gradient_descent" then
              make GradientDescent None
            else if String.eqb solver "LBFGS"
                    || String.eqb solver "L-BFGS" then
              make LBFGS None
            else
              inl (Create.RuntimeError
                     ("Unrecognized solver type: " ++ solver))
        end
  end.

(** [Solver::available_solvers], lines 77-84. *)
Definition available_solvers : list string :=
  ["BFGS"; "DenseNewton"; "Newton"; "GradientDescent"; "L-BFGS"].

(** The names that the dispatch of [create] compares with. *)
Definition dispatched_names : list (string * SolverKind) :=
  [("BFGS", BFGS);
   ("DenseNewton", DenseNewton); ("dense_newton", DenseNewton);
   ("Newton", SparseNewton); ("SparseNewton", SparseNewton);
   ("sparse_newton", SparseNewton);
   ("GradientDescent", GradientDescent);
   ("gradient_descent", GradientDescent);
   ("LBFGS", LBFGS); ("L-BFGS", LBFGS)].

(** Whether [create] returned a solver, and which one. *)
Definition creates (r : Create.Error + Object) : bool :=
  match r with inr _ => true | inl _ => false end.

Definition created (r : Create.Error + Object) (otherwise : Object)
    : Object :=
  match r with inr solver => solver | inl _ => otherwise end.

End SolverCreate.

(** ** More views of the solver object and of a call *)

(** The name that [solver_info["line_search"]] holds, if it holds one. *)
Definition line_search_name {L D} (s : Solver L D) : option string :=
  match solver_info s !! "line_search" with
  | Some (JString name) => Some name
  | _ => None
  end.

(** The assignments of [update_solver_info(energy)], in their order: the
    keys with the values they receive. *)
Definition line_search_assignments {L} (per_iteration : double)
    (ls : LineSearch.t L) : list (string * json) :=
  [("line_search_iterations", JInt (LineSearch.iterations ls));
   ("time_checking_for_nan_inf",
    JDouble (div (LineSearch.checking_for_nan_inf_time ls) per_iteration));
   ("time_broad_phase_ccd",
    JDouble (div (LineSearch.broad_phase_ccd_time ls) per_iteration));
   ("time_ccd", JDouble (div (LineSearch.ccd_time ls) per_iteration));
   ("time_classical_line_search",
    JDouble (div (sub (LineSearch.classical_line_search_time ls)
                      (LineSearch.constraint_set_update_time ls))
                 per_iteration));
   ("time_line_search_constraint_set_update",
    JDouble (div (LineSearch.constraint_set_update_time ls) per_iteration))].

Definition assignments {L D} (energy : double) (s : Solver L D)
    : list (string * json) :=
  let crit := m_current s in
  let n := per_iteration crit in
  let t := times s in
  [("status", JStatus (m_status s));
   ("error_code", JErrorCode (m_error_code s));
   ("energy", JDouble energy);
   ("iterations", JUnsigned (iterations crit));
   ("xDelta", JDouble (xDelta crit));
   ("fDelta", JDouble (fDelta crit));
   ("gradNorm", JDouble (gradNorm crit));
   ("condition", JDouble (condition crit));
   ("total_time", JDouble (total_time t));
   ("time_grad", JDouble (div (grad_time t) n));
   ("time_assembly", JDouble (div (assembly_time t) n));
   ("time_inverting", JDouble (div (inverting_time t) n));
   ("time_line_search", JDouble (div (line_search_time t) n));
   ("time_constraint_set_update",
    JDouble (div (constraint_set_update_time t) n));
   ("time_obj_fun", JDouble (div (obj_fun_time t) n))]
  ++ match m_line_search s with
     | Some ls => line_search_assignments n ls
     | None => []
     end.

(** Assigning the keys of a list one after the other. *)
Definition assign (l : list (string * json)) (info : gmap string json)
    : gmap string json :=
  fold_left (fun info kv => <[fst kv := snd kv]> info) l info.


(** What a call needs of the solver object to reach its loop: a string
    under [solver_info["line_search"]] and a line search object. *)
Definition has_line_search {L D} (s : Solver L D) : bool :=
  match m_line_search s with Some _ => true | None => false end.

Definition ready {L D} (s : Solver L D) : bool :=
  match line_search_name s with
  | Some _ => has_line_search s
  | None => false
  end.

Definition line_search_part {Vec P L D} (st : LoopState Vec P L D)
    : option string * bool :=
  (line_search_name (solver st), has_line_search (solver st)).

(** ** Concrete collaborators

    Small implementations of the interfaces, used to run the driver on
    concrete inputs. *)

Module Demo.

(** [m * 2^e] as a double. *)
Definition dyadic (m e : Z) : double := binary_normalize prec emax m e false.

Definition one : double := of_N 1.
Definition two : double := of_N 2.
Definition half : double := dyadic 1 (-1).
Definition infinity : double := S754_infinity false.

(** Dense vectors as lists; sums run from the last entry to the first. *)
Fixpoint vdot (a b : list double) : double :=
  match a, b with
  | ai :: a, bi :: b => add (mul ai bi) (vdot a b)
  | _, _ => zero
  end.

Fixpoint vplus_scaled (a : list double) (r : double) (d : list double)
    : list double :=
  match a, d with
  | ai :: a, di :: d => add ai (mul r di) :: vplus_scaled a r d
  | _, _ => []
  end.

#[global] Instance vector_ops : VectorOps (list double) := {|
  Zero n := repeat zero n;
  rows v := length v;
  norm v := SFsqrt prec emax (vdot v v);
  dot := vdot;
  plus_scaled := vplus_scaled
|}.

(** An objective given by its functions; it counts the evaluations of
    [value]. *)
Record Objective : Type := {
  f : list double -> double;
  df : list double -> list double;
  on_stop : list double -> bool;
  on_callback : Criteria -> bool;
  evaluations : nat
}.

Definition evaluated (o : Objective) : Objective :=
  {| f := f o; df := df o; on_stop := on_stop o;
     on_callback := on_callback o; evaluations := S (evaluations o) |}.

#[global] Instance problem : Problem Objective (list double) := {|
  value o x := (f o x, evaluated o);
  gradient o x g := (df o x, o);
  solution_changed o x := o;
  stop o x := (on_stop o x, o);
  post_step o i x := o;
  save_to_file o x := o;
  callback o c x := (on_callback o c, o)
|}.

(** A line search that returns a fixed step ([impl]) and counts its calls. *)
Definition fixed_step (step : double) : LineSearch.t double :=
  {| LineSearch.use_grad_norm_tol := zero;
     LineSearch.iterations := 0;
     LineSearch.checking_for_nan_inf_time := zero;
     LineSearch.broad_phase_ccd_time := zero;
     LineSearch.ccd_time := zero;
     LineSearch.constraint_set_update_time := zero;
     LineSearch.classical_line_search_time := zero;
     LineSearch.impl := step |}.

Definition count_call (ls : LineSearch.t double) : LineSearch.t double :=
  {| LineSearch.use_grad_norm_tol := LineSearch.use_grad_norm_tol ls;
     LineSearch.iterations := LineSearch.iterations ls + 1;
     LineSearch.checking_for_nan_inf_time :=
       LineSearch.checking_for_nan_inf_time ls;
     LineSearch.broad_phase_ccd_time := LineSearch.broad_phase_ccd_time ls;
     LineSearch.ccd_time := LineSearch.ccd_time ls;
     LineSearch.constraint_set_update_time :=
       LineSearch.constraint_set_update_time ls;
     LineSearch.classical_line_search_time :=
       LineSearch.classical_line_search_time ls;
     LineSearch.impl := LineSearch.impl ls |}.

#[global] Instance line_search_ops
    : LineSearchOps double Objective (list double) := {|
  create p :=
    if String.eqb (Params.line_search_method p) "None"
    then Some (fixed_step one) else None;
  line_search ls x dx o := (LineSearch.impl ls, count_call ls, o);
  line_search_reset_times ls := ls
|}.

(** A two-rung solver: at level 0 it proposes the gradient itself (not a
    descent direction), at the levels above the negated gradient. Its state
    is its default level and the number of directions it computed. *)
Record Ladder : Type := { default_level : Z; directions : nat }.

#[global] Instance strategy : Strategy Ladder Objective (list double) := {|
  derived_reset n s :=
    (fst s, {| default_level := default_level (snd s); directions := 0 |});
  compute_update_direction s o x g dx :=
    (if (fst s =? 0)%Z then g else map (SFopp) g,
     (fst s, {| default_level := default_level (snd s);
                directions := S (directions (snd s)) |}),
     o);
  is_direction_descent s := true;
  increase_descent_strategy s := (Z.min 2 (fst s + 1), snd s);
  set_default_descent_strategy s := (default_level (snd s), snd s)
|}.

(** Modelled from the spec: [check(stop, current)] of section 4.2, for
    cppoptlib's [checkConvergence], which is not part of the sources. *)
Definition check (stop current : Criteria) : Status :=
  if (iterations stop <=? iterations current)%N then IterationLimit
  else if SFleb (fDelta current) (fDelta stop) then FDeltaTolerance
  else if SFleb (xDelta current) (xDelta stop) then XDeltaTolerance
  else if SFleb (gradNorm current) (gradNorm stop) then GradNormTolerance
  else Continue.

Definition zero_criteria : Criteria :=
  {| iterations := 0; xDelta := zero; fDelta := zero; gradNorm := zero;
     condition := zero |}.

#[global] Instance cppoptlib : CppOptLib := {|
  Criteria_defaults := zero_criteria;
  Criteria_reset c := zero_criteria;
  checkConvergence := check
|}.

(** Every stop watch measures one second. *)
#[global] Instance stop_watch : StopWatch := {| elapsed n := one |}.

(** A solver object before its constructor body has run. *)
Definition blank (level : Z) : Solver double Ladder :=
  {| m_stop := zero_criteria; m_current := zero_criteria;
     m_status := Continue; m_error_code := SUCCESS;
     characteristic_length := zero; use_grad_norm_tol := zero;
     first_grad_norm_tol := zero; allow_out_of_iterations := false;
     descent_strategy := level; m_line_search := None;
     solver_info := ∅; times := zero_times;
     derived := {| default_level := level; directions := 0 |} |}.

Definition params (max_iterations : N) : Params.t :=
  {| Params.x_delta := zero;
     Params.f_delta := zero;
     Params.grad_norm := dyadic 1 (-20);
     Params.max_iterations := max_iterations;
     Params.first_grad_norm_tol := dyadic 1 (-10);
     Params.line_search_method := "None";
     Params.line_search_use_grad_norm_tol := zero |}.

(** The solver the constructor builds from [params] with characteristic
    length 2 (or [blank] if the line search factory threw). *)
Definition make_solver (level : Z) (max_iterations : N)
    : Solver double Ladder :=
  default (blank level) (Solver_new (blank level) (params max_iterations) two).

Definition with_step (step : double) (s : Solver double Ladder)
    : Solver double Ladder :=
  set_m_line_search (Some (fixed_step step)) s.

(** f(x) = x * x on vectors of length one. *)
Definition square (x : list double) : double :=
  match x with xi :: _ => mul xi xi | [] => zero end.
Definition dsquare (x : list double) : list double :=
  match x with xi :: _ => [mul two xi] | [] => [] end.

Definition quadratic : Objective :=
  {| f := square; df := dsquare; on_stop x := false;
     on_callback c := true; evaluations := 0 |}.

(** The same objective with a callback that always asks to stop. *)
Definition hasty : Objective :=
  {| f := square; df := dsquare; on_stop x := false;
     on_callback c := false; evaluations := 0 |}.

(** An objective whose gradient is +infinity everywhere, one whose
    gradient is NaN everywhere, and one whose value is NaN. *)
Definition cliff : Objective :=
  {| f x := one; df x := [infinity]; on_stop x := false;
     on_callback c := true; evaluations := 0 |}.

Definition kink : Objective :=
  {| f := square; df x := [quiet_NaN]; on_stop x := false;
     on_callback c := true; evaluations := 0 |}.

Definition undefined : Objective :=
  {| f x := quiet_NaN; df := dsquare; on_stop x := false;
     on_callback c := true; evaluations := 0 |}.

(** The solvers of the runs below: gradient descent (level 2) with the
    step 1 of the constructor, with the step 1/2, and with a line search
    that always fails; a solver that starts at level 0; gradient descent
    with [max_iterations = 1]. *)
Definition gradient_descent : Solver double Ladder := make_solver 2 10.
Definition halving : Solver double Ladder :=
  with_step half (make_solver 2 10).
Definition failing : Solver double Ladder :=
  with_step quiet_NaN (make_solver 2 10).
Definition uphill : Solver double Ladder :=
  with_step half (make_solver 0 10).
Definition one_shot : Solver double Ladder :=
  with_step half (make_solver 2 1).

(** Names for the states of the runs below: the state in which the call
    enters the loop ([_st0]), states inside its first attempt, and the
    state in which the call ends ([_end]). *)
Abbreviation failing_st0 := (start failing quadratic [one]).
Abbreviation failing_st4 := (state_of (upto_update failing_st0)).
Abbreviation kink_st0 := (start gradient_descent kink [one]).
Abbreviation kink_st1 := (state_of (compute_energy kink_st0)).
Abbreviation cliff_st1 :=
  (state_of (compute_energy (start halving cliff [one]))).
Abbreviation cliff_end := (end_state 2 halving cliff [one]).
Abbreviation uphill_st0 := (start uphill quadratic [one]).
Abbreviation uphill_st2 := (state_of (upto_direction uphill_st0)).
Abbreviation hasty_st0 := (start uphill hasty [one]).
Abbreviation hasty_st2 := (state_of (upto_direction hasty_st0)).
Abbreviation hasty_end := (end_state 5 uphill hasty [one]).
Abbreviation stop_st0 := (start halving hasty [one]).
Abbreviation stop_stb := (state_of (body stop_st0)).
Abbreviation limit_stb :=
  (state_of (body (start one_shot hasty [one]))).
Abbreviation limit_end := (end_state 1 one_shot hasty [one]).
Abbreviation descent_st0 := (start gradient_descent quadratic [one]).
Abbreviation undefined_end :=
  (end_state 1 gradient_descent undefined [one]).


(** A json library for [create]: documents and rules are flat objects; a
    document is valid when its "solver", if present, is a string; the
    rules hold the defaults. *)
#[global] Instance json_spec_engine
    : JsonSpecEngine (gmap string json) (gmap string json) := {|
  verify_json strict doc rules :=
    match doc !! "solver" with
    | Some (JString _) | None => true
    | Some _ => false
    end;
  log2str strict doc rules := "solver: string expected";
  inject_defaults doc rules := doc ∪ rules;
  get_solver doc :=
    match doc !! "solver" with
    | Some (JString name) => Some name
    | _ => None
    end
|}.

Definition default_rules : gmap string json :=
  {["solver" := JString "Newton"]}.

(** The constructors for [create]: every class is built by the
    constructor of this file, from [params 10] with the line search
    method that the document names under "line_search" ("None" if it
    names none); gradient descent starts at level 2, the quasi-Newton
    classes at level 1 and the Newton classes at level 0. The line search
    factory above knows the method "None" only: the constructor throws
    for any other. *)
Definition level_of (k : SolverKind) : Z :=
  match k with
  | GradientDescent => 2
  | BFGS | LBFGS => 1
  | DenseNewton | SparseNewton => 0
  end.

Definition configured (doc : gmap string json) : Params.t :=
  {| Params.x_delta := Params.x_delta (params 10);
     Params.f_delta := Params.f_delta (params 10);
     Params.grad_norm := Params.grad_norm (params 10);
     Params.max_iterations := Params.max_iterations (params 10);
     Params.first_grad_norm_tol := Params.first_grad_norm_tol (params 10);
     Params.line_search_method :=
       match doc !! "line_search" with
       | Some (JString method) => method
       | _ => "None"
       end;
     Params.line_search_use_grad_norm_tol :=
       Params.line_search_use_grad_norm_tol (params 10) |}.

#[global] Instance solver_classes
    : SolverClasses (gmap string json) (Solver double Ladder) := {|
  construct call :=
    Solver_new (blank (level_of (Create.kind call)))
      (configured (Create.solver_params call))
      (Create.characteristic_length call)
|}.

(** An objective that asks to stop at once, and gradient descent that is
    allowed to run out of iterations. *)
Definition content : Objective :=
  {| f := square; df := dsquare; on_stop x := true;
     on_callback c := true; evaluations := 0 |}.

Definition allow (s : Solver double Ladder) : Solver double Ladder :=
  {| m_stop := m_stop s; m_current := m_current s; m_status := m_status s;
     m_error_code := m_error_code s;
     characteristic_length := characteristic_length s;
     use_grad_norm_tol := use_grad_norm_tol s;
     first_grad_norm_tol := first_grad_norm_tol s;
     allow_out_of_iterations := true;
     descent_strategy := descent_strategy s;
     m_line_search := m_line_search s; solver_info := solver_info s;
     times := times s; derived := derived s |}.

(** An objective whose value is +infinity. *)
Definition unbounded : Objective :=
  {| f x := infinity; df := dsquare; on_stop x := false;
     on_callback c := true; evaluations := 0 |}.

(** A solver that starts at level 1 with a line search that always
    fails. *)
Definition low_failing : Solver double Ladder :=
  with_step quiet_NaN (make_solver 1 10).

(** A solver whose first rung proposes a direction that is not a number;
    above it proposes the negated gradient. *)
Record Stuck : Type := { tries : nat }.

#[global] Instance stuck_strategy
    : Strategy Stuck Objective (list double) := {|
  derived_reset n s := (fst s, {| tries := 0 |});
  compute_update_direction s o x g dx :=
    (if (fst s =? 0)%Z then map (fun _ => quiet_NaN) g else map (SFopp) g,
     (fst s, {| tries := S (tries (snd s)) |}),
     o);
  is_direction_descent s := true;
  increase_descent_strategy s := (Z.min 2 (fst s + 1), snd s);
  set_default_descent_strategy s := (0%Z, snd s)
|}.

Definition stuck_blank : Solver double Stuck :=
  {| m_stop := zero_criteria; m_current := zero_criteria;
     m_status := Continue; m_error_code := SUCCESS;
     characteristic_length := zero; use_grad_norm_tol := zero;
     first_grad_norm_tol := zero; allow_out_of_iterations := false;
     descent_strategy := 0; m_line_search := None;
     solver_info := ∅; times := zero_times;
     derived := {| tries := 0 |} |}.

Definition stuck : Solver double Stuck :=
  default stuck_blank (Solver_new stuck_blank (params 10) two).

Abbreviation halving_st0 := (start halving quadratic [one]).
Abbreviation halving_st4 := (state_of (upto_update halving_st0)).
Abbreviation content_st0 := (start halving content [one]).
Abbreviation content_st4 := (state_of (upto_update content_st0)).
Abbreviation unbounded_st0 := (start gradient_descent unbounded [one]).
Abbreviation low_st0 := (start low_failing quadratic [one]).
Abbreviation low_st4 := (state_of (upto_update low_st0)).
Abbreviation halving_st1 := (attempt_state 1 halving_st0).
Abbreviation halving_stb := (state_of (body halving_st1)).
Abbreviation halving_end := (end_state 2 halving quadratic [one]).
Abbreviation one_shot_st0 := (start one_shot quadratic [one]).
Abbreviation one_shot_stb := (state_of (body one_shot_st0)).
Abbreviation idle_end := (end_state 1 gradient_descent quadratic [zero]).
Abbreviation reused_st0 := (start (solver idle_end) quadratic [one]).
Abbreviation reused_st1 := (attempt_state 1 reused_st0).
Abbreviation stuck_st0 := (start stuck quadratic [one]).
Abbreviation stuck_st2 := (state_of (upto_direction stuck_st0)).

End Demo.

(** * Properties of doubles *)

Lemma sub_diag (d : double) : isfinite d = true -> sub d d = zero.
Proof.
  destruct d as [s|s| |s m e]; try discriminate; intros _.
  - destruct s; reflexivity.
  - unfold sub, SFsub. rewrite Z.sub_diag. reflexivity.
Qed.

Lemma isnan_not_finite (d : double) : isnan d = true -> isfinite d = false.
Proof. destruct d; try discriminate. reflexivity. Qed.

(** * Properties of the solver object *)

Section SolverObjectProperties.

Context {Vec P L D : Type}.
Context {line_search_ops : LineSearchOps L P Vec}.
Context {cppoptlib : CppOptLib}.

Implicit Types (s : Solver L D).

(** C5. The constructor leaves in the stop criteria xDelta, fDelta and
    gradNorm, and in [use_grad_norm_tol] and [first_grad_norm_tol], the
    configured value multiplied once by [characteristic_length]; the
    iteration limit is the configured [max_iterations], unscaled. *)
Theorem thresholds_scaled_once (blank : Solver L D) (p : Params.t)
    (cl : double) s :
  Solver_new blank p cl = Some s ->
  xDelta (m_stop s) = mul (Params.x_delta p) cl
  /\ fDelta (m_stop s) = mul (Params.f_delta p) cl
  /\ gradNorm (m_stop s) = mul (Params.grad_norm p) cl
  /\ use_grad_norm_tol s = mul (Params.line_search_use_grad_norm_tol p) cl
  /\ first_grad_norm_tol s = mul (Params.first_grad_norm_tol p) cl
  /\ iterations (m_stop s) = Params.max_iterations p
  /\ characteristic_length s = cl.
Proof.
  unfold Solver_new. destruct (create p) as [ls|]; [|discriminate].
  intros [= <-]. repeat split.
Qed.

(** The two tolerances between which [minimize] switches. *)
Lemma Solver_new_grad_norm (blank : Solver L D) (p : Params.t)
    (cl : double) s :
  Solver_new blank p cl = Some s ->
  gradNorm (m_stop s) = mul (Params.grad_norm p) cl
  /\ first_grad_norm_tol s = mul (Params.first_grad_norm_tol p) cl.
Proof.
  unfold Solver_new. destruct (create p) as [ls|]; [|discriminate].
  intros [= <-]. split; reflexivity.
Qed.

Lemma per_iteration_max (crit : Criteria) :
  per_iteration crit = of_N (N.max (iterations crit) 1).
Proof.
  unfold per_iteration. destruct (N.eqb_spec (iterations crit) 0) as [->|H].
  - reflexivity.
  - f_equal. lia.
Qed.

Ltac lookup_key :=
  repeat (rewrite lookup_insert_ne by discriminate);
  apply lookup_insert_eq.

(** C8. Every averaged timing that [update_solver_info] writes is the
    timer divided by [max(iterations, 1)] (as a double), and
    [time_classical_line_search] is the classical line search time minus
    the line search's constraint set update time, divided by the same
    number. *)
Theorem averaged_timings (energy : double) s (ls : LineSearch.t L) :
  m_line_search s = Some ls ->
  let info := solver_info (update_solver_info energy s) in
  let n := of_N (N.max (iterations (m_current s)) 1) in
  let t := times s in
  info !! "time_grad" = Some (JDouble (div (grad_time t) n))
  /\ info !! "time_assembly" = Some (JDouble (div (assembly_time t) n))
  /\ info !! "time_inverting" = Some (JDouble (div (inverting_time t) n))
  /\ info !! "time_line_search"
     = Some (JDouble (div (line_search_time t) n))
  /\ info !! "time_constraint_set_update"
     = Some (JDouble (div (constraint_set_update_time t) n))
  /\ info !! "time_obj_fun" = Some (JDouble (div (obj_fun_time t) n))
  /\ info !! "time_checking_for_nan_inf"
     = Some (JDouble (div (LineSearch.checking_for_nan_inf_time ls) n))
  /\ info !! "time_broad_phase_ccd"
     = Some (JDouble (div (LineSearch.broad_phase_ccd_time ls) n))
  /\ info !! "time_ccd" = Some (JDouble (div (LineSearch.ccd_time ls) n))
  /\ info !! "time_line_search_constraint_set_update"
     = Some (JDouble (div (LineSearch.constraint_set_update_time ls) n))
  /\ info !! "time_classical_line_search"
     = Some (JDouble
               (div (sub (LineSearch.classical_line_search_time ls)
                         (LineSearch.constraint_set_update_time ls)) n)).
Proof.
  intros Hls. cbv zeta. rewrite <- per_iteration_max.
  unfold update_solver_info, updated_info, line_search_info.
  cbn [solver_info set_solver_info]. rewrite Hls.
  repeat split; lookup_key.
Qed.

Lemma update_solver_info_up_to_date energy s :
  up_to_date energy (update_solver_info energy s).
Proof.
  unfold up_to_date, update_solver_info, updated_info, line_search_info.
  cbn [solver_info set_solver_info m_current m_status m_error_code times].
  destruct (m_line_search s); repeat split; lookup_key.
Qed.


End SolverObjectProperties.

(** * Properties of the driver *)

Section DriverProperties.

Context {Vec P L D : Type}.
Context {vector_ops : VectorOps Vec} {problem : Problem P Vec}.
Context {line_search_ops : LineSearchOps L P Vec}.
Context {strategy : Strategy D P Vec} {cppoptlib : CppOptLib}.
Context {stop_watch : StopWatch}.

Local Abbreviation State := (LoopState Vec P L D).
Local Abbreviation Flow := (Flow Vec P L D).

Implicit Types (st : State) (s : Solver L D).

(** Case analysis on the tests of a part of the body. *)
Ltac split_tests :=
  repeat match goal with
    | |- context [let '(_, _) := ?e in _] => destruct e eqn:?
    | |- context [if ?b then _ else _] => destruct b eqn:?
    | |- context [match ?e with Some _ => _ | None => _ end] =>
        destruct e eqn:?
    end.

Lemma compute_energy_frame st :
  committed_part (state_of (compute_energy st)) = committed_part st.
Proof. unfold compute_energy. split_tests; reflexivity. Qed.

Lemma compute_gradient_frame st :
  committed_part (state_of (compute_gradient st)) = committed_part st.
Proof. unfold compute_gradient. split_tests; reflexivity. Qed.

Lemma propose_direction_frame st :
  committed_part (propose_direction st) = committed_part st.
Proof. unfold propose_direction. split_tests; reflexivity. Qed.

Lemma compute_direction_frame st :
  committed_part (state_of (compute_direction st)) = committed_part st.
Proof.
  rewrite <- (propose_direction_frame st). unfold compute_direction.
  split_tests; reflexivity.
Qed.

Lemma run_line_search_frame st :
  committed_part (state_of (run_line_search st)) = committed_part st.
Proof. unfold run_line_search. split_tests; reflexivity. Qed.

(** ** The parts of the body *)

Lemma body_upto_update st :
  body st
  = (run st <- upto_update st;
     run st <- variable_update st;
     Next (post_update st)).
Proof.
  unfold body, upto_update, upto_line_search, upto_direction.
  destruct (compute_energy st); simpl; try reflexivity.
  destruct (compute_gradient _); simpl; try reflexivity.
  destruct (compute_direction _); simpl; try reflexivity.
Qed.

Lemma compute_energy_spec st : before_commit st (compute_energy st).
Proof.
  split; [apply compute_energy_frame|].
  unfold compute_energy. split_tests; cbn in *; auto.
Qed.

Lemma compute_gradient_spec st :
  before_commit st (compute_gradient st).
Proof.
  split; [apply compute_gradient_frame|].
  unfold compute_gradient. split_tests; cbn in *; auto.
Qed.

Lemma compute_direction_spec st :
  before_commit st (compute_direction st).
Proof.
  split; [apply compute_direction_frame|].
  unfold compute_direction, propose_direction.
  split_tests; cbn in *; auto.
Qed.

Lemma run_line_search_spec st :
  m_status (solver st) = Continue ->
  before_commit st (run_line_search st).
Proof.
  intros Hst. split; [apply run_line_search_frame|].
  unfold run_line_search. split_tests; cbn in *; auto.
Qed.

Lemma before_commit_bind st m k :
  before_commit st m ->
  (forall st', m_status (solver st') = Continue ->
               before_commit st' (k st')) ->
  before_commit st (run st' <- m; k st').
Proof.
  intros [Hf Hm] Hk. destruct m as [st1| | |]; simpl; try (split; assumption).
  destruct Hm as [Hs He]. destruct (Hk st1 Hs) as [Hf' Hk']. simpl in Hf.
  split; [congruence|].
  destruct (k st1) as [| | |[]]; try rewrite <- He; assumption.
Qed.

Lemma upto_update_spec st : before_commit st (upto_update st).
Proof.
  unfold upto_update, upto_line_search, upto_direction.
  repeat apply before_commit_bind; intros;
    auto using compute_energy_spec, compute_gradient_spec,
      compute_direction_spec, run_line_search_spec.
Qed.

(** The assertion of line 249 holds whenever it is reached. *)
Lemma status_at_line_search st st' :
  upto_update st = Next st' -> m_status (solver st') = Continue.
Proof.
  intros H. pose proof (upto_update_spec st) as [_ Hs].
  rewrite H in Hs. apply Hs.
Qed.

Lemma variable_update_spec st :
  m_status (solver st) = Continue ->
  match variable_update st with
  | Next st' =>
      isnan (rate st) = false
      /\ st' = set_x (plus_scaled (x st) (rate st) (delta_x st)) st
  | r => before_commit st r
  end.
Proof.
  intros Hs. unfold variable_update, before_commit.
  split_tests; cbn; auto.
Qed.

(** The body either commits, from the state in which the line search
    returned a number, or ends before the commit. *)
Lemma body_cases st :
  match body st with
  | Next st' =>
      exists st4,
        upto_update st = Next st4
        /\ isnan (rate st4) = false
        /\ st' = post_update
                   (set_x (plus_scaled (x st4) (rate st4) (delta_x st4)) st4)
  | r => before_commit st r
  end.
Proof.
  rewrite body_upto_update.
  pose proof (upto_update_spec st) as Hu.
  destruct (upto_update st) as [st4| | |] eqn:E; simpl; try exact Hu.
  pose proof (variable_update_spec st4 (status_at_line_search _ _ E)) as Hv.
  destruct Hu as [Hf [Hs He]]. simpl in Hf.
  destruct (variable_update st4) as [st5| | |e ?]; simpl.
  - destruct Hv as [Hn ->]. eauto.
  - destruct Hv as [Hf' [? ?]]. repeat split; congruence.
  - destruct Hv as [Hf' [? ?]]. repeat split; congruence.
  - destruct Hv as [Hf' Hv]. split; [simpl in *; congruence|].
    destruct e; intuition congruence.
Qed.

(** ** update_solver_info *)

#[local] Opaque updated_info.

Lemma update_solver_info_result energy st :
  result_part (upd_solver (update_solver_info energy) st) = result_part st.
Proof. reflexivity. Qed.

(** ** The commit *)

Lemma post_update_x st : x (post_update st) = x st.
Proof. unfold post_update. split_tests; reflexivity. Qed.

Lemma post_update_iterations st :
  iterations (m_current (solver (post_update st)))
  = size_incr (iterations (m_current (solver st))).
Proof. unfold post_update. split_tests; reflexivity. Qed.

Lemma post_update_stop st :
  m_stop (solver (post_update st))
  = set_gradNorm (g_norm_tol st) (m_stop (solver st)).
Proof. unfold post_update. split_tests; reflexivity. Qed.

Lemma post_update_constants st :
  (g_norm_tol (post_update st), first_grad_norm_tol (solver (post_update st)),
   allow_out_of_iterations (solver (post_update st)))
  = (g_norm_tol st, first_grad_norm_tol (solver st),
     allow_out_of_iterations (solver st)).
Proof. unfold post_update. split_tests; reflexivity. Qed.

Lemma post_update_error_code st :
  m_error_code (solver st) = SUCCESS ->
  m_error_code (solver (post_update st)) = SUCCESS.
Proof. unfold post_update. split_tests; cbn; auto. Qed.



(** ** The loop condition and the statements after the loop *)

Lemma loop_condition_result st :
  result_part (snd (loop_condition st)) = result_part st
  /\ solver (snd (loop_condition st)) = solver st.
Proof. unfold loop_condition. split_tests; split; reflexivity. Qed.

Lemma loop_condition_true st :
  fst (loop_condition st) = true -> m_status (solver st) = Continue.
Proof.
  unfold loop_condition. split_tests; simpl; intros H.
  apply andb_true_iff in H as [_ H]. by apply bool_decide_eq_true in H.
Qed.

Lemma after_loop_result st :
  result_part (final (after_loop st)) = result_part st.
Proof. unfold after_loop. split_tests; reflexivity. Qed.

Lemma after_loop_cases st :
  match after_loop st with
  | Returned st' =>
      ~ (allow_out_of_iterations (solver st) = false
         /\ m_status (solver st) = IterationLimit)
      /\ ~ (m_status (solver st) = UserDefined
            /\ m_error_code (solver st) <> SUCCESS)
      /\ exists energy, up_to_date energy (solver st')
  | Threw e st' =>
      solver_info (solver st') = solver_info (solver st)
      /\ (e = ReachedIterationLimit
          /\ allow_out_of_iterations (solver st) = false
          /\ m_status (solver st) = IterationLimit
          \/ e = FailedToFindMinimizer
             /\ m_status (solver st) = UserDefined
             /\ m_error_code (solver st) <> SUCCESS)
  end.
Proof.
  unfold after_loop.
  destruct (negb _ && bool_decide _) eqn:E1; cbn [solver charge upd_solver set_clock set_solver] in *.
  - apply andb_true_iff in E1 as [Ha Hs].
    apply negb_true_iff in Ha. apply bool_decide_eq_true in Hs.
    split; [reflexivity|]. left. auto.
  - destruct (bool_decide _ && bool_decide _) eqn:E2.
    + apply andb_true_iff in E2 as [Hs He].
      apply bool_decide_eq_true in Hs, He.
      split; [reflexivity|]. right. auto.
    + destruct (value _ _) as [e o]. repeat split.
      * intros [Ha Hs]. apply andb_false_iff in E1 as [E1|E1].
        -- apply negb_false_iff in E1. cbn in E1. congruence.
        -- apply bool_decide_eq_false in E1. cbn in E1. contradiction.
      * intros [Hs He]. apply andb_false_iff in E2 as [E2|E2];
          apply bool_decide_eq_false in E2; cbn in E2; contradiction.
      * eexists. apply update_solver_info_up_to_date.
Qed.

(** ** Attempts and the loop *)

Lemma after_body_result st :
  result_part
    (match after_body st with inl st' => st' | inr out => final out end)
  = result_part st.
Proof.
  unfold after_body.
  pose proof (loop_condition_result st) as [Hr _].
  destruct (loop_condition st) as [[] st']; simpl in *.
  - exact Hr.
  - rewrite after_loop_result. exact Hr.
Qed.

Lemma attempt_result st :
  result_part
    (match snd (attempt st) with inl st' => st' | inr out => final out end)
  = result_part (state_of (body st)).
Proof.
  unfold attempt.
  destruct (body st); simpl;
    auto using after_body_result, after_loop_result.
Qed.

(** An attempt after which the loop goes on ended with the end of the
    body or with [continue], the callback returned true and the status is
    [Continue]. *)
Lemma attempt_goes_on st c st' :
  attempt st = (c, inl st') ->
  exists stb,
    (c = true /\ body st = Next stb \/ c = false /\ body st = Continue_ stb)
    /\ fst (callback (objFunc stb) (m_current (solver stb)) (x stb)) = true
    /\ m_status (solver stb) = Continue
    /\ solver st' = solver stb
    /\ result_part st' = result_part stb.
Proof.
  unfold attempt, after_body. intros H.
  destruct (body st) as [stb|stb|stb|e stb]; try discriminate;
    exists stb;
    pose proof (loop_condition_result stb) as [Hr Hs];
    pose proof (loop_condition_true stb) as Ht;
    unfold loop_condition in *;
    destruct (callback _ _ _) as [go_on o]; simpl in *;
    destruct (go_on && _) eqn:E; inversion H; subst;
    apply andb_true_iff in E as [-> _]; auto 10.
Qed.

Lemma loop_S n st :
  loop (S n) st
  = match snd (attempt st) with
    | inl st' => loop n st'
    | inr out => Some out
    end.
Proof.
  unfold attempt, after_body. simpl.
  destruct (body st); try reflexivity;
    destruct (loop_condition _) as [[] ?]; reflexivity.
Qed.

Lemma attempts_S n st0 k st :
  attempts (S n) st0 = Some (k, st) ->
  exists k1 st1 c,
    attempts n st0 = Some (k1, st1)
    /\ attempt st1 = (c, inl st)
    /\ k = (if c then S k1 else k1).
Proof.
  simpl. destruct (attempts n st0) as [[k1 st1]|]; [|discriminate].
  destruct (attempt st1) as [c [st2|out]] eqn:E; [|discriminate].
  intros [= <- <-]. exists k1, st1, c. auto.
Qed.

(** The loop started in [st0] is, after [n] attempts, the loop started in
    the state of attempt [n]. *)
Lemma loop_attempts n : forall st0 k st m,
  attempts n st0 = Some (k, st) -> loop (n + m) st0 = loop m st.
Proof.
  induction n as [|n IH]; intros st0 k st m H.
  - simpl in H. injection H as <- <-. reflexivity.
  - apply attempts_S in H as (k1 & st1 & c & H1 & H2 & _).
    replace (S n + m)%nat with (n + S m)%nat by lia.
    rewrite (IH _ _ _ _ H1), loop_S, H2. reflexivity.
Qed.

Lemma loop_ends n st0 k st c out m :
  attempts n st0 = Some (k, st) ->
  attempt st = (c, inr out) ->
  loop (n + S m) st0 = Some out.
Proof.
  intros H1 H2. rewrite (loop_attempts _ _ _ _ _ H1), loop_S, H2.
  reflexivity.
Qed.

Lemma attempts_front n : forall st0 c st1 k st,
  attempt st0 = (c, inl st1) ->
  attempts n st1 = Some (k, st) ->
  attempts (S n) st0 = Some ((if c then S k else k), st).
Proof.
  induction n as [|n IH]; intros st0 c st1 k st H0 H.
  - simpl in H. injection H as <- <-. simpl. rewrite H0. reflexivity.
  - apply attempts_S in H as (k1 & st' & c' & H1 & H2 & ->).
    specialize (IH _ _ _ _ _ H0 H1).
    change (attempts (S (S n)) st0)
      with (match attempts (S n) st0 with
            | Some (k, st) =>
                match attempt st with
                | (c, inl st) => Some ((if c then S k else k), st)
                | (_, inr _) => None
                end
            | None => None
            end).
    rewrite IH, H2. destruct c, c'; reflexivity.
Qed.

(** A loop that ends has made finitely many attempts, the last of which
    ended the call. *)
Lemma loop_inv fuel : forall st0 out,
  loop fuel st0 = Some out ->
  exists n k st c,
    (n < fuel)%nat
    /\ attempts n st0 = Some (k, st)
    /\ attempt st = (c, inr out).
Proof.
  induction fuel as [|fuel IH]; intros st0 out H; [discriminate|].
  rewrite loop_S in H. destruct (attempt st0) as [c [st1|out1]] eqn:E.
  - simpl in H. apply IH in H as (n & k & st & c' & Hn & Ha & He).
    exists (S n), (if c then S k else k), st, c'.
    split; [lia|]. split; [|exact He].
    exact (attempts_front _ _ _ _ _ _ E Ha).
  - simpl in H. injection H as ->.
    exists O, O, st0, c. split; [lia|]. split; [reflexivity|exact E].
Qed.

(** Induction over the attempts of a call. *)
Lemma attempts_invariant (I : nat -> State -> Prop) st0 :
  I O st0 ->
  (forall k st c st',
     I k st -> attempt st = (c, inl st') -> I (if c then S k else k) st') ->
  forall n k st, attempts n st0 = Some (k, st) -> I k st.
Proof.
  intros H0 Hstep. induction n as [|n IH]; intros k st H.
  - simpl in H. injection H as <- <-. exact H0.
  - apply attempts_S in H as (k1 & st1 & c & H1 & H2 & ->).
    exact (Hstep _ _ _ _ (IH _ _ H1) H2).
Qed.

(** ** The initialisation *)

Lemma reset_spec ndof s s' :
  reset ndof s = inl s' ->
  m_error_code s' = SUCCESS
  /\ m_stop s' = m_stop s
  /\ first_grad_norm_tol s' = first_grad_norm_tol s
  /\ allow_out_of_iterations s' = allow_out_of_iterations s.
Proof.
  unfold reset, reset_times.
  destruct (solver_info _ !! "line_search") as [[]|]; try discriminate.
  intros [= <-]. split_tests; auto.
Qed.

Lemma initialize_spec s o x0 st0 :
  initialize s o x0 = inl st0 ->
  x st0 = x0
  /\ m_error_code (solver st0) = SUCCESS
  /\ g_norm_tol st0 = gradNorm (m_stop s)
  /\ first_grad_norm_tol (solver st0) = first_grad_norm_tol s
  /\ allow_out_of_iterations (solver st0) = allow_out_of_iterations s
  /\ m_stop (solver st0) = set_gradNorm (first_grad_norm_tol s) (m_stop s)
  /\ exists energy, up_to_date energy (solver st0).
Proof.
  unfold initialize.
  destruct (reset (rows x0) s) as [s1|s1] eqn:R; [|discriminate].
  apply reset_spec in R as (He & Hs & Hf & Ha).
  destruct (m_line_search _) as [ls|]; [|discriminate].
  destruct (value _ _) as [e1 o1]. destruct (value _ _) as [e2 o2].
  intros [= <-]. cbn. rewrite He, Hs, Hf, Ha. repeat split.
  exists e2.
  match goal with
  | |- up_to_date _ (update_solver_info _ ?s') =>
      apply (update_solver_info_up_to_date e2 s')
  end.
Qed.

(** ** Invariants of the attempts of a call *)

(** An attempt that the loop follows with another one, seen from its
    start: either it ended in [continue] and changed nothing of
    [committed_part], or it committed from the state in which the line
    search returned a number. *)
Lemma attempt_step st c st' :
  attempt st = (c, inl st') ->
  exists stb o,
    st' = set_objFunc o stb
    /\ m_status (solver stb) = Continue
    /\ (c = false /\ body st = Continue_ stb
        /\ committed_part stb = committed_part st
        /\ m_error_code (solver stb) = m_error_code (solver st)
        \/ c = true /\ body st = Next stb
           /\ exists st4,
               upto_update st = Next st4
               /\ isnan (rate st4) = false
               /\ committed_part st4 = committed_part st
               /\ m_error_code (solver st4) = m_error_code (solver st)
               /\ stb = post_update
                          (set_x (plus_scaled (x st4) (rate st4) (delta_x st4))
                             st4)).
Proof.
  intros H. unfold attempt, after_body, loop_condition in H.
  pose proof (body_cases st) as Hb.
  destruct (body st) as [stb|stb|stb|e stb] eqn:E; try discriminate;
    destruct (callback _ _ _) as [go_on o]; simpl in H;
    destruct (go_on && _) eqn:G; inversion H; subst;
    apply andb_true_iff in G as [_ G]; apply bool_decide_eq_true in G;
    exists stb, o; (split; [reflexivity|]); (split; [exact G|]).
  - right. split; [reflexivity|]. split; [reflexivity|].
    destruct Hb as (st4 & Hu & Hn & ->). exists st4.
    pose proof (upto_update_spec st) as Hs. rewrite Hu in Hs.
    destruct Hs as (Hf & _ & He). auto.
  - left. destruct Hb as (Hf & _ & He). auto.
Qed.

(** Whenever an attempt starts, the error code is [SUCCESS]. *)
Lemma error_code_at_attempt s o x0 st0 n k st :
  initialize s o x0 = inl st0 ->
  attempts n st0 = Some (k, st) ->
  m_error_code (solver st) = SUCCESS.
Proof.
  intros Hi. revert n k st.
  apply (attempts_invariant (fun _ st => m_error_code (solver st) = SUCCESS)).
  - apply (initialize_spec _ _ _ _ Hi).
  - intros k st c st' Hst Ha.
    apply attempt_step in Ha as (stb & o' & -> & _ & [H|H]).
    + destruct H as (_ & _ & _ & He). simpl. congruence.
    + destruct H as (_ & _ & st4 & _ & _ & _ & He & ->). simpl.
      apply post_update_error_code. simpl. congruence.
Qed.

(** Whenever an attempt starts, [g_norm_tol] holds the gradNorm threshold
    with which the call was entered, and the stop criteria are those of
    the entry except for gradNorm, which is [first_grad_norm_tol] until
    the first commit and [g_norm_tol] after it. *)
Lemma stop_criteria_at_attempt s o x0 st0 n k st :
  initialize s o x0 = inl st0 ->
  attempts n st0 = Some (k, st) ->
  g_norm_tol st = gradNorm (m_stop s)
  /\ first_grad_norm_tol (solver st) = first_grad_norm_tol s
  /\ allow_out_of_iterations (solver st) = allow_out_of_iterations s
  /\ m_stop (solver st)
     = set_gradNorm
         (match k with
          | O => first_grad_norm_tol s
          | S _ => gradNorm (m_stop s)
          end) (m_stop s).
Proof.
  intros Hi. revert n k st.
  apply (attempts_invariant
           (fun k st =>
              g_norm_tol st = gradNorm (m_stop s)
              /\ first_grad_norm_tol (solver st) = first_grad_norm_tol s
              /\ allow_out_of_iterations (solver st)
                 = allow_out_of_iterations s
              /\ m_stop (solver st)
                 = set_gradNorm
                     (match k with
                      | O => first_grad_norm_tol s
                      | S _ => gradNorm (m_stop s)
                      end) (m_stop s))).
  - destruct (initialize_spec _ _ _ _ Hi) as (_ & _ & Hg & Hf & Ha & Hs & _).
    auto.
  - intros k st c st' (Hg & Hf & Ha & Hs) Hat.
    apply attempt_step in Hat as (stb & o' & -> & _ & [H|H]).
    + destruct H as (-> & _ & Hc & _). simpl.
      injection Hc as _ _ Hs' Hg' _ Hf' Ha'. repeat split; congruence.
    + destruct H as (-> & _ & st4 & _ & _ & Hc & _ & ->). simpl.
      injection Hc as _ _ Hs' Hg' _ Hf' Ha'.
      pose proof (post_update_constants
                    (set_x (plus_scaled (x st4) (rate st4) (delta_x st4)) st4))
        as Hk.
      injection Hk as Hk1 Hk2 Hk3. simpl in *.
      rewrite post_update_stop. simpl.
      repeat split; try congruence.
      rewrite Hs', Hs, Hg', Hg. reflexivity.
Qed.

(** ** The call, from an attempt that ends it *)

Lemma minimize_ends s o x0 st0 n k st c out m :
  initialize s o x0 = inl st0 ->
  attempts n st0 = Some (k, st) ->
  attempt st = (c, inr out) ->
  minimize (n + S m) s o x0 = Some out.
Proof.
  intros Hi Ha He. unfold minimize. rewrite Hi.
  exact (loop_ends _ _ _ _ _ _ _ Ha He).
Qed.

Lemma attempt_throws st e st' :
  body st = Throw_ e st' -> attempt st = (false, inr (unwind e st')).
Proof. intros H. unfold attempt. rewrite H. reflexivity. Qed.

(** What the way out of [minimize] leaves alone: everything but the
    timer and the number of stop watches read. *)
Lemma unwind_result e st :
  result_part (final (unwind e st)) = result_part st
  /\ committed_part (final (unwind e st)) = committed_part st.
Proof. split; reflexivity. Qed.

(** ** Failure of the line search on gradient descent *)

(** C1. When the line search returns NaN while the descent strategy is at
    level 2, [minimize] ends with the exception "Line search failed on
    gradient descent" and the status [UserDefined]; nothing is committed.
    The error code is not touched on this path: it is still [SUCCESS],
    not [LINE_SEARCH_FAILED]. *)
Theorem line_search_failure_on_gradient_descent s o x0 st0 n k st st4 m :
  initialize s o x0 = inl st0 ->
  attempts n st0 = Some (k, st) ->
  upto_update st = Next st4 ->
  isnan (rate st4) = true ->
  descent_strategy (solver st4) = 2%Z ->
  exists stf,
    minimize (n + S m) s o x0 = Some (Threw LineSearchFailedOnGD stf)
    /\ m_status (solver stf) = UserDefined
    /\ m_error_code (solver stf) = SUCCESS
    /\ m_error_code (solver stf) <> LINE_SEARCH_FAILED
    /\ x stf = x st.
Proof.
  intros Hi Ha Hu Hn Hl.
  set (stb := upd_solver (set_m_status UserDefined) st4).
  assert (Hb : body st = Throw_ LineSearchFailedOnGD stb).
  { rewrite body_upto_update, Hu. simpl. unfold variable_update.
    rewrite Hn, Hl. reflexivity. }
  exists (final (unwind LineSearchFailedOnGD stb)). split.
  - exact (minimize_ends _ _ _ _ _ _ _ _ _ m Hi Ha (attempt_throws _ _ _ Hb)).
  - pose proof (upto_update_spec st) as Hs. rewrite Hu in Hs.
    destruct Hs as (Hf & _ & He). injection Hf as Hx _ _ _ _ _ _.
    pose proof (error_code_at_attempt _ _ _ _ _ _ _ Hi Ha) as Hok.
    assert (Hc : m_error_code
                   (solver (final (unwind LineSearchFailedOnGD stb)))
                 = SUCCESS) by (simpl; congruence).
    repeat split; [exact Hc| rewrite Hc; discriminate |exact Hx].
Qed.

(** ** Non-finite gradients *)

Lemma compute_direction_throws st e st' :
  compute_direction st <> Throw_ e st'.
Proof. unfold compute_direction. split_tests; congruence. Qed.

(** The exceptions of the body: one of the first two sections threw it,
    or it comes from the variable update. *)
Lemma body_throws st e stf :
  body st = Throw_ e stf ->
  compute_energy st = Throw_ e stf
  \/ (exists st1,
        compute_energy st = Next st1 /\ compute_gradient st1 = Throw_ e stf)
  \/ e = NullLineSearch
  \/ e = LineSearchFailedOnGD.
Proof.
  unfold body.
  destruct (compute_energy st) as [st1| | |] eqn:E1; cbn [Flow_bind];
    try discriminate; [|intros [= <- <-]; auto].
  destruct (compute_gradient st1) as [st2| | |] eqn:E2; cbn [Flow_bind];
    try discriminate; [|intros [= <- <-]; eauto].
  destruct (compute_direction st2) as [st3| | |] eqn:E3; cbn [Flow_bind];
    try discriminate; [|destruct (compute_direction_throws _ _ _ E3)].
  unfold run_line_search.
  destruct (m_line_search (solver st3)); cbn [Flow_bind];
    [|intros [= <- _]; auto].
  destruct (line_search _ _ _ _) as [[r ls'] o']. cbn [Flow_bind].
  unfold variable_update. split_tests; try discriminate.
  intros [= <- _]. auto.
Qed.

(** C2, as the driver has it. When the gradient section of an attempt is
    reached and the norm of the computed gradient is NaN, [minimize] ends
    with the exception "Gradient is nan", the status [UserDefined] and the
    error code [NAN_ENCOUNTERED]; [x] and the iteration counter are those
    of the start of the attempt. The test is [std::isnan] alone: a norm
    that is not NaN, infinite or not, does not raise this exception in
    the attempt; the gradient section stores it in [m_current.gradNorm]
    and goes on to [checkConvergence]. *)
Theorem nan_gradient_is_fatal s o x0 st0 n k st st1 m :
  initialize s o x0 = inl st0 ->
  attempts n st0 = Some (k, st) ->
  compute_energy st = Next st1 ->
  (isnan (norm (fst (gradient (objFunc st1) (x st1) (grad st1)))) = true ->
   exists stf,
     minimize (n + S m) s o x0 = Some (Threw GradientIsNaN stf)
     /\ m_status (solver stf) = UserDefined
     /\ m_error_code (solver stf) = NAN_ENCOUNTERED
     /\ x stf = x st
     /\ iterations (m_current (solver stf))
        = iterations (m_current (solver st)))
  /\ (isnan (norm (fst (gradient (objFunc st1) (x st1) (grad st1)))) = false ->
      exists st2,
        (compute_gradient st1 = Next st2 \/ compute_gradient st1 = Break_ st2)
        /\ gradNorm (m_current (solver st2))
           = norm (fst (gradient (objFunc st1) (x st1) (grad st1)))
        /\ m_status (solver st2)
           = checkConvergence (m_stop (solver st2)) (m_current (solver st2))
        /\ m_error_code (solver st2) = SUCCESS
        /\ forall stf, body st <> Throw_ GradientIsNaN stf).
Proof.
  intros Hi Ha H1. split; intros Hn.
  - assert (Hg : exists stb,
               compute_gradient st1 = Throw_ GradientIsNaN stb).
    { unfold compute_gradient. destruct (gradient _ _ _) as [g o'].
      simpl in Hn. unfold compute_grad_norm. cbn. rewrite Hn. eauto. }
    destruct Hg as [stb Hg].
    exists (final (unwind GradientIsNaN stb)).
    assert (Hb : body st = Throw_ GradientIsNaN stb).
    { unfold body. rewrite H1. simpl. rewrite Hg. reflexivity. }
    split.
    + exact (minimize_ends _ _ _ _ _ _ _ _ _ m Hi Ha
               (attempt_throws _ _ _ Hb)).
    + pose proof (body_cases st) as Hs. rewrite Hb in Hs.
      destruct Hs as (Hf & Hst & He). injection Hf as Hx Hit _ _ _ _ _.
      auto.
  - pose proof (error_code_at_attempt _ _ _ _ _ _ _ Hi Ha) as Hok.
    pose proof (compute_energy_spec st) as He. rewrite H1 in He.
    destruct He as (_ & _ & He).
    assert (Hg : exists st2,
               (compute_gradient st1 = Next st2
                \/ compute_gradient st1 = Break_ st2)
               /\ gradNorm (m_current (solver st2))
                  = norm (fst (gradient (objFunc st1) (x st1) (grad st1)))
               /\ m_status (solver st2)
                  = checkConvergence (m_stop (solver st2))
                      (m_current (solver st2))
               /\ m_error_code (solver st2) = m_error_code (solver st1)).
    { unfold compute_gradient. destruct (gradient _ _ _) as [g o'].
      simpl in Hn. unfold compute_grad_norm. cbn. rewrite Hn.
      destruct (decide _); eexists;
        (split; [eauto|]); (split; [reflexivity|]); split; reflexivity. }
    destruct Hg as (st2 & Hg & Hgn & Hst & Hec). exists st2.
    split; [exact Hg|]. split; [exact Hgn|]. split; [exact Hst|].
    split; [congruence|].
    intros stf Hb.
    destruct (body_throws _ _ _ Hb) as [H|[(st1' & H1' & H)|[H|H]]];
      try discriminate H; [congruence|].
    rewrite H1 in H1'. injection H1' as <-.
    destruct Hg as [Hg|Hg]; congruence.
Qed.

(** ** Retries *)

Lemma body_upto_direction st :
  body st
  = (run st <- upto_direction st;
     run st <- compute_direction st;
     run st <- run_line_search st;
     run st <- variable_update st;
     Next (post_update st)).
Proof.
  unfold body, upto_direction.
  destruct (compute_energy st); simpl; reflexivity.
Qed.

Lemma rejected_direction st st2 :
  upto_direction st = Next st2 ->
  not_a_descent_direction (propose_direction st2) = true ->
  body st
  = Continue_
      (upd_solver (set_m_status Continue)
         (do_increase_descent_strategy (propose_direction st2))).
Proof.
  intros Hu Hn. rewrite body_upto_direction, Hu. simpl.
  unfold compute_direction. rewrite Hn. reflexivity.
Qed.

Lemma continue_keeps st stb :
  body st = Continue_ stb ->
  x stb = x st
  /\ iterations (m_current (solver stb)) = iterations (m_current (solver st)).
Proof.
  intros Hb. pose proof (body_cases st) as Hs. rewrite Hb in Hs.
  destruct Hs as (Hf & _). injection Hf as Hx Hit _ _ _ _ _. auto.
Qed.

Lemma commit_advances st stb :
  body st = Next stb ->
  iterations (m_current (solver stb))
  = size_incr (iterations (m_current (solver st))).
Proof.
  intros Hb. pose proof (body_cases st) as Hs. rewrite Hb in Hs.
  destruct Hs as (st4 & Hu & _ & ->).
  pose proof (upto_update_spec st) as Hs. rewrite Hu in Hs.
  destruct Hs as (Hf & _). injection Hf as _ Hit _ _ _ _ _.
  rewrite post_update_iterations. simpl. congruence.
Qed.

(** C3, as the driver has it. When the strategy reports
    [is_direction_descent()], the gradient norm is not zero and
    [delta_x.dot(grad) >= 0], the driver calls
    [increase_descent_strategy()], sets the status [Continue] and executes
    [continue]: [x] and the iteration counter are unchanged. The loop
    condition is evaluated next: the iteration is attempted again from
    that state when the callback returns true, and the call ends when it
    returns false. On every path that ends in [continue] the iteration
    counter and [x] are unchanged; the counter is incremented by the
    commit. *)
Theorem retry_does_not_advance st st2 :
  upto_direction st = Next st2 ->
  not_a_descent_direction (propose_direction st2) = true ->
  let st' :=
    upd_solver (set_m_status Continue)
      (do_increase_descent_strategy (propose_direction st2)) in
  body st = Continue_ st'
  /\ get_strategy (solver st')
     = increase_descent_strategy
         (get_strategy (solver (propose_direction st2)))
  /\ x st' = x st
  /\ iterations (m_current (solver st'))
     = iterations (m_current (solver st))
  /\ m_status (solver st') = Continue
  /\ (forall fuel,
        loop (S fuel) st
        = let '(go_on, o') :=
            callback (objFunc st') (m_current (solver st')) (x st') in
          if go_on then loop fuel (set_objFunc o' st')
          else Some (after_loop (set_objFunc o' st')))
  /\ (forall sta stb,
        body sta = Continue_ stb ->
        x stb = x sta
        /\ iterations (m_current (solver stb))
           = iterations (m_current (solver sta)))
  /\ (forall sta stb,
        body sta = Next stb ->
        iterations (m_current (solver stb))
        = size_incr (iterations (m_current (solver sta)))).
Proof.
  intros Hu Hn st'. pose proof (rejected_direction _ _ Hu Hn) as Hb.
  fold st' in Hb. destruct (continue_keeps _ _ Hb) as [Hx Hit].
  split; [exact Hb|].
  split; [symmetry; apply surjective_pairing|].
  split; [exact Hx|]. split; [exact Hit|]. split; [reflexivity|].
  split; [|split; [exact continue_keeps|exact commit_advances]].
  intros fuel. simpl. rewrite Hb. unfold loop_condition.
  destruct (callback _ _ _) as [[] o']; reflexivity.
Qed.

(** ** The energy difference of a retried attempt *)

(** Only the energy section assigns [m_current.fDelta]. *)
Lemma bind_keeps {A} (obs : State -> A) (m : Flow) (k : State -> Flow) :
  (forall st, obs (state_of (k st)) = obs st) ->
  obs (state_of (run st <- m; k st)) = obs (state_of m).
Proof. intros Hk. destruct m; simpl; auto. Qed.

Lemma after_energy_fDelta st :
  fDelta
    (m_current
       (solver
          (state_of
             (run st <- compute_gradient st;
              run st <- compute_direction st;
              run st <- run_line_search st;
              run st <- variable_update st;
              Next (post_update st)))))
  = fDelta (m_current (solver st)).
Proof.
  rewrite (bind_keeps (fun st => fDelta (m_current (solver st)))).
  { unfold compute_gradient. split_tests; reflexivity. }
  clear st. intros st.
  rewrite (bind_keeps (fun st => fDelta (m_current (solver st)))).
  { unfold compute_direction, propose_direction. split_tests; reflexivity. }
  clear st. intros st.
  rewrite (bind_keeps (fun st => fDelta (m_current (solver st)))).
  { unfold run_line_search. split_tests; reflexivity. }
  clear st. intros st.
  rewrite (bind_keeps (fun st => fDelta (m_current (solver st)))).
  { unfold variable_update. split_tests; reflexivity. }
  clear st. intros st. simpl.
  unfold post_update. split_tests; reflexivity.
Qed.

Lemma body_fDelta st :
  fDelta (m_current (solver (state_of (body st))))
  = fDelta (m_current (solver (state_of (compute_energy st)))).
Proof.
  unfold body.
  exact (bind_keeps (fun st => fDelta (m_current (solver st))) _ _
           after_energy_fDelta).
Qed.

Lemma compute_energy_fDelta st :
  isfinite (fst (value (objFunc st) (x st))) = true ->
  fDelta (m_current (solver (state_of (compute_energy st))))
  = abs (sub (old_energy st) (fst (value (objFunc st) (x st)))).
Proof.
  intros Hf. unfold compute_energy. cbn.
  destruct (value (objFunc st) (x st)) as [e o']. cbn in *.
  rewrite Hf. cbn. split_tests; reflexivity.
Qed.

(** What the part of the body before the direction leaves in the locals
    [energy] and [old_energy]. *)
Lemma upto_direction_energy st st2 :
  upto_direction st = Next st2 ->
  energy st2 = fst (value (objFunc st) (x st))
  /\ old_energy st2 = energy st2
  /\ isfinite (energy st2) = true.
Proof.
  unfold upto_direction, compute_energy. cbn.
  destruct (value (objFunc st) (x st)) as [e o']. cbn.
  destruct (isfinite e) eqn:Hf; cbn; [|discriminate].
  destruct (decide _); cbn; [|discriminate].
  unfold compute_gradient. split_tests; cbn; try discriminate.
  intros [= <-]. auto.
Qed.

Lemma rejected_state_locals st :
  let st' :=
    upd_solver (set_m_status Continue)
      (do_increase_descent_strategy (propose_direction st)) in
  energy st' = energy st /\ old_energy st' = old_energy st.
Proof. unfold propose_direction. split_tests; split; reflexivity. Qed.

(** C6. When an attempt ends in the [continue] of the descent-direction
    test, [old_energy] already holds the energy that this attempt
    computed. The attempt that follows it computes its [fDelta] against
    that energy: [fDelta] is |energy - energy'| for the energy [energy']
    it evaluates (at the same [x]), which is +0 when the objective returns
    the same value again. *)
Theorem retry_compares_with_same_energy st st2 :
  upto_direction st = Next st2 ->
  not_a_descent_direction (propose_direction st2) = true ->
  exists st',
    body st = Continue_ st'
    /\ energy st' = fst (value (objFunc st) (x st))
    /\ isfinite (energy st') = true
    /\ old_energy st' = energy st'
    /\ let retry := snd (loop_condition st') in
       let energy' := fst (value (objFunc retry) (x retry)) in
       x retry = x st
       /\ (isfinite energy' = true ->
           fDelta (m_current (solver (state_of (body retry))))
           = abs (sub (energy st') energy'))
       /\ (energy' = energy st' ->
           fDelta (m_current (solver (state_of (body retry)))) = zero).
Proof.
  intros Hu Hn. eexists. split; [exact (rejected_direction _ _ Hu Hn)|].
  destruct (upto_direction_energy _ _ Hu) as (He & Ho & Hf).
  pose proof (continue_keeps _ _ (rejected_direction _ _ Hu Hn)) as [Hx _].
  destruct (rejected_state_locals st2) as [Hk1 Hk2]. rewrite Hk1, Hk2.
  split; [exact He|]. split; [exact Hf|]. split; [exact Ho|].
  cbv zeta. unfold loop_condition.
  destruct (callback _ _ _) as [go_on o']. cbn [snd].
  set (retry := set_objFunc o' _).
  assert (Hold : old_energy retry = energy st2).
  { subst retry. unfold set_objFunc. cbn [old_energy].
    rewrite Hk2. exact Ho. }
  assert (Hfd :
    isfinite (fst (value (objFunc retry) (x retry))) = true ->
    fDelta (m_current (solver (state_of (body retry))))
    = abs (sub (energy st2) (fst (value (objFunc retry) (x retry))))).
  { intros Hfin. rewrite body_fDelta, compute_energy_fDelta by exact Hfin.
    rewrite Hold. reflexivity. }
  split; [exact Hx|]. split; [exact Hfd|].
  intros Heq. rewrite Hfd by (rewrite Heq; exact Hf).
  rewrite Heq, sub_diag by exact Hf. reflexivity.
Qed.

(** ** The callback *)

(** C7, as the driver has it. When the callback returns false after an
    attempt that left the status [Continue] (a retry, or a commit that
    neither reached the iteration limit nor was stopped by the objective),
    [minimize] returns normally: the status is [Continue], the error code
    is [SUCCESS], nothing is thrown. *)
Theorem callback_stop s o x0 st0 n k st stb m :
  initialize s o x0 = inl st0 ->
  attempts n st0 = Some (k, st) ->
  body st = Next stb \/ body st = Continue_ stb ->
  m_status (solver stb) = Continue ->
  fst (callback (objFunc stb) (m_current (solver stb)) (x stb)) = false ->
  exists stf,
    minimize (n + S m) s o x0 = Some (Returned stf)
    /\ m_status (solver stf) = Continue
    /\ m_error_code (solver stf) = SUCCESS.
Proof.
  intros Hi Ha Hb Hs Hc.
  pose proof (error_code_at_attempt _ _ _ _ _ _ _ Hi Ha) as Hok.
  assert (He : m_error_code (solver stb) = SUCCESS).
  { pose proof (body_cases st) as H. destruct Hb as [Hb|Hb]; rewrite Hb in H.
    - destruct H as (st4 & Hu & _ & ->). apply post_update_error_code.
      pose proof (upto_update_spec st) as H. rewrite Hu in H.
      destruct H as (_ & _ & H). simpl. congruence.
    - destruct H as (_ & _ & H). congruence. }
  assert (Hat : exists c o',
             attempt st = (c, inr (after_loop (set_objFunc o' stb)))).
  { unfold attempt, after_body, loop_condition.
    destruct Hb as [Hb|Hb]; rewrite Hb;
      destruct (callback _ _ _) as [go_on o']; simpl in Hc; subst go_on;
      eauto. }
  destruct Hat as (c & o' & Hat).
  pose proof (minimize_ends _ _ _ _ _ _ _ _ _ m Hi Ha Hat) as Hmin.
  pose proof (after_loop_result (set_objFunc o' stb)) as Hr.
  pose proof (after_loop_cases (set_objFunc o' stb)) as Hcases.
  destruct (after_loop (set_objFunc o' stb)) as [stf|e stf]; simpl in *.
  - exists stf. injection Hr as _ Hst Herr _ _ _ _ _.
    split; [exact Hmin|]. split; congruence.
  - destruct Hcases as (_ & [(_ & _ & H)|(_ & H & _)]); congruence.
Qed.

(** ** The gradNorm threshold of the first iteration *)

Lemma attempt_committed st :
  fst (attempt st)
  = match body st with Next _ => true | _ => false end.
Proof. unfold attempt. destruct (body st); reflexivity. Qed.

(** The stop criteria at the end of the body: the commit stores
    [g_norm_tol] in gradNorm, nothing else changes them. *)
Lemma body_stop st :
  m_stop (solver (state_of (body st)))
  = match body st with
    | Next _ => set_gradNorm (g_norm_tol st) (m_stop (solver st))
    | _ => m_stop (solver st)
    end.
Proof.
  pose proof (body_cases st) as H.
  destruct (body st) as [stb|stb|stb|e stb]; simpl.
  - destruct H as (st4 & Hu & _ & ->). rewrite post_update_stop. simpl.
    pose proof (upto_update_spec st) as H. rewrite Hu in H.
    destruct H as (Hf & _). injection Hf as _ _ -> -> _ _ _. reflexivity.
  - destruct H as (Hf & _). injection Hf as _ _ -> _ _ _ _. reflexivity.
  - destruct H as (Hf & _). injection Hf as _ _ -> _ _ _ _. reflexivity.
  - destruct H as (Hf & _). injection Hf as _ _ -> _ _ _ _. reflexivity.
Qed.

(** X18. In a call of [minimize] on the solver object as the constructor
    has built it (its first call), the gradNorm stop threshold is
    [first_grad_norm_tol * characteristic_length] in every attempt that
    starts before the first commit ([k = 0]) and
    [grad_norm * characteristic_length] in every attempt after it; it is
    the same at the start of the attempt and wherever the attempt ends
    before its commit, and the call ends with it unless its last attempt
    was the first to commit, which restores
    [grad_norm * characteristic_length]. *)
Theorem first_iteration_tolerance (blank : Solver L D) (p : Params.t)
    (cl : double) s o x0 st0 n k st :
  Solver_new blank p cl = Some s ->
  initialize s o x0 = inl st0 ->
  attempts n st0 = Some (k, st) ->
  let active :=
    match k with
    | O => mul (Params.first_grad_norm_tol p) cl
    | S _ => mul (Params.grad_norm p) cl
    end in
  gradNorm (m_stop (solver st)) = active
  /\ gradNorm (m_stop (solver (state_of (upto_update st)))) = active
  /\ forall c out,
       attempt st = (c, inr out) ->
       gradNorm (m_stop (solver (final out)))
       = (if c then mul (Params.grad_norm p) cl else active).
Proof.
  intros Hnew Hi Ha active.
  destruct (Solver_new_grad_norm _ _ _ _ Hnew) as (Hg & Hf).
  destruct (stop_criteria_at_attempt _ _ _ _ _ _ _ Hi Ha)
    as (Hgt & _ & _ & Hs).
  assert (H0 : gradNorm (m_stop (solver st)) = active).
  { rewrite Hs. subst active. destruct k; simpl; congruence. }
  split; [exact H0|]. split.
  - destruct (upto_update_spec st) as [Hfr _].
    injection Hfr as _ _ -> _ _ _ _. exact H0.
  - intros c out Hat.
    pose proof (attempt_result st) as Hr. rewrite Hat in Hr. simpl in Hr.
    injection Hr as _ _ _ -> _ _ _ _.
    pose proof (attempt_committed st) as Hc. rewrite Hat in Hc. simpl in Hc.
    rewrite body_stop. destruct (body st); subst c; simpl; congruence.
Qed.

(** ** The solver_info record *)





(** ** The variable *)

Lemma body_x st :
  match body st with
  | Next stb =>
      exists st4,
        upto_update st = Next st4
        /\ isnan (rate st4) = false
        /\ x st4 = x st
        /\ x stb = plus_scaled (x st) (rate st4) (delta_x st4)
  | r => x (state_of r) = x st
  end.
Proof.
  pose proof (body_cases st) as H.
  destruct (body st) as [stb|stb|stb|e stb]; simpl.
  - destruct H as (st4 & Hu & Hn & ->). exists st4.
    pose proof (upto_update_spec st) as H. rewrite Hu in H.
    destruct H as (Hf & _). injection Hf as Hx _ _ _ _ _ _.
    rewrite post_update_x. simpl. rewrite Hx. auto.
  - destruct H as (Hf & _). injection Hf as Hx _ _ _ _ _ _. exact Hx.
  - destruct H as (Hf & _). injection Hf as Hx _ _ _ _ _ _. exact Hx.
  - destruct H as (Hf & _). injection Hf as Hx _ _ _ _ _ _. exact Hx.
Qed.

Lemma attempt_x st :
  x (match snd (attempt st) with inl st' => st' | inr out => final out end)
  = x (state_of (body st)).
Proof.
  pose proof (attempt_result st) as H. injection H as H _ _ _ _ _ _ _.
  exact H.
Qed.

Lemma last_cons_default {A} (l : list A) : forall (b d d' : A),
  List.last (b :: l) d = List.last (b :: l) d'.
Proof.
  induction l as [|a l IH]; intros b d d'; [reflexivity|].
  exact (IH a d d').
Qed.

Lemma last_app {A} (l1 l2 : list A) (d : A) :
  List.last (l1 ++ l2) d = List.last l2 (List.last l1 d).
Proof.
  revert d. induction l1 as [|a l1 IH]; intros d; [reflexivity|].
  destruct l1 as [|b l1].
  - destruct l2 as [|c l2]; [reflexivity|].
    exact (last_cons_default l2 c d a).
  - exact (IH d).
Qed.

(** The loop ends with the [x] of its last commit. *)
Lemma loop_x fuel : forall st0 out,
  loop fuel st0 = Some out ->
  x (final out) = List.last (commits fuel st0) (x st0).
Proof.
  induction fuel as [|fuel IH]; intros st0 out H; [discriminate|].
  rewrite loop_S in H. simpl.
  pose proof (attempt_x st0) as Hx.
  pose proof (attempt_committed st0) as Hc.
  pose proof (body_x st0) as Hb.
  destruct (attempt st0) as [c [st1|out1]]; simpl in *.
  - rewrite last_app, (IH _ _ H). f_equal. rewrite Hx.
    subst c. destruct (body st0); simpl; congruence.
  - injection H as <-. rewrite app_nil_r, Hx.
    subst c. destruct (body st0); simpl; congruence.
Qed.

(** C10. The body changes [x] in one place only, the commit
    [x += rate * delta_x], which it reaches only with a rate that is not
    NaN; every other way out of the body (continue, break, the throws)
    leaves [x] as the attempt found it. However a call ends, normally or
    with any of the exceptions, its [x] is the value given by the last
    commit, or the initial [x] if nothing was committed. *)
Theorem x_changes_only_at_commit :
  (forall st,
     match body st with
     | Next stb =>
         exists st4,
           upto_update st = Next st4
           /\ isnan (rate st4) = false
           /\ x st4 = x st
           /\ x stb = plus_scaled (x st) (rate st4) (delta_x st4)
     | r => x (state_of r) = x st
     end)
  /\ (forall fuel s o x0 out,
        minimize fuel s o x0 = Some out ->
        x (final out) = List.last (minimize_commits fuel s o x0) x0).
Proof.
  split; [exact body_x|].
  intros fuel s o x0 out. unfold minimize, minimize_commits.
  destruct (initialize s o x0) as [st0|out0] eqn:Hi.
  - intros H. rewrite (loop_x _ _ _ H).
    destruct (initialize_spec _ _ _ _ Hi) as (-> & _). reflexivity.
  - intros [= <-]. unfold initialize in Hi.
    destruct (reset _ _) as [s1|s1]; [|injection Hi as <-; reflexivity].
    destruct (m_line_search _); [|injection Hi as <-; reflexivity].
    repeat destruct (value _ _). discriminate.
Qed.

(** ** Naming the states of a run *)

Lemma enters_loop_start s o x0 :
  enters_loop s o x0 = true -> initialize s o x0 = inl (start s o x0).
Proof.
  unfold enters_loop, start.
  destruct (initialize s o x0); [reflexivity|discriminate].
Qed.

Lemma falls_through_Next (r : Flow) :
  falls_through r = true -> r = Next (state_of r).
Proof. destruct r; try discriminate. reflexivity. Qed.

Lemma commits_before_attempts n st0 k :
  commits_before n st0 = Some k ->
  attempts n st0 = Some (k, attempt_state n st0).
Proof.
  unfold commits_before, attempt_state.
  destruct (attempts n st0) as [[k' st]|]; [|discriminate].
  intros [= ->]. reflexivity.
Qed.

Lemma minimize_returned fuel s o x0 :
  exception_of (minimize fuel s o x0) = Some None ->
  minimize fuel s o x0 = Some (Returned (end_state fuel s o x0)).
Proof.
  unfold end_state.
  destruct (minimize fuel s o x0) as [[st|e st]|]; try discriminate.
  reflexivity.
Qed.

Lemma minimize_threw fuel s o x0 e :
  exception_of (minimize fuel s o x0) = Some (Some e) ->
  minimize fuel s o x0 = Some (Threw e (end_state fuel s o x0)).
Proof.
  unfold end_state.
  destruct (minimize fuel s o x0) as [[st|e' st]|]; try discriminate.
  intros [= ->]. reflexivity.
Qed.

End DriverProperties.

(** * Properties of Solver::create *)

Section SolverCreateProperties.

Context {Doc Rules Object : Type}.
Context {jse : JsonSpecEngine Doc Rules}.
Context {solver_classes : SolverClasses Doc Object}.

Ltac dispatch_cases :=
  repeat match goal with
    | |- context [String.eqb ?a ?b] =>
        let E := fresh "E" in
        destruct (String.eqb a b) eqn:E;
        [apply String.eqb_eq in E; subst; simpl|simpl]
    end.

Lemma make_unique_cases (call : Create.t Doc) :
  (forall solver : Object,
     construct call = Some solver -> make_unique call = inr solver)
  /\ (construct call = None -> make_unique call = inl Create.ConstructorThrew).
Proof. unfold make_unique. split; [intros solver ->|intros ->]; reflexivity. Qed.

Lemma make_unique_inr (call : Create.t Doc) (solver : Object) :
  make_unique call = inr solver <-> construct call = Some solver.
Proof.
  unfold make_unique. destruct (construct call); split; congruence.
Qed.

(** X1. Every name that [available_solvers] lists is a name that [create]
    dispatches on: with readable rules and a valid document whose
    "solver" (after the defaults) is such a name, [create] calls the
    constructor of the class of that name, with the document with the
    defaults injected, and returns the object it builds; it fails only
    if that constructor throws. *)
Theorem available_solvers_are_created (rules : Rules)
    (doc lin : Doc) (cl : double) (strict : bool) (name : string) :
  In name available_solvers ->
  verify_json strict doc rules = true ->
  get_solver (inject_defaults doc rules) = Some name ->
  exists call,
    In (name, Create.kind call) dispatched_names
    /\ Create.solver_params call = inject_defaults doc rules
    /\ Create.characteristic_length call = cl
    /\ Solver_create (Holds rules) doc lin cl strict = make_unique call
    /\ (forall solver : Object,
          construct call = Some solver ->
          Solver_create (Holds rules) doc lin cl strict = inr solver)
    /\ (construct call = None ->
        Solver_create (Holds rules) doc lin cl strict
        = inl Create.ConstructorThrew).
Proof.
  intros Hin Hv Hg. unfold Solver_create. rewrite Hv, Hg. simpl.
  simpl in Hin.
  destruct Hin as [<-|[<-|[<-|[<-|[<-|[]]]]]]; simpl;
    eexists; (split; [|split; [|split; [|split; [reflexivity|]]]]);
    try apply make_unique_cases; simpl; auto 12.
Qed.

(** X2. [create] returns a solver exactly when the rules file holds
    rules, the document passes the validation, the "solver" of the
    document with the defaults injected is one of the ten names of the
    dispatch, and the constructor of the class of that name does not
    throw. The solver is the object that this constructor builds from
    that document and the given characteristic length; the linear solver
    parameters are passed to BFGS and the Newton variants only. *)
Theorem create_builds_from_valid_documents (file : RulesFile Rules)
    (doc lin : Doc) (cl : double) (strict : bool) (solver : Object) :
  Solver_create file doc lin cl strict = inr solver
  <-> exists rules name call,
        file = Holds rules
        /\ verify_json strict doc rules = true
        /\ get_solver (inject_defaults doc rules) = Some name
        /\ In (name, Create.kind call) dispatched_names
        /\ Create.solver_params call = inject_defaults doc rules
        /\ Create.characteristic_length call = cl
        /\ Create.linear_solver_params call
           = match Create.kind call with
             | GradientDescent | LBFGS => None
             | _ => Some lin
             end
        /\ construct call = Some solver.
Proof.
  split.
  - unfold Solver_create. destruct file as [| |rules]; try discriminate.
    destruct (verify_json strict doc rules) eqn:Hv; [|discriminate]. simpl.
    destruct (get_solver _) as [name|] eqn:Hg; [|discriminate].
    intros H. exists rules, name.
    revert H. dispatch_cases; simpl; try discriminate;
      intros H; apply make_unique_inr in H;
      match type of H with construct ?c = _ => exists c end;
      (split; [reflexivity|]); (split; [exact Hv|]);
      (split; [exact Hg|]); (split; [simpl; auto 15|]);
      (split; [reflexivity|]); (split; [reflexivity|]);
      (split; [reflexivity|exact H]).
  - intros (rules & name & call & -> & Hv & Hg & Hin & Hp & Hc & Hl & Hk).
    unfold Solver_create. rewrite Hv, Hg. simpl.
    apply make_unique_inr in Hk.
    destruct call as [k p l cl']. simpl in *. subst p cl' l.
    destruct Hin as [H|[H|[H|[H|[H|[H|[H|[H|[H|[H|[]]]]]]]]]]];
      injection H as <- <-; exact Hk.
Qed.

(** X3. The names are compared as they are written. With readable rules
    and a valid document, [create] ends with the runtime error
    "Unrecognized solver type: " followed by the name exactly when the
    "solver" of the document is none of the ten names of the dispatch. *)
Theorem unrecognized_solver_names (rules : Rules) (doc lin : Doc)
    (cl : double) (strict : bool) (name : string) :
  verify_json strict doc rules = true ->
  get_solver (inject_defaults doc rules) = Some name ->
  (Solver_create (Holds rules) doc lin cl strict
   = inl (Create.RuntimeError ("Unrecognized solver type: " ++ name))
   <-> ~ In name (map fst dispatched_names)).
Proof.
  intros Hv Hg. unfold Solver_create. rewrite Hv, Hg. simpl. split.
  - dispatch_cases;
      try (unfold make_unique; destruct (construct _); discriminate).
    intros _ H.
    repeat (destruct H as [<-|H]; [discriminate|]). exact H.
  - intros Hn. dispatch_cases; try reflexivity; destruct Hn; auto 12.
Qed.

(** ** Naming the result of a call of [create] *)

Lemma creates_created (r : Create.Error + Object) (otherwise : Object) :
  creates r = true -> r = inr (created r otherwise).
Proof. destruct r; [discriminate|reflexivity]. Qed.

End SolverCreateProperties.

(** * More properties of the solver object *)

Section MoreSolverObjectProperties.

Context {Vec P L D : Type}.
Context {vector_ops : VectorOps Vec} {problem : Problem P Vec}.
Context {line_search_ops : LineSearchOps L P Vec}.
Context {strategy : Strategy D P Vec} {cppoptlib : CppOptLib}.
Context {stop_watch : StopWatch}.

Implicit Types (s : Solver L D).

(** ** Assigning keys one after the other *)

Lemma lookup_assign_notin (l : list (string * json)) :
  forall (info : gmap string json) (key : string),
    ~ In key (map fst l) -> assign l info !! key = info !! key.
Proof.
  unfold assign. induction l as [|[k v] l IH]; intros info key Hn;
    [reflexivity|].
  simpl in *. rewrite IH by tauto.
  apply lookup_insert_ne. intros ->. tauto.
Qed.

Lemma lookup_assign_in (l : list (string * json)) :
  forall (info info' : gmap string json) (key : string),
    In key (map fst l) -> assign l info !! key = assign l info' !! key.
Proof.
  unfold assign. induction l as [|[k v] l IH]; intros info info' key Hin;
    [destruct Hin|].
  simpl in *. destruct (in_dec String.string_dec key (map fst l)) as [Hl|Hl].
  - apply IH, Hl.
  - destruct Hin as [->|Hin]; [|contradiction].
    pose proof (lookup_assign_notin l) as Hn. unfold assign in Hn.
    rewrite !Hn by exact Hl. rewrite !lookup_insert_eq. reflexivity.
Qed.

Lemma assign_absorbs (l1 l2 : list (string * json))
    (info : gmap string json) :
  map fst l1 = map fst l2 ->
  assign l2 (assign l1 info) = assign l2 info.
Proof.
  intros Hk. apply map_eq. intros key.
  destruct (in_dec String.string_dec key (map fst l2)) as [Hl|Hl].
  - apply lookup_assign_in, Hl.
  - rewrite !lookup_assign_notin; try reflexivity; congruence.
Qed.

Lemma updated_info_assign energy s :
  updated_info energy s = assign (assignments energy s) (solver_info s).
Proof.
  unfold updated_info, assignments, line_search_info,
    line_search_assignments, assign.
  destruct (m_line_search s); reflexivity.
Qed.

Lemma assignments_keys energy energy' s s' :
  m_line_search s' = m_line_search s ->
  map fst (assignments energy' s') = map fst (assignments energy s).
Proof.
  unfold assignments. intros ->. rewrite !map_app.
  destruct (m_line_search s); reflexivity.
Qed.

(** The keys that [update_solver_info] never assigns keep their
    values. *)
Lemma update_solver_info_other_key energy s (key : string) :
  ~ In key (map fst (assignments energy s)) ->
  solver_info (update_solver_info energy s) !! key = solver_info s !! key.
Proof.
  intros Hn. unfold update_solver_info. cbn [solver_info set_solver_info].
  rewrite updated_info_assign. apply lookup_assign_notin, Hn.
Qed.

Lemma update_solver_info_line_search_name energy s :
  line_search_name (update_solver_info energy s) = line_search_name s.
Proof.
  unfold line_search_name. rewrite update_solver_info_other_key; [reflexivity|].
  unfold assignments. rewrite map_app.
  destruct (m_line_search s); simpl; intuition discriminate.
Qed.

(** X4. The record that [update_solver_info] leaves depends on the
    latest call only: an update after another update gives what the
    second one alone gives, and no entry under another key (such as
    "line_search") is touched. *)
Theorem update_solver_info_absorbs (energy energy' : double) s :
  update_solver_info energy' (update_solver_info energy s)
  = update_solver_info energy' s
  /\ forall key : string,
       ~ In key (map fst (assignments energy s)) ->
       solver_info (update_solver_info energy s) !! key
       = solver_info s !! key.
Proof.
  split; [|intros key; apply update_solver_info_other_key].
  unfold update_solver_info at 1 3.
  replace (updated_info energy' (update_solver_info energy s))
    with (updated_info energy' s); [reflexivity|].
  rewrite !updated_info_assign.
  unfold update_solver_info at 2. cbn [solver_info set_solver_info].
  rewrite updated_info_assign.
  replace (assignments energy' (update_solver_info energy s))
    with (assignments energy' s) by reflexivity.
  symmetry. apply assign_absorbs, assignments_keys. reflexivity.
Qed.

(** ** reset *)

Lemma reset_times_fields s :
  solver_info (reset_times s) = solver_info s
  /\ times (reset_times s) = zero_times
  /\ m_error_code (reset_times s) = m_error_code s
  /\ m_current (reset_times s) = m_current s
  /\ m_stop (reset_times s) = m_stop s
  /\ m_status (reset_times s) = m_status s
  /\ (m_line_search (reset_times s) = None <-> m_line_search s = None).
Proof.
  unfold reset_times.
  change (m_line_search (set_times zero_times s)) with (m_line_search s).
  destruct (m_line_search s) eqn:E;
    (split; [reflexivity|]); (split; [reflexivity|]);
    (split; [reflexivity|]); (split; [reflexivity|]);
    (split; [reflexivity|]); (split; [reflexivity|]);
    [|tauto].
  split; intros H; [discriminate H|discriminate].
Qed.

Lemma reset_cases (ndof : nat) s :
  match line_search_name s with
  | Some name =>
      exists s',
        reset ndof s = inl s'
        /\ solver_info s'
           = <["iterations" := JInt 0]>
               (<["line_search" := JString name]> ∅)
        /\ line_search_name s' = Some name
        /\ times s' = zero_times
        /\ m_error_code s' = SUCCESS
        /\ m_current s' = Criteria_reset (m_current s)
        /\ m_stop s' = m_stop s
        /\ m_status s' = m_status s
        /\ (m_line_search s' = None <-> m_line_search s = None)
  | None => exists s', reset ndof s = inr s'
  end.
Proof.
  unfold line_search_name, reset.
  cbn [solver_info set_m_error_code set_strategy set_derived
       set_descent_strategy set_m_current].
  destruct (solver_info s !! "line_search") as [[]|]; eauto.
  eexists. split; [reflexivity|].
  match goal with
  | |- context [reset_times ?s1] =>
      destruct (reset_times_fields s1) as (Hi & Ht & He & Hc & Hs & Hst & Hl)
  end.
  unfold line_search_name. rewrite Hi, Ht, He, Hc, Hs, Hst.
  split; [reflexivity|].
  split; [cbn [solver_info set_solver_info];
          rewrite lookup_insert_ne by discriminate;
          rewrite lookup_insert_eq; reflexivity|].
  split; [reflexivity|]. split; [reflexivity|]. split; [reflexivity|].
  split; [reflexivity|]. split; [reflexivity|]. exact Hl.
Qed.

(** X5. [reset] succeeds exactly when [solver_info["line_search"]] holds a
    string. It then keeps that entry, sets "iterations" to 0 and forgets
    every other entry, zeroes the timers of the solver, sets the error
    code [SUCCESS], resets the current criteria and leaves the stop
    criteria and the status alone. Otherwise it ends in json's type
    error. *)
Theorem reset_keeps_the_line_search_name (ndof : nat) s :
  match line_search_name s with
  | Some name =>
      exists s',
        reset ndof s = inl s'
        /\ solver_info s'
           = <["iterations" := JInt 0]>
               (<["line_search" := JString name]> ∅)
        /\ line_search_name s' = Some name
        /\ times s' = zero_times
        /\ m_error_code s' = SUCCESS
        /\ m_current s' = Criteria_reset (m_current s)
        /\ m_stop s' = m_stop s
        /\ m_status s' = m_status s
  | None => exists s', reset ndof s = inr s'
  end.
Proof.
  pose proof (reset_cases ndof s) as H.
  destruct (line_search_name s); [|exact H].
  destruct H as (s' & H1 & H2 & H3 & H4 & H5 & H6 & H7 & H8 & _).
  exists s'. tauto.
Qed.

(** ** The initialisation of a call *)

Lemma initialize_cases s (o : P) (x0 : Vec) :
  match line_search_name s, m_line_search s with
  | Some name, Some _ =>
      exists st0,
        initialize s o x0 = inl st0
        /\ line_search_part st0 = (Some name, true)
        /\ m_current (solver st0) = Criteria_reset (m_current s)
  | Some _, None =>
      exists st,
        initialize s o x0 = inr (Threw NullLineSearch st)
        /\ m_current (solver st) = Criteria_reset (m_current s)
        /\ m_error_code (solver st) = SUCCESS
        /\ m_status (solver st) = m_status s
  | None, _ =>
      exists st,
        initialize s o x0 = inr (Threw JsonTypeError st)
        /\ m_current (solver st) = Criteria_reset (m_current s)
        /\ m_error_code (solver st) = SUCCESS
        /\ m_status (solver st) = m_status s
  end.
Proof.
  pose proof (reset_cases (rows x0) s) as H. unfold initialize.
  destruct (line_search_name s) as [name|] eqn:En.
  - destruct H as (s' & -> & _ & Hn & _ & He & Hc & _ & Hst & Hl).
    change (m_line_search (set_strategy ?v s')) with (m_line_search s').
    destruct (m_line_search s) as [ls|].
    + destruct (m_line_search s') as [ls'|];
        [|destruct Hl as [Hl _]; discriminate (Hl eq_refl)].
      repeat match goal with
             | |- context [value ?o ?x] => destruct (value o x)
             end.
      eexists. split; [reflexivity|]. split; [|exact Hc].
      unfold line_search_part, upd_solver. cbn [solver set_solver].
      rewrite update_solver_info_line_search_name.
      unfold has_line_search. f_equal. exact Hn.
    + destruct Hl as [_ Hl]. rewrite (Hl eq_refl).
      eexists. split; [reflexivity|]. auto.
  - destruct H as (s' & Hr). rewrite Hr. eexists. split; [reflexivity|].
    revert Hr. unfold reset, line_search_name in *.
    cbn [solver_info set_m_error_code set_strategy set_derived
         set_descent_strategy set_m_current] in *.
    destruct (solver_info s !! "line_search") as [[]|];
      try discriminate; intros [= <-]; auto.
Qed.

Lemma Solver_new_ready (blank : Solver L D) (p : Params.t) (cl : double)
    s :
  Solver_new blank p cl = Some s -> ready s = true.
Proof.
  unfold Solver_new. destruct (create p) as [ls|]; [|discriminate].
  intros [= <-]. unfold ready, line_search_name. cbn [solver_info].
  rewrite lookup_insert_eq. reflexivity.
Qed.

(** X6. The solver that the constructor builds is ready for [minimize]:
    [solver_info["line_search"]] is the configured method, the line
    search object exists, and the initialisation of a call reaches the
    loop (neither the type error of [reset] nor a null line search). *)
Theorem constructed_solver_enters_the_loop (blank : Solver L D)
    (p : Params.t) (cl : double) s (o : P) (x0 : Vec) :
  Solver_new blank p cl = Some s ->
  line_search_name s = Some (Params.line_search_method p)
  /\ (exists ls, m_line_search s = Some ls)
  /\ exists st0, initialize s o x0 = inl st0.
Proof.
  unfold Solver_new. destruct (create p) as [ls|]; [|discriminate].
  intros [= <-].
  match goal with
  | |- line_search_name ?s = _ /\ _ =>
      assert (Hn : line_search_name s = Some (Params.line_search_method p))
        by (unfold line_search_name; cbn [solver_info];
            rewrite lookup_insert_eq; reflexivity);
      pose proof (initialize_cases s o x0) as Hi;
      rewrite Hn in Hi
  end.
  split; [exact Hn|]. split; [eexists; reflexivity|].
  destruct Hi as (st0 & Hi & _). eauto.
Qed.

End MoreSolverObjectProperties.

(** * More properties of the driver *)

Section MoreDriverProperties.

Context {Vec P L D : Type}.
Context {vector_ops : VectorOps Vec} {problem : Problem P Vec}.
Context {line_search_ops : LineSearchOps L P Vec}.
Context {strategy : Strategy D P Vec} {cppoptlib : CppOptLib}.
Context {stop_watch : StopWatch}.

Local Abbreviation State := (LoopState Vec P L D).
Local Abbreviation Flow := (Flow Vec P L D).

Implicit Types (st : State) (s : Solver L D).

Ltac split_cases :=
  repeat match goal with
    | |- context [let '(_, _) := ?e in _] => destruct e eqn:?
    | |- context [if ?b then _ else _] => destruct b eqn:?
    | |- context [match ?e with Some _ => _ | None => _ end] =>
        destruct e eqn:?
    end.

#[local] Opaque updated_info.

(** ** The line search of the solver object during a call *)

Lemma line_search_part_update energy st :
  line_search_part (upd_solver (update_solver_info energy) st)
  = line_search_part st.
Proof.
  unfold line_search_part, upd_solver. cbn [solver set_solver].
  rewrite update_solver_info_line_search_name. reflexivity.
Qed.

Lemma compute_energy_line_search st :
  line_search_part (state_of (compute_energy st)) = line_search_part st.
Proof. unfold compute_energy. split_cases; reflexivity. Qed.

Lemma compute_gradient_line_search st :
  line_search_part (state_of (compute_gradient st)) = line_search_part st.
Proof. unfold compute_gradient. split_cases; reflexivity. Qed.

Lemma compute_direction_line_search st :
  line_search_part (state_of (compute_direction st)) = line_search_part st.
Proof.
  unfold compute_direction, propose_direction. split_cases; reflexivity.
Qed.

Lemma upto_line_search_line_search st :
  line_search_part (state_of (upto_line_search st)) = line_search_part st.
Proof.
  unfold upto_line_search, upto_direction.
  rewrite !(bind_keeps line_search_part).
  - apply compute_energy_line_search.
  - apply compute_gradient_line_search.
  - apply compute_direction_line_search.
Qed.

Lemma run_line_search_cases st :
  match run_line_search st with
  | Next st' =>
      line_search_part st' = (line_search_name (solver st), true)
      /\ has_line_search (solver st) = true
  | Throw_ NullLineSearch st' =>
      st' = st /\ has_line_search (solver st) = false
  | _ => False
  end.
Proof.
  unfold run_line_search, has_line_search.
  destruct (m_line_search (solver st)) as [ls|]; [|auto].
  destruct (line_search _ _ _ _) as [[r ls'] o']. split; reflexivity.
Qed.

Lemma variable_update_line_search st :
  line_search_part (state_of (variable_update st)) = line_search_part st.
Proof. unfold variable_update. split_cases; reflexivity. Qed.

Lemma post_update_line_search st :
  line_search_part (post_update st) = line_search_part st.
Proof.
  unfold post_update. split_cases;
    match goal with
    | |- line_search_part
           (upd_stop _
              (set_objFunc _ (upd_solver (update_solver_info ?e) ?st1)))
         = _ =>
        change (line_search_part (upd_solver (update_solver_info e) st1)
                = line_search_part st);
        rewrite line_search_part_update; reflexivity
    end.
Qed.

(** The exceptions of the parts of the body. *)
Lemma compute_energy_throws st e st' :
  compute_energy st = Throw_ e st' -> e = EnergyNotFinite.
Proof. unfold compute_energy. split_cases; congruence. Qed.

Lemma compute_gradient_throws st e st' :
  compute_gradient st = Throw_ e st' -> e = GradientIsNaN.
Proof. unfold compute_gradient. split_cases; congruence. Qed.

Lemma variable_update_throws st e st' :
  variable_update st = Throw_ e st' -> e = LineSearchFailedOnGD.
Proof. unfold variable_update. split_cases; congruence. Qed.

Lemma upto_line_search_throws st e st' :
  upto_line_search st = Throw_ e st' ->
  e = EnergyNotFinite \/ e = GradientIsNaN.
Proof.
  unfold upto_line_search, upto_direction.
  destruct (compute_energy st) as [st1| | |e1 st1] eqn:E1; simpl;
    try discriminate.
  - destruct (compute_gradient st1) as [st2| | |e2 st2] eqn:E2; simpl;
      try discriminate.
    + intros H. destruct (compute_direction_throws _ _ _ H).
    + intros [= <- <-]. right. exact (compute_gradient_throws _ _ _ E2).
  - intros [= <- <-]. left. exact (compute_energy_throws _ _ _ E1).
Qed.

(** The body keeps a solver object that has a line search ready, and
    never finds the line search missing. *)
Lemma body_line_search st :
  has_line_search (solver st) = true ->
  line_search_part (state_of (body st)) = line_search_part st
  /\ forall st', body st <> Throw_ NullLineSearch st'.
Proof.
  intros Hr. rewrite body_upto_update. unfold upto_update.
  pose proof (upto_line_search_line_search st) as H2.
  pose proof (upto_line_search_throws st) as Ht.
  destruct (upto_line_search st) as [st2|st2|st2|e st2]; simpl in *.
  - pose proof (run_line_search_cases st2) as H3.
    assert (Hr2 : has_line_search (solver st2) = true)
      by (injection H2 as _ ->; exact Hr).
    destruct (run_line_search st2) as [st3| | |e st3]; simpl;
      try contradiction.
    + destruct H3 as [H3 _].
      assert (H3' : line_search_part st3 = line_search_part st).
      { rewrite H3, <- H2. unfold line_search_part. rewrite Hr2.
        reflexivity. }
      pose proof (variable_update_line_search st3) as H4.
      pose proof (variable_update_throws st3) as Hv.
      destruct (variable_update st3) as [st4|st4|st4|e st4]; simpl in *.
      * split; [|discriminate].
        rewrite post_update_line_search. congruence.
      * split; [congruence|discriminate].
      * split; [congruence|discriminate].
      * split; [congruence|]. intros st' [= -> ->].
        discriminate (Hv _ _ eq_refl).
    + destruct e; try contradiction. destruct H3 as [_ H3]. congruence.
  - split; [exact H2|discriminate].
  - split; [exact H2|discriminate].
  - split; [exact H2|]. intros st' [= -> ->].
    destruct (Ht _ _ eq_refl); discriminate.
Qed.

Lemma after_loop_line_search st :
  line_search_part (final (after_loop st)) = line_search_part st.
Proof.
  unfold after_loop. split_cases; try reflexivity.
  cbn [final]. rewrite line_search_part_update. reflexivity.
Qed.

Lemma attempt_line_search st :
  has_line_search (solver st) = true ->
  line_search_part
    (match snd (attempt st) with inl st' => st' | inr out => final out end)
  = line_search_part st.
Proof.
  intros Hr. destruct (body_line_search st Hr) as [Hb _]. rewrite <- Hb.
  unfold attempt, after_body.
  destruct (body st) as [stb|stb|stb|e stb]; cbn [state_of snd];
    try reflexivity; try apply after_loop_line_search;
    pose proof (loop_condition_result stb) as [_ Hs];
    destruct (loop_condition stb) as [[] st']; cbn [snd] in *;
    try rewrite after_loop_line_search; unfold line_search_part;
    rewrite Hs; reflexivity.
Qed.

Lemma attempts_line_search st0 n k st :
  has_line_search (solver st0) = true ->
  attempts n st0 = Some (k, st) ->
  line_search_part st = line_search_part st0.
Proof.
  intros Hr Ha.
  refine (attempts_invariant
            (fun _ st => line_search_part st = line_search_part st0)
            st0 eq_refl _ n k st Ha).
  clear Ha n k st. intros _ st c st' Hi Hat.
  assert (Hr' : has_line_search (solver st) = true).
  { revert Hi. unfold line_search_part. intros [= _ ->]. exact Hr. }
  pose proof (attempt_line_search st Hr') as H. rewrite Hat in H.
  cbn [snd] in H. congruence.
Qed.

(** X7. A solver object that is ready for a call stays ready: whatever
    the outcome of [minimize], fatal or not, the solver still holds its
    line search and [solver_info["line_search"]] still holds the same
    name, so that a later call on the same object enters its loop
    again. *)
Theorem solver_stays_ready fuel s o x0 out :
  ready s = true ->
  minimize fuel s o x0 = Some out ->
  line_search_name (solver (final out)) = line_search_name s
  /\ ready (solver (final out)) = true
  /\ forall (o' : P) (x0' : Vec),
       exists st0', initialize (solver (final out)) o' x0' = inl st0'.
Proof.
  unfold ready, has_line_search, minimize. intros Hr.
  pose proof (initialize_cases s o x0) as Hi.
  destruct (line_search_name s) as [name|]; [|discriminate].
  destruct (m_line_search s) as [ls|]; [|discriminate].
  destruct Hi as (st0 & -> & H0 & _). intros Hl.
  apply loop_inv in Hl as (n & k & st & c & _ & Ha & Hat).
  assert (Hr0 : has_line_search (solver st0) = true)
    by (injection H0 as _ ->; reflexivity).
  pose proof (attempts_line_search _ _ _ _ Hr0 Ha) as Hs.
  assert (Hrs : has_line_search (solver st) = true)
    by (rewrite H0 in Hs; injection Hs as _ ->; reflexivity).
  pose proof (attempt_line_search st Hrs) as Hf.
  rewrite Hat, Hs, H0 in Hf. cbn [snd] in Hf.
  injection Hf as Hn Hh. unfold has_line_search in Hh.
  rewrite Hn. split; [reflexivity|].
  destruct (m_line_search (solver (final out))) as [lsf|] eqn:El;
    [|discriminate].
  split; [reflexivity|]. intros o' x0'.
  pose proof (initialize_cases (solver (final out)) o' x0') as Hi.
  rewrite Hn, El in Hi. destruct Hi as (st0' & Hi & _). eauto.
Qed.

(** ** How a call ends *)

Lemma after_loop_exit st :
  m_error_code (solver st) = SUCCESS ->
  let sf := solver (final (after_loop st)) in
  match after_loop st with
  | Returned _ =>
      m_error_code sf = SUCCESS
      /\ (m_status sf = IterationLimit ->
          allow_out_of_iterations (solver st) = true)
  | Threw ReachedIterationLimit _ =>
      m_status sf = IterationLimit
      /\ m_error_code sf = SUCCESS
      /\ allow_out_of_iterations (solver st) = false
  | Threw _ _ => False
  end.
Proof.
  intros He. pose proof (after_loop_cases st) as Hc.
  pose proof (after_loop_result st) as Hr.
  injection Hr as _ Hs He' _ _ _ _ Ha. cbn zeta.
  destruct (after_loop st) as [stf|e stf]; cbn [final] in *.
  - destruct Hc as (Hl & _). split; [congruence|].
    rewrite Hs. intros Hst.
    destruct (allow_out_of_iterations (solver st)); [reflexivity|].
    destruct Hl. auto.
  - destruct Hc as (_ & [(-> & Hal & Hst)|(-> & _ & Hne)]);
      [|contradiction].
    rewrite Hs, He'. auto.
Qed.

Lemma body_exit st :
  m_error_code (solver st) = SUCCESS ->
  allow_out_of_iterations (solver (state_of (body st)))
  = allow_out_of_iterations (solver st)
  /\ match body st with
     | Throw_ EnergyNotFinite stb | Throw_ GradientIsNaN stb =>
         m_status (solver stb) = UserDefined
         /\ m_error_code (solver stb) = NAN_ENCOUNTERED
     | Throw_ LineSearchFailedOnGD stb =>
         m_status (solver stb) = UserDefined
         /\ m_error_code (solver stb) = SUCCESS
     | Throw_ NullLineSearch _ => True
     | Throw_ _ _ => False
     | Next stb | Continue_ stb | Break_ stb =>
         m_error_code (solver stb) = SUCCESS
     end.
Proof.
  intros He. pose proof (body_cases st) as Hb.
  destruct (body st) as [stb|stb|stb|e stb]; cbn [state_of].
  - destruct Hb as (st4 & Hu & _ & ->).
    pose proof (upto_update_spec st) as Hs. rewrite Hu in Hs.
    destruct Hs as (Hf & _ & He4). cbn [state_of] in Hf.
    injection Hf as _ _ _ _ _ _ Ha.
    pose proof (post_update_constants
                  (set_x (plus_scaled (x st4) (rate st4) (delta_x st4)) st4))
      as Hc.
    injection Hc as _ _ Hc. split; [rewrite Hc; exact Ha|].
    apply post_update_error_code. cbn. congruence.
  - destruct Hb as (Hf & _ & He'). injection Hf as _ _ _ _ _ _ Ha.
    split; [exact Ha|congruence].
  - destruct Hb as (Hf & _ & He'). injection Hf as _ _ _ _ _ _ Ha.
    split; [exact Ha|congruence].
  - destruct Hb as (Hf & Hb). injection Hf as _ _ _ _ _ _ Ha.
    split; [exact Ha|].
    destruct e; try exact Hb; try exact I.
    destruct Hb as (? & ?). split; congruence.
Qed.

Lemma attempt_exit st c out :
  m_error_code (solver st) = SUCCESS ->
  has_line_search (solver st) = true ->
  attempt st = (c, inr out) ->
  let sf := solver (final out) in
  match out with
  | Returned _ =>
      m_error_code sf = SUCCESS
      /\ (m_status sf = IterationLimit ->
          allow_out_of_iterations (solver st) = true)
  | Threw EnergyNotFinite _ | Threw GradientIsNaN _ =>
      m_status sf = UserDefined /\ m_error_code sf = NAN_ENCOUNTERED
  | Threw LineSearchFailedOnGD _ =>
      m_status sf = UserDefined /\ m_error_code sf = SUCCESS
  | Threw ReachedIterationLimit _ =>
      m_status sf = IterationLimit
      /\ m_error_code sf = SUCCESS
      /\ allow_out_of_iterations (solver st) = false
  | Threw _ _ => False
  end.
Proof.
  intros He Hr. destruct (body_line_search st Hr) as [_ Hn].
  destruct (body_exit st He) as [Ha Hb].
  assert (Hal : forall stb : State,
             m_error_code (solver stb) = SUCCESS ->
             allow_out_of_iterations (solver stb)
             = allow_out_of_iterations (solver st) ->
             let sf := solver (final (after_loop stb)) in
             match after_loop stb with
             | Returned _ =>
                 m_error_code sf = SUCCESS
                 /\ (m_status sf = IterationLimit ->
                     allow_out_of_iterations (solver st) = true)
             | Threw ReachedIterationLimit _ =>
                 m_status sf = IterationLimit
                 /\ m_error_code sf = SUCCESS
                 /\ allow_out_of_iterations (solver st) = false
             | Threw _ _ => False
             end).
  { intros stb Hes <-. exact (after_loop_exit stb Hes). }
  assert (Hab : forall stb : State,
             m_error_code (solver stb) = SUCCESS ->
             allow_out_of_iterations (solver stb)
             = allow_out_of_iterations (solver st) ->
             after_body stb = inr out ->
             let sf := solver (final out) in
             match out with
             | Returned _ =>
                 m_error_code sf = SUCCESS
                 /\ (m_status sf = IterationLimit ->
                     allow_out_of_iterations (solver st) = true)
             | Threw ReachedIterationLimit _ =>
                 m_status sf = IterationLimit
                 /\ m_error_code sf = SUCCESS
                 /\ allow_out_of_iterations (solver st) = false
             | Threw _ _ => False
             end).
  { intros stb Hes Has. unfold after_body.
    pose proof (loop_condition_result stb) as [_ Hso].
    destruct (loop_condition stb) as [[] st']; [discriminate|].
    cbn [snd] in Hso. intros [= <-]. apply Hal; rewrite Hso; assumption. }
  unfold attempt. cbn [state_of] in *.
  destruct (body st) as [stb|stb|stb|e stb]; cbn [state_of] in *.
  - intros [= _ H]. specialize (Hab stb Hb Ha H).
    destruct out as [|[]]; try exact Hab; contradiction.
  - intros [= _ H]. specialize (Hab stb Hb Ha H).
    destruct out as [|[]]; try exact Hab; contradiction.
  - intros [= _ <-]. specialize (Hal stb Hb Ha).
    destruct (after_loop stb) as [|[]]; try exact Hal; contradiction.
  - intros [= _ <-]. cbn [final].
    destruct e; try exact Hb; try contradiction.
    destruct (Hn stb eq_refl).
Qed.

(** X8. The ways in which a call ends, with the status and the error
    code that go with each of them. A normal return has the error code
    [SUCCESS], and the status [IterationLimit] only if running out of
    iterations is allowed. A non-finite energy and a NaN gradient end
    with [UserDefined] and [NAN_ENCOUNTERED]; a failed line search on
    gradient descent with [UserDefined] and [SUCCESS]; the iteration
    limit, when not allowed, with [IterationLimit] and [SUCCESS]. The
    type error of [reset] and the null line search arise only before the
    loop, from a solver object without a line search name or without a
    line search. "Failed to find minimizer" is never thrown: no path to
    the test of line 310 leaves an error code other than [SUCCESS]. *)
Theorem how_a_call_ends fuel s o x0 out :
  minimize fuel s o x0 = Some out ->
  let sf := solver (final out) in
  match out with
  | Returned _ =>
      m_error_code sf = SUCCESS
      /\ (m_status sf = IterationLimit -> allow_out_of_iterations s = true)
  | Threw EnergyNotFinite _ | Threw GradientIsNaN _ =>
      m_status sf = UserDefined /\ m_error_code sf = NAN_ENCOUNTERED
  | Threw LineSearchFailedOnGD _ =>
      m_status sf = UserDefined /\ m_error_code sf = SUCCESS
  | Threw ReachedIterationLimit _ =>
      m_status sf = IterationLimit
      /\ m_error_code sf = SUCCESS
      /\ allow_out_of_iterations s = false
  | Threw FailedToFindMinimizer _ => False
  | Threw JsonTypeError _ =>
      line_search_name s = None /\ m_error_code sf = SUCCESS
  | Threw NullLineSearch _ =>
      m_line_search s = None /\ m_error_code sf = SUCCESS
  end.
Proof.
  unfold minimize. pose proof (initialize_cases s o x0) as Hi.
  destruct (line_search_name s) as [name|].
  - destruct (m_line_search s) as [ls|].
    + destruct Hi as (st0 & Hi & H0 & _). rewrite Hi. intros Hl.
      apply loop_inv in Hl as (n & k & st & c & _ & Ha & Hat).
      pose proof (error_code_at_attempt _ _ _ _ _ _ _ Hi Ha) as He.
      destruct (stop_criteria_at_attempt _ _ _ _ _ _ _ Hi Ha)
        as (_ & _ & Hal & _).
      assert (Hr0 : has_line_search (solver st0) = true)
        by (injection H0 as _ ->; reflexivity).
      pose proof (attempts_line_search _ _ _ _ Hr0 Ha) as Hs.
      assert (Hrs : has_line_search (solver st) = true)
        by (rewrite H0 in Hs; injection Hs as _ ->; reflexivity).
      pose proof (attempt_exit st c out He Hrs Hat) as Hx.
      rewrite Hal in Hx. cbn zeta in *.
      destruct out as [|[]]; try exact Hx; contradiction.
    + destruct Hi as (st & -> & _ & He & _). intros [= <-]. cbn. auto.
  - destruct Hi as (st & -> & _ & He & _). intros [= <-]. cbn. auto.
Qed.

(** ** A non-finite energy *)

(** X9. When the energy that an attempt computes is not finite (a NaN or
    an infinity of either sign), [minimize] ends with the exception "f(x)
    is nan or inf; stopping", the status [UserDefined] and the error code
    [NAN_ENCOUNTERED]; the gradient is not computed, [x] and the
    iteration counter are those of the start of the attempt, and
    [solver_info] is as the attempt found it. The call leaves the state
    of the throw but for [total_time], which the stop watch of the call
    charges on the way out. *)
Theorem non_finite_energy_is_fatal s o x0 st0 n k st m :
  initialize s o x0 = inl st0 ->
  attempts n st0 = Some (k, st) ->
  isfinite (fst (value (objFunc st) (x st))) = false ->
  exists stb stf,
    compute_energy st = Throw_ EnergyNotFinite stb
    /\ minimize (n + S m) s o x0 = Some (Threw EnergyNotFinite stf)
    /\ stf = charge total_time set_total_time stb
    /\ m_status (solver stf) = UserDefined
    /\ m_error_code (solver stf) = NAN_ENCOUNTERED
    /\ x stf = x st
    /\ iterations (m_current (solver stf))
       = iterations (m_current (solver st))
    /\ solver_info (solver stf) = solver_info (solver st).
Proof.
  intros Hi Ha Hn.
  assert (He : exists stb, compute_energy st = Throw_ EnergyNotFinite stb).
  { unfold compute_energy. cbn [objFunc x upd_current upd_solver set_solver].
    destruct (value (objFunc st) (x st)) as [e o']. cbn [fst] in Hn.
    cbn. rewrite Hn. cbn. eauto. }
  destruct He as [stb He].
  exists stb, (charge total_time set_total_time stb). split; [exact He|].
  assert (Hb : body st = Throw_ EnergyNotFinite stb)
    by (unfold body; rewrite He; reflexivity).
  split.
  - exact (minimize_ends _ _ _ _ _ _ _ _ _ m Hi Ha (attempt_throws _ _ _ Hb)).
  - split; [reflexivity|].
    pose proof (body_cases st) as Hs. rewrite Hb in Hs.
    destruct Hs as (Hf & Hst & Hec). injection Hf as Hx Hit _ _ Hsi _ _.
    auto.
Qed.

(** ** How a commit ends the call *)

Lemma post_update_status st :
  m_status (solver (post_update st))
  = if (iterations (m_stop (solver st))
        <=? size_incr (iterations (m_current (solver st))))%N
    then IterationLimit
    else if fst (stop (objFunc st) (x st)) then UserDefined
    else m_status (solver st).
Proof.
  unfold post_update.
  destruct (stop _ _) as [[] o']; cbn;
    destruct (_ <=? _)%N; reflexivity.
Qed.

(** The state that a commit leaves, seen from the start of its
    attempt. *)
Lemma commit_spec st stb :
  body st = Next stb ->
  exists st4,
    upto_update st = Next st4
    /\ isnan (rate st4) = false
    /\ x stb = plus_scaled (x st) (rate st4) (delta_x st4)
    /\ iterations (m_current (solver stb))
       = size_incr (iterations (m_current (solver st)))
    /\ allow_out_of_iterations (solver stb)
       = allow_out_of_iterations (solver st)
    /\ (m_error_code (solver st) = SUCCESS ->
        m_error_code (solver stb) = SUCCESS)
    /\ m_status (solver stb)
       = if (iterations (m_stop (solver st))
             <=? size_incr (iterations (m_current (solver st))))%N
         then IterationLimit
         else if fst (stop (objFunc st4) (x stb)) then UserDefined
         else Continue.
Proof.
  intros Hb. pose proof (body_cases st) as H. rewrite Hb in H.
  destruct H as (st4 & Hu & Hn & ->). exists st4.
  pose proof (upto_update_spec st) as Hs. rewrite Hu in Hs.
  destruct Hs as (Hf & Hst & He). cbn [state_of] in Hf.
  injection Hf as Hx Hit Hstop _ _ _ Ha.
  set (stc := set_x (plus_scaled (x st4) (rate st4) (delta_x st4)) st4).
  pose proof (post_update_constants stc) as Hc. injection Hc as _ _ Hc.
  split; [exact Hu|]. split; [exact Hn|].
  split; [rewrite post_update_x; subst stc; cbn [x set_x]; congruence|].
  split; [rewrite post_update_iterations; subst stc;
          cbn [solver set_x]; congruence|].
  split; [rewrite Hc; exact Ha|].
  split; [intros Hok; apply post_update_error_code; subst stc;
          cbn [solver set_x]; congruence|].
  rewrite post_update_status, post_update_x. subst stc.
  cbn [solver set_x x objFunc]. rewrite Hst, Hstop, Hit. reflexivity.
Qed.

(** A commit that leaves a status other than [Continue] is the last
    attempt of the call. *)
Lemma commit_ends s o x0 st0 n k st stb m :
  initialize s o x0 = inl st0 ->
  attempts n st0 = Some (k, st) ->
  body st = Next stb ->
  m_status (solver stb) <> Continue ->
  exists o',
    minimize (n + S m) s o x0 = Some (after_loop (set_objFunc o' stb)).
Proof.
  intros Hi Ha Hb Hs.
  assert (Hat : exists o',
             attempt st = (true, inr (after_loop (set_objFunc o' stb)))).
  { unfold attempt, after_body, loop_condition. rewrite Hb.
    destruct (callback _ _ _) as [go_on o'].
    rewrite bool_decide_eq_false_2 by exact Hs.
    rewrite andb_false_r. eauto. }
  destruct Hat as (o' & Hat). exists o'.
  exact (minimize_ends _ _ _ _ _ _ _ _ _ m Hi Ha Hat).
Qed.

(** X10. A commit that brings the iteration counter to the configured
    maximum ends the call with the status [IterationLimit], whatever the
    objective's [stop] and [callback] answer: with the exception "Reached
    iteration limit" unless [allow_out_of_iterations] is set, and with a
    normal return if it is. The step is committed in both cases. *)
Theorem iteration_limit_ends_the_call s o x0 st0 n k st stb m :
  initialize s o x0 = inl st0 ->
  attempts n st0 = Some (k, st) ->
  body st = Next stb ->
  (iterations (m_stop s)
   <= size_incr (iterations (m_current (solver st))))%N ->
  exists stf,
    minimize (n + S m) s o x0
    = Some (if allow_out_of_iterations s then Returned stf
            else Threw ReachedIterationLimit stf)
    /\ m_status (solver stf) = IterationLimit
    /\ m_error_code (solver stf) = SUCCESS
    /\ x stf = x stb
    /\ iterations (m_current (solver stf))
       = size_incr (iterations (m_current (solver st))).
Proof.
  intros Hi Ha Hb Hl.
  pose proof (error_code_at_attempt _ _ _ _ _ _ _ Hi Ha) as Hok.
  destruct (stop_criteria_at_attempt _ _ _ _ _ _ _ Hi Ha)
    as (_ & _ & Hal & Hstop).
  destruct (commit_spec _ _ Hb) as (st4 & _ & _ & _ & Hit & Ha' & He & Hs).
  specialize (He Hok).
  assert (Hlim : m_status (solver stb) = IterationLimit).
  { rewrite Hs, Hstop. cbn [iterations set_gradNorm].
    apply N.leb_le in Hl. rewrite Hl. reflexivity. }
  destruct (commit_ends _ _ _ _ _ _ _ _ m Hi Ha Hb) as (o' & Hm);
    [rewrite Hlim; discriminate|].
  pose proof (after_loop_result (set_objFunc o' stb)) as Hr.
  pose proof (after_loop_exit (set_objFunc o' stb) He) as Hx.
  cbn zeta in Hx. cbn [solver set_objFunc] in Hx.
  injection Hr as Hrx Hrs Hre _ Hrc _ _ _.
  cbn [x solver set_objFunc] in *.
  destruct (after_loop (set_objFunc o' stb)) as [stf|e stf];
    cbn [final] in *; exists stf.
  - destruct Hx as (_ & Hx).
    rewrite <- Hal, <- Ha', (Hx (eq_trans Hrs Hlim)).
    split; [exact Hm|]. repeat split; congruence.
  - destruct e; try contradiction. destruct Hx as (_ & _ & Hx).
    rewrite <- Hal, <- Ha', Hx.
    split; [exact Hm|]. repeat split; congruence.
Qed.

(** X11. A commit below the iteration limit at which the objective's
    [stop(x)] answers true ends the call with a normal return, the status
    [UserDefined] and the error code [SUCCESS]; the step is committed and
    counted. *)
Theorem objective_stop_ends_the_call s o x0 st0 n k st st4 m :
  initialize s o x0 = inl st0 ->
  attempts n st0 = Some (k, st) ->
  upto_update st = Next st4 ->
  isnan (rate st4) = false ->
  fst (stop (objFunc st4) (plus_scaled (x st) (rate st4) (delta_x st4)))
  = true ->
  (size_incr (iterations (m_current (solver st)))
   < iterations (m_stop s))%N ->
  exists stf,
    minimize (n + S m) s o x0 = Some (Returned stf)
    /\ m_status (solver stf) = UserDefined
    /\ m_error_code (solver stf) = SUCCESS
    /\ x stf = plus_scaled (x st) (rate st4) (delta_x st4)
    /\ iterations (m_current (solver stf))
       = size_incr (iterations (m_current (solver st))).
Proof.
  intros Hi Ha Hu Hn Hst Hl.
  pose proof (error_code_at_attempt _ _ _ _ _ _ _ Hi Ha) as Hok.
  destruct (stop_criteria_at_attempt _ _ _ _ _ _ _ Hi Ha)
    as (_ & _ & _ & Hstop).
  assert (Hb : exists stb, body st = Next stb).
  { rewrite body_upto_update, Hu. cbn [Flow_bind].
    unfold variable_update. rewrite Hn. cbn [Flow_bind]. eauto. }
  destruct Hb as (stb & Hb).
  destruct (commit_spec _ _ Hb) as (st4' & Hu' & _ & Hx & Hit & _ & He & Hs).
  rewrite Hu in Hu'. injection Hu' as <-. specialize (He Hok).
  assert (Hud : m_status (solver stb) = UserDefined).
  { rewrite Hs, Hstop, Hx, Hst. cbn [iterations set_gradNorm].
    apply N.leb_gt in Hl. rewrite Hl. reflexivity. }
  destruct (commit_ends _ _ _ _ _ _ _ _ m Hi Ha Hb) as (o' & Hm);
    [rewrite Hud; discriminate|].
  pose proof (after_loop_result (set_objFunc o' stb)) as Hr.
  pose proof (after_loop_exit (set_objFunc o' stb) He) as Hxx.
  cbn zeta in Hxx. cbn [solver set_objFunc] in Hxx.
  injection Hr as Hrx Hrs Hre _ Hrc _ _ _.
  cbn [x solver set_objFunc] in *.
  destruct (after_loop (set_objFunc o' stb)) as [stf|e stf];
    cbn [final] in *.
  - exists stf. split; [exact Hm|]. repeat split; congruence.
  - destruct e; try contradiction. destruct Hxx as (Hxx & _). congruence.
Qed.

(** ** A failed line search below gradient descent *)

(** X12. When the line search returns NaN while the descent strategy is
    below level 2, the failure is not fatal: the driver calls
    [increase_descent_strategy()] and executes [continue]. Nothing is
    committed: [x], the iteration counter, the status [Continue] and the
    error code are those the attempt had; the loop condition is evaluated
    next. *)
Theorem line_search_failure_below_gradient_descent st st4 :
  upto_update st = Next st4 ->
  isnan (rate st4) = true ->
  (descent_strategy (solver st4) < 2)%Z ->
  let st' := do_increase_descent_strategy st4 in
  body st = Continue_ st'
  /\ get_strategy (solver st')
     = increase_descent_strategy (get_strategy (solver st4))
  /\ x st' = x st
  /\ iterations (m_current (solver st'))
     = iterations (m_current (solver st))
  /\ m_status (solver st') = Continue
  /\ m_error_code (solver st') = m_error_code (solver st)
  /\ forall fuel,
       loop (S fuel) st
       = let '(go_on, o') :=
           callback (objFunc st') (m_current (solver st')) (x st') in
         if go_on then loop fuel (set_objFunc o' st')
         else Some (after_loop (set_objFunc o' st')).
Proof.
  intros Hu Hn Hl. cbn zeta.
  assert (Hb : body st = Continue_ (do_increase_descent_strategy st4)).
  { rewrite body_upto_update, Hu. cbn [Flow_bind]. unfold variable_update.
    rewrite Hn. apply Z.ltb_lt in Hl. rewrite Hl. reflexivity. }
  split; [exact Hb|].
  split; [symmetry; apply surjective_pairing|].
  pose proof (body_cases st) as H. rewrite Hb in H.
  destruct H as (Hf & Hs & He). injection Hf as Hx Hit _ _ _ _ _.
  split; [exact Hx|]. split; [exact Hit|]. split; [exact Hs|].
  split; [exact He|].
  intros fuel. cbn [loop]. rewrite Hb. unfold loop_condition.
  destruct (callback _ _ _) as [go_on o'].
  rewrite bool_decide_eq_true_2 by exact Hs. rewrite andb_true_r.
  reflexivity.
Qed.

(** ** The commits of a call, counted *)

(** The attempt at which the loop ends, with the number of commits of
    the call. *)
Lemma loop_commits fuel : forall st0 out,
  loop fuel st0 = Some out ->
  exists n k st c,
    attempts n st0 = Some (k, st)
    /\ attempt st = (c, inr out)
    /\ length (commits fuel st0) = (if c then S k else k).
Proof.
  induction fuel as [|fuel IH]; intros st0 out H; [discriminate|].
  rewrite loop_S in H. cbn [commits].
  destruct (attempt st0) as [c0 [st1|out1]] eqn:E; cbn [snd] in H.
  - destruct (IH _ _ H) as (n & k & st & c & Ha & Hat & Hlen).
    exists (S n), (if c0 then S k else k), st, c.
    split; [exact (attempts_front _ _ _ _ _ _ E Ha)|]. split; [exact Hat|].
    rewrite length_app, Hlen. destruct c0, c; reflexivity.
  - injection H as <-. exists O, O, st0, c0.
    split; [reflexivity|]. split; [exact E|].
    rewrite app_nil_r. destruct c0; reflexivity.
Qed.

Lemma body_iterations st :
  iterations (m_current (solver (state_of (body st))))
  = if fst (attempt st) then size_incr (iterations (m_current (solver st)))
    else iterations (m_current (solver st)).
Proof.
  rewrite attempt_committed. pose proof (body_cases st) as H.
  destruct (body st) as [stb|stb|stb|e stb] eqn:Hb; cbn [state_of].
  - exact (commit_advances _ _ Hb).
  - destruct H as (Hf & _). injection Hf as _ Hit _ _ _ _ _. exact Hit.
  - destruct H as (Hf & _). injection Hf as _ Hit _ _ _ _ _. exact Hit.
  - destruct H as (Hf & _). injection Hf as _ Hit _ _ _ _ _. exact Hit.
Qed.

Lemma attempt_current st :
  m_current
    (solver
       (match snd (attempt st) with inl st' => st' | inr out => final out end))
  = m_current (solver (state_of (body st))).
Proof.
  pose proof (attempt_result st) as H. injection H as _ _ _ _ H _ _ _.
  exact H.
Qed.

Lemma iterations_at_attempt st0 n k st :
  attempts n st0 = Some (k, st) ->
  iterations (m_current (solver st))
  = Nat.iter k size_incr (iterations (m_current (solver st0))).
Proof.
  intros Ha.
  refine (attempts_invariant
            (fun k st =>
               iterations (m_current (solver st))
               = Nat.iter k size_incr (iterations (m_current (solver st0))))
            st0 eq_refl _ n k st Ha).
  clear. intros k st c st' Hi Hat.
  pose proof (attempt_current st) as Hc. pose proof (body_iterations st) as Hb.
  rewrite Hat in Hc, Hb. cbn [fst snd] in Hc, Hb. rewrite Hc, Hb, Hi.
  destruct c; reflexivity.
Qed.

(** What ends an attempt that ends the call: an exception of the body, or
    the statements after the loop. *)
Lemma attempt_ends st c out :
  attempt st = (c, inr out) ->
  (exists e stb, out = Threw e stb) \/ exists st', out = after_loop st'.
Proof.
  unfold attempt, after_body.
  destruct (body st) as [stb|stb|stb|e stb];
    try destruct (loop_condition stb) as [[] st']; intros [= _ <-]; eauto.
Qed.

(** X13. The iteration counter counts the commits. However a call ends,
    [m_current.iterations] is what [Criteria::reset] left, incremented
    once (as a [size_t]) for every committed step of the call and for
    nothing else; after a normal return [solver_info["iterations"]]
    reports the same number. *)
Theorem iterations_count_the_commits fuel s o x0 out :
  minimize fuel s o x0 = Some out ->
  let count :=
    Nat.iter (length (minimize_commits fuel s o x0)) size_incr
      (iterations (Criteria_reset (m_current s))) in
  iterations (m_current (solver (final out))) = count
  /\ match out with
     | Returned stf =>
         solver_info (solver stf) !! "iterations" = Some (JUnsigned count)
     | Threw _ _ => True
     end.
Proof.
  unfold minimize, minimize_commits. cbn zeta.
  pose proof (initialize_cases s o x0) as Hi.
  assert (Hfail : forall e (stf : State),
             initialize s o x0 = inr (Threw e stf) ->
             m_current (solver stf) = Criteria_reset (m_current s) ->
             forall out',
               match initialize s o x0 with
               | inl st => loop fuel st
               | inr out => Some out
               end = Some out' ->
               iterations (m_current (solver (final out')))
               = Nat.iter
                   (length
                      match initialize s o x0 with
                      | inl st => commits fuel st
                      | inr _ => []
                      end) size_incr
                   (iterations (Criteria_reset (m_current s)))
               /\ match out' with
                  | Returned stf' =>
                      solver_info (solver stf') !! "iterations"
                      = Some
                          (JUnsigned
                             (Nat.iter
                                (length
                                   match initialize s o x0 with
                                   | inl st => commits fuel st
                                   | inr _ => []
                                   end) size_incr
                                (iterations (Criteria_reset (m_current s)))))
                  | Threw _ _ => True
                  end).
  { intros e stf -> Hc out' [= <-]. cbn. rewrite Hc. auto. }
  destruct (line_search_name s) as [name|];
    [destruct (m_line_search s) as [ls|]|].
  - destruct Hi as (st0 & -> & _ & Hc). intros Hl.
    destruct (loop_commits _ _ _ Hl) as (n & k & st & c & Ha & Hat & ->).
    pose proof (iterations_at_attempt _ _ _ _ Ha) as Hk.
    pose proof (attempt_current st) as Hcur.
    pose proof (body_iterations st) as Hb.
    rewrite Hat in Hcur, Hb. cbn [fst snd] in Hcur, Hb.
    assert (Hn : iterations (m_current (solver (final out)))
                 = Nat.iter (if c then S k else k) size_incr
                     (iterations (Criteria_reset (m_current s)))).
    { rewrite Hcur, Hb, Hk, Hc. destruct c; reflexivity. }
    split; [exact Hn|].
    destruct out as [stf|e stf]; [|exact I]. cbn [final] in Hn.
    rewrite <- Hn.
    destruct (attempt_ends _ _ _ Hat) as [(e & stb & [=])|(st' & Hst')].
    pose proof (after_loop_cases st') as Hal. rewrite <- Hst' in Hal.
    destruct Hal as (_ & _ & energy & Hup).
    destruct Hup as (_ & _ & _ & Hit & _). exact Hit.
  - destruct Hi as (stf & Hi & Hc & _). exact (Hfail _ _ Hi Hc out).
  - destruct Hi as (stf & Hi & Hc & _). exact (Hfail _ _ Hi Hc out).
Qed.

(** ** The stop criteria after a call *)

Lemma body_constants st :
  first_grad_norm_tol (solver (state_of (body st)))
  = first_grad_norm_tol (solver st)
  /\ allow_out_of_iterations (solver (state_of (body st)))
     = allow_out_of_iterations (solver st).
Proof.
  pose proof (body_cases st) as Hb.
  destruct (body st) as [stb|stb|stb|e stb]; cbn [state_of].
  - destruct Hb as (st4 & Hu & _ & ->).
    pose proof (upto_update_spec st) as Hs. rewrite Hu in Hs.
    destruct Hs as (Hf & _). cbn [state_of] in Hf.
    injection Hf as _ _ _ _ _ Hfi Ha.
    pose proof (post_update_constants
                  (set_x (plus_scaled (x st4) (rate st4) (delta_x st4)) st4))
      as Hc.
    injection Hc as _ Hc1 Hc2. rewrite Hc1, Hc2. auto.
  - destruct Hb as (Hf & _). injection Hf as _ _ _ _ _ Hfi Ha. auto.
  - destruct Hb as (Hf & _). injection Hf as _ _ _ _ _ Hfi Ha. auto.
  - destruct Hb as (Hf & _). injection Hf as _ _ _ _ _ Hfi Ha. auto.
Qed.

Lemma stop_criteria_left fuel s (o : P) (x0 : Vec) out :
  ready s = true ->
  minimize fuel s o x0 = Some out ->
  m_stop (solver (final out))
  = set_gradNorm
      match minimize_commits fuel s o x0 with
      | [] => first_grad_norm_tol s
      | _ :: _ => gradNorm (m_stop s)
      end (m_stop s)
  /\ first_grad_norm_tol (solver (final out)) = first_grad_norm_tol s
  /\ allow_out_of_iterations (solver (final out))
     = allow_out_of_iterations s.
Proof.
  unfold ready, has_line_search, minimize, minimize_commits. intros Hr.
  pose proof (initialize_cases s o x0) as Hi.
  destruct (line_search_name s) as [name|]; [|discriminate].
  destruct (m_line_search s) as [ls|]; [|discriminate].
  destruct Hi as (st0 & Hi & _). rewrite Hi. intros Hl.
  destruct (loop_commits _ _ _ Hl) as (n & k & st & c & Ha & Hat & Hlen).
  destruct (stop_criteria_at_attempt _ _ _ _ _ _ _ Hi Ha)
    as (Hg & Hf & Hal & Hstop).
  pose proof (attempt_result st) as Hres. rewrite Hat in Hres.
  cbn [snd] in Hres. injection Hres as _ _ _ Hms _ _ Hrf Hra.
  destruct (body_constants st) as (Hbf & Hba).
  pose proof (body_stop st) as Hbs.
  pose proof (attempt_committed st) as Hc. rewrite Hat in Hc.
  cbn [fst] in Hc.
  split; [|split; congruence].
  rewrite Hms, Hbs.
  destruct (body st); subst c; rewrite ?Hg, Hstop;
    destruct (commits fuel st0); destruct k; try discriminate Hlen;
    reflexivity.
Qed.

(** X14. What a call leaves in the stop criteria of the solver object:
    [m_stop.gradNorm] is the value it had at entry if the call committed
    a step, and [first_grad_norm_tol] if it committed none (however it
    ended); nothing else of [m_stop] changes, nor do
    [first_grad_norm_tol] and [allow_out_of_iterations]. The next call
    on the object saves this value as the tolerance to restore after its
    first commit. *)
Theorem stop_criteria_after_a_call fuel s o x0 out :
  ready s = true ->
  minimize fuel s o x0 = Some out ->
  let left :=
    match minimize_commits fuel s o x0 with
    | [] => first_grad_norm_tol s
    | _ :: _ => gradNorm (m_stop s)
    end in
  m_stop (solver (final out)) = set_gradNorm left (m_stop s)
  /\ first_grad_norm_tol (solver (final out)) = first_grad_norm_tol s
  /\ allow_out_of_iterations (solver (final out))
     = allow_out_of_iterations s
  /\ forall (o' : P) (x0' : Vec) st0',
       initialize (solver (final out)) o' x0' = inl st0' ->
       g_norm_tol st0' = left.
Proof.
  intros Hr Hm. cbn zeta.
  destruct (stop_criteria_left _ _ _ _ _ Hr Hm) as (Hs & Hf & Hal).
  split; [exact Hs|]. split; [exact Hf|]. split; [exact Hal|].
  intros o' x0' st0' Hi'.
  destruct (initialize_spec _ _ _ _ Hi') as (_ & _ & -> & _).
  rewrite Hs. reflexivity.
Qed.

(** C4, where it fails. The tolerance is restored by a commit and by
    nothing else (line 298): a call that ends before its first commit
    leaves [first_grad_norm_tol * characteristic_length] in
    [m_stop.gradNorm] of the solver object. The next call on the object
    saves that value as the tolerance to restore, so that throughout that
    call, also after its first commit, the gradNorm stop threshold is
    [first_grad_norm_tol * characteristic_length] and not
    [grad_norm * characteristic_length]. *)
Theorem tolerance_is_restored_by_a_commit_only (blank : Solver L D)
    (p : Params.t) (cl : double) s fuel (o : P) (x0 : Vec) out
    (o' : P) (x0' : Vec) st0' n k st :
  Solver_new blank p cl = Some s ->
  minimize fuel s o x0 = Some out ->
  minimize_commits fuel s o x0 = [] ->
  initialize (solver (final out)) o' x0' = inl st0' ->
  attempts n st0' = Some (k, st) ->
  gradNorm (m_stop (solver (final out)))
  = mul (Params.first_grad_norm_tol p) cl
  /\ g_norm_tol st = mul (Params.first_grad_norm_tol p) cl
  /\ gradNorm (m_stop (solver st)) = mul (Params.first_grad_norm_tol p) cl.
Proof.
  intros Hnew Hm Hc Hi' Ha.
  destruct (Solver_new_grad_norm _ _ _ _ Hnew) as (_ & Hf).
  destruct (stop_criteria_left _ _ _ _ _ (Solver_new_ready _ _ _ _ Hnew) Hm)
    as (Hs & Hf' & _).
  rewrite Hc in Hs.
  destruct (stop_criteria_at_attempt _ _ _ _ _ _ _ Hi' Ha)
    as (Hg & Hf'' & _ & Hstop).
  rewrite Hg, Hstop, Hf', Hs, <- Hf. destruct k; auto.
Qed.

(** ** Convergence *)






(** ** A direction that is not a number *)

(** X16. When the direction passes the descent test but its norm is NaN,
    the driver calls [increase_descent_strategy()] and executes
    [continue] with the status [Continue] (the status [UserDefined] that
    it sets in between is overwritten at once). Nothing is committed:
    [x], the iteration counter and the error code are those the attempt
    had; the line search is not called, and the loop condition is
    evaluated next. *)
Theorem nan_direction_is_retried st st2 :
  upto_direction st = Next st2 ->
  not_a_descent_direction (propose_direction st2) = false ->
  isnan (norm (delta_x (propose_direction st2))) = true ->
  let st' :=
    upd_solver (set_m_status Continue)
      (upd_solver (set_m_status UserDefined)
         (do_increase_descent_strategy (propose_direction st2))) in
  body st = Continue_ st'
  /\ get_strategy (solver st')
     = increase_descent_strategy
         (get_strategy (solver (propose_direction st2)))
  /\ x st' = x st
  /\ iterations (m_current (solver st'))
     = iterations (m_current (solver st))
  /\ m_status (solver st') = Continue
  /\ m_error_code (solver st') = m_error_code (solver st)
  /\ m_line_search (solver st') = m_line_search (solver st2)
  /\ forall fuel,
       loop (S fuel) st
       = let '(go_on, o') :=
           callback (objFunc st') (m_current (solver st')) (x st') in
         if go_on then loop fuel (set_objFunc o' st')
         else Some (after_loop (set_objFunc o' st')).
Proof.
  intros Hu Hd Hn. cbn zeta.
  set (st' := upd_solver (set_m_status Continue)
                (upd_solver (set_m_status UserDefined)
                   (do_increase_descent_strategy (propose_direction st2)))).
  assert (Hb : body st = Continue_ st').
  { rewrite body_upto_direction, Hu. cbn [Flow_bind].
    unfold compute_direction. rewrite Hd. cbn zeta. rewrite Hn.
    reflexivity. }
  split; [exact Hb|].
  split; [symmetry; apply surjective_pairing|].
  pose proof (body_cases st) as H. rewrite Hb in H.
  destruct H as (Hf & Hs & He). injection Hf as Hx Hit _ _ _ _ _.
  split; [exact Hx|]. split; [exact Hit|]. split; [exact Hs|].
  split; [exact He|].
  split; [subst st'; unfold propose_direction; split_cases; reflexivity|].
  intros fuel. cbn [loop]. rewrite Hb. unfold loop_condition.
  destruct (callback _ _ _) as [go_on o'].
  rewrite bool_decide_eq_true_2 by exact Hs. rewrite andb_true_r.
  reflexivity.
Qed.

(** ** The iteration limit as a bound *)

Lemma size_incr_small (i : N) :
  (i + 1 < size_max)%N -> size_incr i = (i + 1)%N.
Proof. intros H. unfold size_incr. apply N.mod_small. exact H. Qed.

Lemma attempt_max_iterations st :
  iterations
    (m_stop
       (solver
          (match snd (attempt st) with
           | inl st' => st'
           | inr out => final out
           end)))
  = iterations (m_stop (solver st)).
Proof.
  pose proof (attempt_result st) as H. injection H as _ _ _ H _ _ _ _.
  rewrite H, body_stop. destruct (body st); reflexivity.
Qed.

(** An attempt that commits and is followed by another attempt has not
    reached the limit. *)
Lemma commit_below_the_limit st st' :
  attempt st = (true, inl st') ->
  (size_incr (iterations (m_current (solver st)))
   < iterations (m_stop (solver st)))%N.
Proof.
  intros Hat.
  destruct (attempt_goes_on _ _ _ Hat)
    as (stb & [(_ & Hb)|(Hc & _)] & _ & Hs & _); [|discriminate].
  destruct (commit_spec _ _ Hb) as (st4 & _ & _ & _ & _ & _ & _ & Hst).
  rewrite Hs in Hst. apply N.leb_gt.
  destruct (_ <=? _)%N; [discriminate|reflexivity].
Qed.

Lemma commits_bound (limit : N) : forall fuel st,
  iterations (m_stop (solver st)) = limit ->
  (limit < size_max)%N ->
  (iterations (m_current (solver st)) < limit)%N
  \/ iterations (m_current (solver st)) = 0%N ->
  (length (commits fuel st)
   <= Nat.max (N.to_nat (limit - iterations (m_current (solver st)))) 1)%nat.
Proof.
  induction fuel as [|fuel IH]; intros st Hl Hmax Hi; [simpl; lia|].
  cbn [commits].
  pose proof (attempt_max_iterations st) as Hm.
  pose proof (attempt_current st) as Hc.
  pose proof (body_iterations st) as Hb.
  assert (Hsmall : size_incr (iterations (m_current (solver st)))
                   = (iterations (m_current (solver st)) + 1)%N).
  { apply size_incr_small. unfold size_max in *. lia. }
  destruct (attempt st) as [c [st'|out]] eqn:E; cbn [fst snd] in *.
  - rewrite length_app.
    assert (Hl' : iterations (m_stop (solver st')) = limit) by congruence.
    destruct c; cbn [length].
    + pose proof (commit_below_the_limit _ _ E) as Hlt.
      rewrite Hl, Hsmall in Hlt.
      assert (Hi' : iterations (m_current (solver st'))
                    = (iterations (m_current (solver st)) + 1)%N)
        by congruence.
      assert (Hlt' : (iterations (m_current (solver st')) < limit)%N
                     \/ iterations (m_current (solver st')) = 0%N)
        by (left; lia).
      specialize (IH st' Hl' Hmax Hlt').
      rewrite Hi' in IH. lia.
    + assert (Hi' : iterations (m_current (solver st'))
                    = iterations (m_current (solver st))) by congruence.
      assert (Hlt' : (iterations (m_current (solver st')) < limit)%N
                     \/ iterations (m_current (solver st')) = 0%N)
        by (rewrite Hi'; exact Hi).
      specialize (IH st' Hl' Hmax Hlt').
      rewrite Hi' in IH. simpl. exact IH.
  - rewrite app_nil_r. destruct c; simpl; lia.
Qed.

(** X17. The configured [max_iterations] bounds the steps of a call, not
    its attempts: with a [Criteria::reset] that sets the counter to 0,
    a call never commits more than [max(max_iterations, 1)] steps,
    however long it runs. *)
Theorem max_iterations_bounds_the_commits fuel s o x0 :
  iterations (Criteria_reset (m_current s)) = 0%N ->
  (iterations (m_stop s) < size_max)%N ->
  (length (minimize_commits fuel s o x0)
   <= Nat.max (N.to_nat (iterations (m_stop s))) 1)%nat.
Proof.
  intros H0 Hmax. unfold minimize_commits.
  pose proof (initialize_cases s o x0) as Hi.
  destruct (initialize s o x0) as [st0|out] eqn:E; [|simpl; lia].
  destruct (initialize_spec _ _ _ _ E) as (_ & _ & _ & _ & _ & Hs & _).
  assert (Hc : m_current (solver st0) = Criteria_reset (m_current s)).
  { destruct (line_search_name s); [destruct (m_line_search s)|];
      destruct Hi as (st & Hi & Hc); try discriminate Hi.
    injection Hi as <-. apply Hc. }
  assert (Hl : iterations (m_stop (solver st0)) = iterations (m_stop s))
    by (rewrite Hs; reflexivity).
  pose proof (commits_bound _ fuel st0 Hl Hmax) as Hb.
  rewrite Hc, H0 in Hb. rewrite N.sub_0_r in Hb. apply Hb. right.
  reflexivity.
Qed.

(** ** Naming the states of a run, continued *)


End MoreDriverProperties.

(** * The driver on concrete inputs *)

Import Demo.

Ltac evaluate := vm_compute; reflexivity.

(** The constructor on [params 10] with characteristic length 2. *)
Lemma thresholds_scaled_once_witness :
  Solver_new (blank 2) (params 10) two = Some gradient_descent
  /\ gradNorm (m_stop gradient_descent)
     = mul (Params.grad_norm (params 10)) two
  /\ first_grad_norm_tol gradient_descent
     = mul (Params.first_grad_norm_tol (params 10)) two
  /\ iterations (m_stop gradient_descent)
     = Params.max_iterations (params 10).
Proof.
  assert (H : Solver_new (blank 2) (params 10) two = Some gradient_descent)
    by evaluate.
  split; [exact H|].
  destruct (thresholds_scaled_once (blank 2) (params 10) two
              gradient_descent H)
    as (_ & _ & Hg & _ & Hf & Hi & _).
  split; [exact Hg|]. split; [exact Hf|exact Hi].
Defined.

(** The averages written for the solver as constructed. *)
Lemma averaged_timings_witness :
  m_line_search gradient_descent = Some (fixed_step one)
  /\ solver_info (update_solver_info zero gradient_descent) !! "time_grad"
     = Some (JDouble
               (div (grad_time (times gradient_descent))
                    (of_N (N.max (iterations (m_current gradient_descent))
                             1)))).
Proof.
  assert (H : m_line_search gradient_descent = Some (fixed_step one))
    by evaluate.
  split; [exact H|].
  exact (proj1 (averaged_timings zero gradient_descent (fixed_step one) H)).
Defined.

(** Gradient descent on x * x from x = 1 with a line search that always
    fails: [st4] is the state in which the line search has returned. *)

Lemma line_search_failure_on_gradient_descent_witness :
  initialize failing quadratic [one] = inl failing_st0
  /\ upto_update failing_st0 = Next failing_st4
  /\ isnan (rate failing_st4) = true
  /\ descent_strategy (solver failing_st4) = 2%Z
  /\ exists stf,
       minimize 1 failing quadratic [one]
       = Some (Threw LineSearchFailedOnGD stf)
       /\ m_status (solver stf) = UserDefined
       /\ m_error_code (solver stf) = SUCCESS
       /\ m_error_code (solver stf) <> LINE_SEARCH_FAILED
       /\ x stf = x failing_st0.
Proof.
  assert (H1 : initialize failing quadratic [one] = inl failing_st0)
    by (apply enters_loop_start; evaluate).
  assert (H2 : upto_update failing_st0 = Next failing_st4)
    by (apply (falls_through_Next (upto_update failing_st0)); evaluate).
  assert (H3 : isnan (rate failing_st4) = true) by evaluate.
  assert (H4 : descent_strategy (solver failing_st4) = 2%Z) by evaluate.
  split; [exact H1|]. split; [exact H2|]. split; [exact H3|].
  split; [exact H4|].
  exact (line_search_failure_on_gradient_descent
           failing quadratic [one] _ 0 0 _ _ 0 H1 eq_refl H2 H3 H4).
Defined.

(** An objective whose gradient is NaN at the starting point, and one
    whose gradient is +infinity there. *)

Lemma nan_gradient_is_fatal_witness :
  initialize gradient_descent kink [one] = inl kink_st0
  /\ compute_energy kink_st0 = Next kink_st1
  /\ isnan (norm (fst (gradient (objFunc kink_st1) (x kink_st1)
                         (grad kink_st1)))) = true
  /\ (exists stf,
        minimize 1 gradient_descent kink [one]
        = Some (Threw GradientIsNaN stf)
        /\ m_status (solver stf) = UserDefined
        /\ m_error_code (solver stf) = NAN_ENCOUNTERED
        /\ x stf = x kink_st0
        /\ iterations (m_current (solver stf))
           = iterations (m_current (solver kink_st0)))
  /\ initialize halving cliff [one] = inl (start halving cliff [one])
  /\ compute_energy (start halving cliff [one]) = Next cliff_st1
  /\ isnan (norm (fst (gradient (objFunc cliff_st1) (x cliff_st1)
                         (grad cliff_st1)))) = false
  /\ exists st2,
       (compute_gradient cliff_st1 = Next st2
        \/ compute_gradient cliff_st1 = Break_ st2)
       /\ gradNorm (m_current (solver st2))
          = norm (fst (gradient (objFunc cliff_st1) (x cliff_st1)
                         (grad cliff_st1)))
       /\ m_status (solver st2)
          = checkConvergence (m_stop (solver st2)) (m_current (solver st2))
       /\ m_error_code (solver st2) = SUCCESS
       /\ forall stf,
            body (start halving cliff [one]) <> Throw_ GradientIsNaN stf.
Proof.
  assert (H1 : initialize gradient_descent kink [one] = inl kink_st0)
    by (apply enters_loop_start; evaluate).
  assert (H2 : compute_energy kink_st0 = Next kink_st1)
    by (apply (falls_through_Next (compute_energy kink_st0)); evaluate).
  assert (H3 : isnan (norm (fst (gradient (objFunc kink_st1) (x kink_st1)
                                   (grad kink_st1)))) = true) by evaluate.
  assert (K1 : initialize halving cliff [one]
               = inl (start halving cliff [one]))
    by (apply enters_loop_start; evaluate).
  assert (K2 : compute_energy (start halving cliff [one]) = Next cliff_st1)
    by (apply (falls_through_Next
                 (compute_energy (start halving cliff [one])));
        evaluate).
  assert (K3 : isnan (norm (fst (gradient (objFunc cliff_st1) (x cliff_st1)
                                   (grad cliff_st1)))) = false) by evaluate.
  split; [exact H1|]. split; [exact H2|]. split; [exact H3|].
  split.
  { exact (proj1 (nan_gradient_is_fatal
                    gradient_descent kink [one] _ 0 0 _ _ 0 H1 eq_refl H2)
             H3). }
  split; [exact K1|]. split; [exact K2|]. split; [exact K3|].
  exact (proj2 (nan_gradient_is_fatal
                  halving cliff [one] _ 0 0 _ _ 0 K1 eq_refl K2) K3).
Defined.

(** C2 fails for an infinite gradient: the gradient of [cliff] at the
    starting point has the norm +infinity, and the call commits the step
    and returns normally with the status [FDeltaTolerance] and the error
    code [SUCCESS]. *)

Lemma infinite_gradient_is_not_fatal :
  compute_energy (start halving cliff [one]) = Next cliff_st1
  /\ norm (fst (gradient (objFunc cliff_st1) (x cliff_st1) (grad cliff_st1)))
     = infinity
  /\ isfinite
       (norm (fst (gradient (objFunc cliff_st1) (x cliff_st1)
                     (grad cliff_st1)))) = false
  /\ minimize 2 halving cliff [one] = Some (Returned cliff_end)
  /\ m_status (solver cliff_end) = FDeltaTolerance
  /\ m_error_code (solver cliff_end) = SUCCESS
  /\ iterations (m_current (solver cliff_end)) = 1%N.
Proof.
  split.
  { apply (falls_through_Next (compute_energy (start halving cliff [one]))).
    evaluate. }
  split; [evaluate|]. split; [evaluate|].
  split; [apply minimize_returned; evaluate|].
  split; [evaluate|]. split; evaluate.
Qed.

(** A solver that starts at level 0, where its direction is the gradient
    itself: the first attempt is rejected by the descent test. *)

Lemma retry_does_not_advance_witness :
  upto_direction uphill_st0 = Next uphill_st2
  /\ not_a_descent_direction (propose_direction uphill_st2) = true
  /\ exists st',
       body uphill_st0 = Continue_ st'
       /\ x st' = x uphill_st0
       /\ iterations (m_current (solver st'))
          = iterations (m_current (solver uphill_st0))
       /\ m_status (solver st') = Continue.
Proof.
  assert (H1 : upto_direction uphill_st0 = Next uphill_st2)
    by (apply (falls_through_Next (upto_direction uphill_st0)); evaluate).
  assert (H2 : not_a_descent_direction (propose_direction uphill_st2) = true)
    by evaluate.
  split; [exact H1|]. split; [exact H2|].
  destruct (retry_does_not_advance _ _ H1 H2)
    as (Hb & _ & Hx & Hi & Hs & _).
  eexists. split; [exact Hb|]. split; [exact Hx|].
  split; [exact Hi|exact Hs].
Defined.

(** C3 fails when the callback returns false: the first attempt is
    rejected by the descent test ([increase_descent_strategy] brings the
    level from 0 to 1), and the call returns without another attempt,
    although it had the fuel for four more: one direction was computed,
    nothing was committed, the status is [Continue]. *)

Lemma callback_ends_the_call_instead_of_a_retry :
  upto_direction hasty_st0 = Next hasty_st2
  /\ not_a_descent_direction (propose_direction hasty_st2) = true
  /\ minimize 5 uphill hasty [one] = Some (Returned hasty_end)
  /\ directions (derived (solver hasty_end)) = 1%nat
  /\ descent_strategy (solver hasty_end) = 1%Z
  /\ m_status (solver hasty_end) = Continue
  /\ iterations (m_current (solver hasty_end)) = 0%N.
Proof.
  split.
  { apply (falls_through_Next (upto_direction hasty_st0)). evaluate. }
  split; [evaluate|].
  split; [apply minimize_returned; evaluate|].
  split; [evaluate|]. split; [evaluate|]. split; evaluate.
Qed.

(** The same rejected attempt with a callback that lets the loop go on:
    the retry evaluates the same energy, and its [fDelta] is +0. *)
Lemma retry_compares_with_same_energy_witness :
  upto_direction uphill_st0 = Next uphill_st2
  /\ not_a_descent_direction (propose_direction uphill_st2) = true
  /\ exists st',
       body uphill_st0 = Continue_ st'
       /\ old_energy st' = energy st'
       /\ fDelta
            (m_current (solver (state_of (body (snd (loop_condition st'))))))
          = zero.
Proof.
  assert (H1 : upto_direction uphill_st0 = Next uphill_st2)
    by (apply (falls_through_Next (upto_direction uphill_st0)); evaluate).
  assert (H2 : not_a_descent_direction (propose_direction uphill_st2) = true)
    by evaluate.
  split; [exact H1|]. split; [exact H2|].
  destruct (retry_compares_with_same_energy _ _ H1 H2)
    as (st' & Hb & _ & _ & Ho & _ & _ & Hz).
  assert (Hs : state_of (body uphill_st0) = st')
    by exact (f_equal state_of Hb).
  exists st'. split; [exact Hb|]. split; [exact Ho|].
  apply Hz. rewrite <- Hs. evaluate.
Defined.

(** Gradient descent with the step 1/2 reaches the minimum of x * x in
    one step; the callback then asks to stop. *)

Lemma callback_stop_witness :
  initialize halving hasty [one] = inl stop_st0
  /\ body stop_st0 = Next stop_stb
  /\ m_status (solver stop_stb) = Continue
  /\ fst (callback (objFunc stop_stb) (m_current (solver stop_stb))
            (x stop_stb)) = false
  /\ exists stf,
       minimize 1 halving hasty [one] = Some (Returned stf)
       /\ m_status (solver stf) = Continue
       /\ m_error_code (solver stf) = SUCCESS.
Proof.
  assert (H1 : initialize halving hasty [one] = inl stop_st0)
    by (apply enters_loop_start; evaluate).
  assert (H2 : body stop_st0 = Next stop_stb)
    by (apply (falls_through_Next (body stop_st0)); evaluate).
  assert (H3 : m_status (solver stop_stb) = Continue) by evaluate.
  assert (H4 : fst (callback (objFunc stop_stb) (m_current (solver stop_stb))
                      (x stop_stb)) = false) by evaluate.
  split; [exact H1|]. split; [exact H2|]. split; [exact H3|].
  split; [exact H4|].
  exact (callback_stop halving hasty [one] _ 0 0 _ _ 0
           H1 eq_refl (or_introl H2) H3 H4).
Defined.

(** C7 fails when the attempt reached the iteration limit: with
    [max_iterations = 1] the first commit sets the status
    [IterationLimit], the callback returns false, and the call ends with
    the exception "Reached iteration limit". *)

Lemma callback_stop_at_the_iteration_limit :
  body (start one_shot hasty [one]) = Next limit_stb
  /\ fst (callback (objFunc limit_stb) (m_current (solver limit_stb))
            (x limit_stb)) = false
  /\ minimize 1 one_shot hasty [one]
     = Some (Threw ReachedIterationLimit limit_end)
  /\ m_status (solver limit_end) = IterationLimit.
Proof.
  split.
  { apply (falls_through_Next (body (start one_shot hasty [one]))).
    evaluate. }
  split; [evaluate|].
  split; [apply minimize_threw; evaluate|evaluate].
Qed.

(** Two attempts of gradient descent with the step 1: the second starts
    after one commit. *)

Lemma first_iteration_tolerance_witness :
  Solver_new (blank 2) (params 10) two = Some gradient_descent
  /\ initialize gradient_descent quadratic [one] = inl descent_st0
  /\ attempts 1 descent_st0 = Some (1%nat, attempt_state 1 descent_st0)
  /\ gradNorm (m_stop (solver descent_st0))
     = mul (Params.first_grad_norm_tol (params 10)) two
  /\ gradNorm (m_stop (solver (attempt_state 1 descent_st0)))
     = mul (Params.grad_norm (params 10)) two.
Proof.
  assert (H1 : Solver_new (blank 2) (params 10) two = Some gradient_descent)
    by evaluate.
  assert (H2 : initialize gradient_descent quadratic [one] = inl descent_st0)
    by (apply enters_loop_start; evaluate).
  assert (H3 : attempts 1 descent_st0
               = Some (1%nat, attempt_state 1 descent_st0))
    by (apply commits_before_attempts; evaluate).
  split; [exact H1|]. split; [exact H2|]. split; [exact H3|].
  split.
  - exact (proj1 (first_iteration_tolerance (blank 2) (params 10) two
                    gradient_descent quadratic [one] _ 0 0 _ H1 H2 eq_refl)).
  - exact (proj1 (first_iteration_tolerance (blank 2) (params 10) two
                    gradient_descent quadratic [one] _ 1 1 _ H1 H2 H3)).
Defined.


(** C9 fails for a call that ends with an exception: the energy of
    [undefined] is NaN, the call ends with the status [UserDefined] and
    the error code [NAN_ENCOUNTERED], and [solver_info] still holds the
    status and the error code recorded at the entry. *)


(** A call that ends with an exception after one commit: [x] is the
    committed value. *)
Lemma x_changes_only_at_commit_witness :
  minimize 1 one_shot hasty [one]
  = Some (Threw ReachedIterationLimit limit_end)
  /\ minimize_commits 1 one_shot hasty [one] = [[zero]]
  /\ x limit_end = List.last (minimize_commits 1 one_shot hasty [one]) [one].
Proof.
  assert (H : minimize 1 one_shot hasty [one]
              = Some (Threw ReachedIterationLimit limit_end))
    by (apply minimize_threw; evaluate).
  split; [exact H|]. split; [evaluate|].
  exact (proj2 x_changes_only_at_commit 1%nat one_shot hasty [one] _ H).
Defined.

(** * More runs on concrete inputs *)

(** ** Solver::create *)

(** A document that names a line search the factory does not know: the
    rules default its "solver" to "Newton", whose constructor throws. *)
Lemma available_solvers_are_created_witness :
  In "Newton" available_solvers
  /\ verify_json false
       ({["line_search" := JString "Backtracking"]} : gmap string json)
       default_rules = true
  /\ get_solver
       (inject_defaults
          ({["line_search" := JString "Backtracking"]} : gmap string json)
          default_rules)
     = Some "Newton"
  /\ Solver_create (Holds default_rules)
       ({["line_search" := JString "Backtracking"]} : gmap string json)
       ∅ one false
     = inl Create.ConstructorThrew
  /\ exists call,
       In ("Newton", Create.kind call) dispatched_names
       /\ Create.solver_params call
          = inject_defaults
              ({["line_search" := JString "Backtracking"]}
                 : gmap string json) default_rules
       /\ Create.characteristic_length call = one
       /\ Solver_create (Holds default_rules)
            ({["line_search" := JString "Backtracking"]} : gmap string json)
            ∅ one false
          = make_unique call.
Proof.
  assert (H1 : In "Newton" available_solvers) by (simpl; auto).
  assert (H2 : verify_json false
                 ({["line_search" := JString "Backtracking"]}
                    : gmap string json) default_rules = true)
    by evaluate.
  assert (H3 : get_solver
                 (inject_defaults
                    ({["line_search" := JString "Backtracking"]}
                       : gmap string json) default_rules)
               = Some "Newton") by evaluate.
  split; [exact H1|]. split; [exact H2|]. split; [exact H3|].
  split; [evaluate|].
  destruct (available_solvers_are_created default_rules
              ({["line_search" := JString "Backtracking"]}
                 : gmap string json) ∅ one false "Newton" H1 H2 H3)
    as (call & Hd & Hp & Hc & Hm & _).
  exists call. split; [exact Hd|]. split; [exact Hp|].
  split; [exact Hc|exact Hm].
Defined.

(** A document that asks for "L-BFGS": [create] returns the solver that
    the constructor builds. *)
Lemma create_builds_from_valid_documents_witness :
  Solver_create (Holds default_rules)
    ({["solver" := JString "L-BFGS"]} : gmap string json) ∅ one true
  = inr (created
           (Solver_create (Holds default_rules)
              ({["solver" := JString "L-BFGS"]} : gmap string json)
              ∅ one true) (blank 0))
  /\ exists rules name call,
       Holds default_rules = Holds rules
       /\ verify_json true
            ({["solver" := JString "L-BFGS"]} : gmap string json) rules
          = true
       /\ get_solver
            (inject_defaults
               ({["solver" := JString "L-BFGS"]} : gmap string json) rules)
          = Some name
       /\ In (name, Create.kind call) dispatched_names
       /\ Create.solver_params call
          = inject_defaults
              ({["solver" := JString "L-BFGS"]} : gmap string json) rules
       /\ Create.characteristic_length call = one
       /\ Create.linear_solver_params call
          = match Create.kind call with
            | GradientDescent | LBFGS => None
            | _ => Some ∅
            end
       /\ construct call
          = Some (created
                    (Solver_create (Holds default_rules)
                       ({["solver" := JString "L-BFGS"]}
                          : gmap string json) ∅ one true) (blank 0)).
Proof.
  assert (H : Solver_create (Holds default_rules)
                ({["solver" := JString "L-BFGS"]} : gmap string json)
                ∅ one true
              = inr (created
                       (Solver_create (Holds default_rules)
                          ({["solver" := JString "L-BFGS"]}
                             : gmap string json) ∅ one true) (blank 0)))
    by (apply creates_created; evaluate).
  split; [exact H|].
  exact (proj1 (create_builds_from_valid_documents (Holds default_rules)
                  ({["solver" := JString "L-BFGS"]} : gmap string json)
                  ∅ one true _) H).
Defined.

(** A document that asks for "newton", in lower case. *)
Lemma unrecognized_solver_names_witness :
  verify_json false ({["solver" := JString "newton"]} : gmap string json)
    default_rules = true
  /\ get_solver
       (inject_defaults
          ({["solver" := JString "newton"]} : gmap string json)
          default_rules)
     = Some "newton"
  /\ Solver_create (Holds default_rules)
       ({["solver" := JString "newton"]} : gmap string json) ∅ one false
     = inl (Create.RuntimeError "Unrecognized solver type: newton").
Proof.
  assert (H1 : verify_json false
                 ({["solver" := JString "newton"]} : gmap string json)
                 default_rules = true) by evaluate.
  assert (H2 : get_solver
                 (inject_defaults
                    ({["solver" := JString "newton"]} : gmap string json)
                    default_rules)
               = Some "newton") by evaluate.
  split; [exact H1|]. split; [exact H2|].
  apply (proj2 (unrecognized_solver_names default_rules
                  ({["solver" := JString "newton"]} : gmap string json)
                  ∅ one false "newton" H1 H2)).
  intros H. simpl in H.
  repeat (destruct H as [H|H]; [discriminate H|]). exact H.
Defined.

(** ** The solver object *)

(** Two updates of the solver as constructed. *)
Lemma update_solver_info_absorbs_witness :
  ~ In "line_search" (map fst (assignments zero gradient_descent))
  /\ update_solver_info one (update_solver_info zero gradient_descent)
     = update_solver_info one gradient_descent
  /\ solver_info (update_solver_info zero gradient_descent) !! "line_search"
     = solver_info gradient_descent !! "line_search".
Proof.
  assert (H : ~ In "line_search"
                (map fst (assignments zero gradient_descent))).
  { intros H. vm_compute in H.
    repeat (destruct H as [H|H]; [discriminate H|]). exact H. }
  destruct (update_solver_info_absorbs zero one gradient_descent)
    as [Ha Hk].
  split; [exact H|]. split; [exact Ha|exact (Hk "line_search" H)].
Defined.

(** [reset] on the solver as constructed. *)
Lemma reset_keeps_the_line_search_name_witness :
  line_search_name gradient_descent = Some "None"
  /\ exists s',
       reset 1 gradient_descent = inl s'
       /\ line_search_name s' = Some "None"
       /\ times s' = zero_times.
Proof.
  assert (H : line_search_name gradient_descent = Some "None") by evaluate.
  split; [exact H|].
  pose proof (reset_keeps_the_line_search_name 1 gradient_descent) as R.
  rewrite H in R. destruct R as (s' & H1 & _ & H3 & H4 & _).
  exists s'. split; [exact H1|]. split; [exact H3|exact H4].
Defined.

(** The constructor on [params 10] with characteristic length 2. *)
Lemma constructed_solver_enters_the_loop_witness :
  Solver_new (blank 2) (params 10) two = Some gradient_descent
  /\ line_search_name gradient_descent
     = Some (Params.line_search_method (params 10))
  /\ exists st0, initialize gradient_descent quadratic [one] = inl st0.
Proof.
  assert (H : Solver_new (blank 2) (params 10) two = Some gradient_descent)
    by evaluate.
  split; [exact H|].
  destruct (constructed_solver_enters_the_loop (blank 2) (params 10) two
              gradient_descent quadratic [one] H) as (Hn & _ & Hi).
  split; [exact Hn|exact Hi].
Defined.

(** ** Whole calls *)

(** A call that ends with a fatal error leaves the solver ready for the
    next call. *)
Lemma solver_stays_ready_witness :
  ready gradient_descent = true
  /\ minimize 1 gradient_descent undefined [one]
     = Some (Threw EnergyNotFinite undefined_end)
  /\ ready (solver (final (Threw EnergyNotFinite undefined_end))) = true
  /\ exists st0',
       initialize (solver (final (Threw EnergyNotFinite undefined_end)))
         quadratic [one] = inl st0'.
Proof.
  assert (H1 : ready gradient_descent = true) by evaluate.
  assert (H2 : minimize 1 gradient_descent undefined [one]
               = Some (Threw EnergyNotFinite undefined_end))
    by (apply minimize_threw; evaluate).
  split; [exact H1|]. split; [exact H2|].
  destruct (solver_stays_ready 1 gradient_descent undefined [one]
              (Threw EnergyNotFinite undefined_end) H1 H2) as (_ & Hr & Hi).
  split; [exact Hr|exact (Hi quadratic [one])].
Defined.

(** Halving steps on x * x from x = 1: the first attempt commits x = 0,
    the second one finds the gradient norm 0 and returns. *)
Lemma how_a_call_ends_witness :
  minimize 2 halving quadratic [one] = Some (Returned halving_end)
  /\ m_error_code (solver (final (Returned halving_end))) = SUCCESS.
Proof.
  assert (H : minimize 2 halving quadratic [one]
              = Some (Returned halving_end))
    by (apply minimize_returned; evaluate).
  split; [exact H|].
  exact (proj1 (how_a_call_ends 2 halving quadratic [one]
                  (Returned halving_end) H)).
Defined.

(** An objective whose value is +infinity. *)
Lemma non_finite_energy_is_fatal_witness :
  initialize gradient_descent unbounded [one] = inl unbounded_st0
  /\ isfinite (fst (value (objFunc unbounded_st0) (x unbounded_st0))) = false
  /\ exists stb stf,
       compute_energy unbounded_st0 = Throw_ EnergyNotFinite stb
       /\ minimize 1 gradient_descent unbounded [one]
          = Some (Threw EnergyNotFinite stf)
       /\ stf = charge total_time set_total_time stb
       /\ m_status (solver stf) = UserDefined
       /\ m_error_code (solver stf) = NAN_ENCOUNTERED
       /\ x stf = x unbounded_st0
       /\ iterations (m_current (solver stf))
          = iterations (m_current (solver unbounded_st0))
       /\ solver_info (solver stf) = solver_info (solver unbounded_st0).
Proof.
  assert (H1 : initialize gradient_descent unbounded [one]
               = inl unbounded_st0)
    by (apply enters_loop_start; evaluate).
  assert (H2 : isfinite (fst (value (objFunc unbounded_st0)
                                (x unbounded_st0))) = false) by evaluate.
  split; [exact H1|]. split; [exact H2|].
  exact (non_finite_energy_is_fatal
           gradient_descent unbounded [one] _ 0 0 _ 0 H1 eq_refl H2).
Defined.

(** Gradient descent with [max_iterations = 1]: the first commit reaches
    the limit. *)
Lemma iteration_limit_ends_the_call_witness :
  initialize one_shot quadratic [one] = inl one_shot_st0
  /\ body one_shot_st0 = Next one_shot_stb
  /\ (iterations (m_stop one_shot)
      <= size_incr (iterations (m_current (solver one_shot_st0))))%N
  /\ exists stf,
       minimize 1 one_shot quadratic [one]
       = Some (if allow_out_of_iterations one_shot then Returned stf
               else Threw ReachedIterationLimit stf)
       /\ m_status (solver stf) = IterationLimit
       /\ m_error_code (solver stf) = SUCCESS
       /\ x stf = x one_shot_stb
       /\ iterations (m_current (solver stf))
          = size_incr (iterations (m_current (solver one_shot_st0))).
Proof.
  assert (H1 : initialize one_shot quadratic [one] = inl one_shot_st0)
    by (apply enters_loop_start; evaluate).
  assert (H2 : body one_shot_st0 = Next one_shot_stb)
    by (apply (falls_through_Next (body one_shot_st0)); evaluate).
  assert (H3 : (iterations (m_stop one_shot)
                <= size_incr
                     (iterations (m_current (solver one_shot_st0))))%N)
    by (apply N.leb_le; evaluate).
  split; [exact H1|]. split; [exact H2|]. split; [exact H3|].
  exact (iteration_limit_ends_the_call
           one_shot quadratic [one] _ 0 0 _ _ 0 H1 eq_refl H2 H3).
Defined.

(** An objective that asks to stop after the first step. *)
Lemma objective_stop_ends_the_call_witness :
  initialize halving content [one] = inl content_st0
  /\ upto_update content_st0 = Next content_st4
  /\ isnan (rate content_st4) = false
  /\ fst (stop (objFunc content_st4)
            (plus_scaled (x content_st0) (rate content_st4)
               (delta_x content_st4))) = true
  /\ (size_incr (iterations (m_current (solver content_st0)))
      < iterations (m_stop halving))%N
  /\ exists stf,
       minimize 1 halving content [one] = Some (Returned stf)
       /\ m_status (solver stf) = UserDefined
       /\ m_error_code (solver stf) = SUCCESS
       /\ x stf
          = plus_scaled (x content_st0) (rate content_st4)
              (delta_x content_st4)
       /\ iterations (m_current (solver stf))
          = size_incr (iterations (m_current (solver content_st0))).
Proof.
  assert (H1 : initialize halving content [one] = inl content_st0)
    by (apply enters_loop_start; evaluate).
  assert (H2 : upto_update content_st0 = Next content_st4)
    by (apply (falls_through_Next (upto_update content_st0)); evaluate).
  assert (H3 : isnan (rate content_st4) = false) by evaluate.
  assert (H4 : fst (stop (objFunc content_st4)
                      (plus_scaled (x content_st0) (rate content_st4)
                         (delta_x content_st4))) = true) by evaluate.
  assert (H5 : (size_incr (iterations (m_current (solver content_st0)))
                < iterations (m_stop halving))%N)
    by (apply N.ltb_lt; evaluate).
  split; [exact H1|]. split; [exact H2|]. split; [exact H3|].
  split; [exact H4|]. split; [exact H5|].
  exact (objective_stop_ends_the_call
           halving content [one] _ 0 0 _ _ 0 H1 eq_refl H2 H3 H4 H5).
Defined.

(** A solver at level 1 whose line search always fails. *)
Lemma line_search_failure_below_gradient_descent_witness :
  upto_update low_st0 = Next low_st4
  /\ isnan (rate low_st4) = true
  /\ (descent_strategy (solver low_st4) < 2)%Z
  /\ body low_st0 = Continue_ (do_increase_descent_strategy low_st4)
  /\ x (do_increase_descent_strategy low_st4) = x low_st0
  /\ m_status (solver (do_increase_descent_strategy low_st4)) = Continue.
Proof.
  assert (H1 : upto_update low_st0 = Next low_st4)
    by (apply (falls_through_Next (upto_update low_st0)); evaluate).
  assert (H2 : isnan (rate low_st4) = true) by evaluate.
  assert (H3 : (descent_strategy (solver low_st4) < 2)%Z)
    by (apply Z.ltb_lt; evaluate).
  split; [exact H1|]. split; [exact H2|]. split; [exact H3|].
  destruct (line_search_failure_below_gradient_descent _ _ H1 H2 H3)
    as (Hb & _ & Hx & _ & Hs & _).
  split; [exact Hb|]. split; [exact Hx|exact Hs].
Defined.

(** A solver whose first direction is not a number. *)
Lemma nan_direction_is_retried_witness :
  upto_direction stuck_st0 = Next stuck_st2
  /\ not_a_descent_direction (propose_direction stuck_st2) = false
  /\ isnan (norm (delta_x (propose_direction stuck_st2))) = true
  /\ exists st',
       body stuck_st0 = Continue_ st'
       /\ x st' = x stuck_st0
       /\ m_status (solver st') = Continue.
Proof.
  assert (H1 : upto_direction stuck_st0 = Next stuck_st2)
    by (apply (falls_through_Next (upto_direction stuck_st0)); evaluate).
  assert (H2 : not_a_descent_direction (propose_direction stuck_st2) = false)
    by evaluate.
  assert (H3 : isnan (norm (delta_x (propose_direction stuck_st2))) = true)
    by evaluate.
  split; [exact H1|]. split; [exact H2|]. split; [exact H3|].
  destruct (nan_direction_is_retried _ _ H1 H2 H3)
    as (Hb & _ & Hx & _ & Hs & _).
  eexists. split; [exact Hb|]. split; [exact Hx|exact Hs].
Defined.


(** The same call: one commit, counted once. *)
Lemma iterations_count_the_commits_witness :
  minimize 2 halving quadratic [one] = Some (Returned halving_end)
  /\ length (minimize_commits 2 halving quadratic [one]) = 1%nat
  /\ iterations (m_current (solver (final (Returned halving_end))))
     = Nat.iter (length (minimize_commits 2 halving quadratic [one]))
         size_incr (iterations (Criteria_reset (m_current halving))).
Proof.
  assert (H : minimize 2 halving quadratic [one]
              = Some (Returned halving_end))
    by (apply minimize_returned; evaluate).
  split; [exact H|]. split; [evaluate|].
  exact (proj1 (iterations_count_the_commits 2 halving quadratic [one]
                  (Returned halving_end) H)).
Defined.

(** A call that ends before its first commit. *)
Lemma stop_criteria_after_a_call_witness :
  ready gradient_descent = true
  /\ minimize 1 gradient_descent undefined [one]
     = Some (Threw EnergyNotFinite undefined_end)
  /\ minimize_commits 1 gradient_descent undefined [one] = []
  /\ m_stop (solver (final (Threw EnergyNotFinite undefined_end)))
     = set_gradNorm
         match minimize_commits 1 gradient_descent undefined [one] with
         | [] => first_grad_norm_tol gradient_descent
         | _ :: _ => gradNorm (m_stop gradient_descent)
         end (m_stop gradient_descent).
Proof.
  assert (H1 : ready gradient_descent = true) by evaluate.
  assert (H2 : minimize 1 gradient_descent undefined [one]
               = Some (Threw EnergyNotFinite undefined_end))
    by (apply minimize_threw; evaluate).
  split; [exact H1|]. split; [exact H2|]. split; [evaluate|].
  exact (proj1 (stop_criteria_after_a_call 1 gradient_descent undefined
                  [one] (Threw EnergyNotFinite undefined_end) H1 H2)).
Defined.

(** The limit of ten iterations of [halving]. *)
Lemma max_iterations_bounds_the_commits_witness :
  iterations (Criteria_reset (m_current halving)) = 0%N
  /\ (iterations (m_stop halving) < size_max)%N
  /\ (length (minimize_commits 5 halving quadratic [one])
      <= Nat.max (N.to_nat (iterations (m_stop halving))) 1)%nat.
Proof.
  assert (H1 : iterations (Criteria_reset (m_current halving)) = 0%N)
    by evaluate.
  assert (H2 : (iterations (m_stop halving) < size_max)%N)
    by (apply N.ltb_lt; evaluate).
  split; [exact H1|]. split; [exact H2|].
  exact (max_iterations_bounds_the_commits 5 halving quadratic [one] H1 H2).
Defined.

(** A call from the minimiser x = 0, which returns before its first
    commit, and a second call on the same solver object from x = 1: after
    the first commit of the second call the threshold is still the one of
    the first iteration. *)
Lemma tolerance_is_restored_by_a_commit_only_witness :
  Solver_new (blank 2) (params 10) two = Some gradient_descent
  /\ minimize 1 gradient_descent quadratic [zero] = Some (Returned idle_end)
  /\ minimize_commits 1 gradient_descent quadratic [zero] = []
  /\ initialize (solver (final (Returned idle_end))) quadratic [one]
     = inl reused_st0
  /\ attempts 1 reused_st0 = Some (1%nat, reused_st1)
  /\ gradNorm (m_stop (solver reused_st1))
     = mul (Params.first_grad_norm_tol (params 10)) two
  /\ mul (Params.first_grad_norm_tol (params 10)) two
     <> mul (Params.grad_norm (params 10)) two.
Proof.
  assert (H1 : Solver_new (blank 2) (params 10) two = Some gradient_descent)
    by evaluate.
  assert (H2 : minimize 1 gradient_descent quadratic [zero]
               = Some (Returned idle_end))
    by (apply minimize_returned; evaluate).
  assert (H3 : minimize_commits 1 gradient_descent quadratic [zero] = [])
    by evaluate.
  assert (H4 : initialize (solver (final (Returned idle_end))) quadratic
                 [one] = inl reused_st0)
    by (apply (enters_loop_start (solver idle_end)); evaluate).
  assert (H5 : attempts 1 reused_st0 = Some (1%nat, reused_st1))
    by (apply (commits_before_attempts 1 reused_st0 1); evaluate).
  split; [exact H1|]. split; [exact H2|]. split; [exact H3|].
  split; [exact H4|]. split; [exact H5|].
  split.
  - exact (proj2 (proj2 (tolerance_is_restored_by_a_commit_only
                           (blank 2) (params 10) two gradient_descent 1
                           quadratic [zero] (Returned idle_end)
                           quadratic [one] reused_st0 1 1 reused_st1
                           H1 H2 H3 H4 H5))).
  - intros E. vm_compute in E. discriminate E.
Defined.
